(** * Browser audio recorder: 16 kHz mono PCM16 capture pipeline

    A shallow embedding of the recorder's core (resampler, quantizer,
    silence detector, chunk accumulator, WAV encoder and the capture
    handlers that drive them) together with the properties the design
    document states about it.

    Conventions of the embedding:
    - a JavaScript [Number] is an IEEE-754 binary64 value, modelled by
      [spec_float] with the operations of [SpecFloat] at precision 53;
    - integer-valued numbers that the code uses as array indices, offsets
      and lengths ([i0], [i1], [offset], [total], ...) are kept in [nat] or
      [Z]; they are exact in binary64 below 2^53;
    - an [Int16Array] is a [list Z] of values in [-32768, 32767], a
      [Float32Array] a [list JS.number], an [ArrayBuffer] a [list Z] of
      bytes;
    - a thrown [RangeError] is [None]. *)

From Stdlib Require Import ZArith Lia Bool String Ascii.
From Stdlib Require Import Floats.SpecFloat.
From stdpp Require Import base list.

Local Open Scope Z_scope.

(** ** JavaScript numbers and typed-array conversions *)

Module JS.

Definition number := spec_float.

Definition prec : Z := 53.
Definition emax : Z := 1024.

Definition NaN : number := S754_nan.
Definition zero : number := S754_zero false.

(** The number denoted by an integer literal or an integer-valued
    expression such as [input.length]. *)
Definition of_Z (z : Z) : number := binary_normalize prec emax z 0 false.
Definition of_nat (n : nat) : number := of_Z (Z.of_nat n).

Definition one : number := of_Z 1.

Definition add : number -> number -> number := SFadd prec emax.
Definition sub : number -> number -> number := SFsub prec emax.
Definition mul : number -> number -> number := SFmul prec emax.
Definition div : number -> number -> number := SFdiv prec emax.
Definition sqrt : number -> number := SFsqrt prec emax.

(** [x < y], [x <= y], [x === y] and [x !== y] on numbers. *)
Definition ltb (x y : number) : bool := SFltb x y.
Definition leb (x y : number) : bool := SFleb x y.
Definition eqb (x y : number) : bool := SFeqb x y.
Definition neb (x y : number) : bool := negb (SFeqb x y).

Definition is_finite (x : number) : bool :=
  match x with
  | S754_zero _ | S754_finite _ _ _ => true
  | _ => false
  end.

(** A finite number is a binary64 datum when its mantissa and exponent are
    in canonical form. *)
Definition valid (x : number) : bool := valid_binary prec emax x.

(** Integer part, rounding toward zero; [None] for NaN and infinities. *)
Definition truncZ (x : number) : option Z :=
  match x with
  | S754_zero _ => Some 0
  | S754_finite s m e => Some (cond_Zopp s (Z.shiftl (Zpos m) e))
  | _ => None
  end.

(** Integer part, rounding toward minus infinity. *)
Definition floorZ (x : number) : option Z :=
  match x with
  | S754_zero _ => Some 0
  | S754_finite s m e => Some (Z.shiftl (cond_Zopp s (Zpos m)) e)
  | _ => None
  end.

(** [Math.floor]. *)
Definition Math_floor (x : number) : number :=
  match x with
  | S754_finite _ _ _ =>
      match floorZ x with
      | Some z => of_Z z
      | None => x
      end
  | _ => x
  end.

(** [Math.min] and [Math.max]: NaN is contagious and [-0 < +0]. *)
Definition Math_min (x y : number) : number :=
  match SFcompare x y with
  | None => NaN
  | Some Lt => x
  | Some Gt => y
  | Some Eq => match x with S754_zero true => x | _ => y end
  end.

Definition Math_max (x y : number) : number :=
  match SFcompare x y with
  | None => NaN
  | Some Lt => y
  | Some Gt => x
  | Some Eq => match x with S754_zero false => x | _ => y end
  end.

(** Reduction of an integer into the signed 16-bit range. *)
Definition wrap16 (z : Z) : Z := (z + 32768) mod 65536 - 32768.

(** The conversion applied by a store into an [Int16Array]: NaN and
    infinities become 0, anything else is truncated and reduced modulo
    2^16. *)
Definition ToInt16 (x : number) : Z :=
  match truncZ x with
  | Some z => wrap16 z
  | None => 0
  end.

(** The conversion applied by a store into a [Float32Array]: rounding to
    binary32 (ties to even), the result being again a binary64 datum. *)
Definition fround (x : number) : number :=
  match x with
  | S754_finite s m e =>
      match binary_round 24 128 s m e with
      | S754_finite s' m' e' => binary_round prec emax s' m' e'
      | y => y
      end
  | _ => x
  end.

(** The length argument of [new Int16Array(n)] / [new Float32Array(n)]:
    NaN counts as 0 and a fraction is truncated; a length that is
    negative, infinite or above 2^53 - 1 is a [RangeError]. The allocation
    itself is taken to succeed. *)
Definition ToIndex (x : number) : option nat :=
  match x with
  | S754_nan => Some 0%nat
  | S754_zero _ => Some 0%nat
  | S754_infinity _ => None
  | S754_finite s m e =>
      let z := cond_Zopp s (Z.shiftl (Zpos m) e) in
      if (0 <=? z) && (z <=? 2 ^ 53 - 1) then Some (Z.to_nat z) else None
  end.

(** [a[i]] on a [Float32Array]; an index outside the array yields
    [undefined], which every arithmetic operation turns into NaN. *)
Definition get (a : list number) (i : Z) : number :=
  if 0 <=? i then default NaN (a !! Z.to_nat i) else NaN.

(** [for (let i = start; i < start + n; i++) s = body(i, s)]. *)
Fixpoint for_upto {St : Type} (n start : nat) (body : nat -> St -> St) (s : St) : St :=
  match n with
  | O => s
  | S n' => for_upto n' (S start) body (body start s)
  end.

(** The same loop when the body may throw. *)
Fixpoint for_range {St : Type} (n start : nat) (body : nat -> St -> option St)
    (s : St) : option St :=
  match n with
  | O => Some s
  | S n' => s' ← body start s; for_range n' (S start) body s'
  end.

End JS.

(** ** DataView writes into an ArrayBuffer *)

Module DataView.

(** The bytes of the underlying [ArrayBuffer]. *)
Abbreviation t := (list Z).

(** [new ArrayBuffer(n)]: [n] zero bytes. *)
Definition alloc (n : nat) : t := replicate n 0.

Definition byte (v : Z) (k : Z) : Z := (v / 2 ^ (8 * k)) mod 256.

Definition setUint8 (view : t) (off : nat) (v : Z) : option t :=
  if (off + 1 <=? length view)%nat
  then Some (<[off := byte v 0]> view)
  else None.

(** [view.setUint16(off, v, true)]: little-endian. *)
Definition setUint16 (view : t) (off : nat) (v : Z) : option t :=
  if (off + 2 <=? length view)%nat
  then Some (<[(off + 1)%nat := byte v 1]> (<[off := byte v 0]> view))
  else None.

(** [view.setInt16(off, v, true)]: the two's complement of [v], little-endian. *)
Definition setInt16 (view : t) (off : nat) (v : Z) : option t :=
  setUint16 view off (v mod 65536).

(** [view.setUint32(off, v, true)]: little-endian. *)
Definition setUint32 (view : t) (off : nat) (v : Z) : option t :=
  if (off + 4 <=? length view)%nat
  then Some (<[(off + 3)%nat := byte v 3]> (<[(off + 2)%nat := byte v 2]>
            (<[(off + 1)%nat := byte v 1]> (<[off := byte v 0]> view))))
  else None.

(** [text.charCodeAt(i)] for an ASCII string; NaN (stored as 0) past the end. *)
Definition charCodeAt (text : string) (i : nat) : Z :=
  match String.get i text with
  | Some c => Z.of_nat (nat_of_ascii c)
  | None => 0
  end.

End DataView.

(** [for (const x of xs) s = body(s, x)] when the body may throw. *)
Fixpoint for_of {St A : Type} (body : St -> A -> option St) (s : St) (xs : list A)
    : option St :=
  match xs with
  | [] => Some s
  | x :: xs' => s' ← body s x; for_of body s' xs'
  end.

(** [result.set(c, offset)] on an [Int16Array]: a [RangeError] when the
    source does not fit. *)
Definition typed_set (result c : list Z) (offset : nat) : option (list Z) :=
  if (offset + length c <=? length result)%nat
  then Some (take offset result ++ c ++ drop (offset + length c) result)
  else None.

(** ** The worklet recorder (main.js) *)

Module Worklet.

Fixpoint isSilent (chunk : list Z) : bool :=
  match chunk with
  | [] => true
  | v :: rest => if negb (v =? 0) then false else isSilent rest
  end.

Definition mergeChunks (chunks : list (list Z)) : option (list Z) :=
  let total := foldl (fun total c => (total + length c)%nat) 0%nat chunks in
  let result := replicate total 0 in
  '(result, _) ← for_of (fun '(result, offset) c =>
                    result ← typed_set result c offset;
                    Some (result, (offset + length c)%nat))
                  (result, 0%nat) chunks;
  Some result.

Definition downsampleTo16k (input : list JS.number) (rate : JS.number)
    : option (list Z) :=
  let ratio := JS.div rate (JS.of_Z 16000) in
  let length_ := JS.Math_floor (JS.div (JS.of_nat (length input)) ratio) in
  n ← JS.ToIndex length_;
  Some (JS.for_upto n 0 (fun i output =>
    let idx := JS.mul (JS.of_nat i) ratio in
    let sample :=
      match JS.floorZ idx with
      | Some i0 =>
          let i1 := Z.min (i0 + 1) (Z.of_nat (length input) - 1) in
          let frac := JS.sub idx (JS.of_Z i0) in
          JS.add (JS.mul (JS.get input i0) (JS.sub JS.one frac))
                 (JS.mul (JS.get input i1) frac)
      | None => JS.NaN
      end in
    <[i := JS.ToInt16 (JS.mul sample (JS.of_Z 32767))]> output)
    (replicate n 0)).

Definition write (view : DataView.t) (offset : nat) (text : string)
    : option DataView.t :=
  JS.for_range (String.length text) 0 (fun i view =>
    DataView.setUint8 view (offset + i) (DataView.charCodeAt text i)) view.

Definition buildWav (samples : list Z) : option DataView.t :=
  let view := DataView.alloc (44 + length samples * 2) in
  view ← write view 0 "RIFF";
  view ← DataView.setUint32 view 4 (36 + Z.of_nat (length samples) * 2);
  view ← write view 8 "WAVE";
  view ← write view 12 "fmt ";
  view ← DataView.setUint32 view 16 16;
  view ← DataView.setUint16 view 20 1;
  view ← DataView.setUint16 view 22 1;
  view ← DataView.setUint32 view 24 16000;
  view ← DataView.setUint32 view 28 (16000 * 2);
  view ← DataView.setUint16 view 32 2;
  view ← DataView.setUint16 view 34 16;
  view ← write view 36 "data";
  view ← DataView.setUint32 view 40 (Z.of_nat (length samples) * 2);
  '(view, _) ← for_of (fun '(view, offset) sample =>
                  view ← DataView.setInt16 view offset sample;
                  Some (view, (offset + 2)%nat))
                (view, 44%nat) samples;
  Some view.

Definition isSilentFrame (int16 : list Z) : bool :=
  let sum := foldl (fun sum v => JS.add sum (JS.mul (JS.of_Z v) (JS.of_Z v)))
                   JS.zero int16 in
  let rms := JS.sqrt (JS.div sum (JS.of_nat (length int16))) in
  JS.ltb rms (JS.of_Z 25).

(** Module-level state: [audioCtx] (its sample rate, [None] once closed),
    [chunks] and [wavResult]. *)
Record state := mkState {
  audioCtx : option JS.number;
  chunks : list (list Z);
  wavResult : option DataView.t
}.

(** The start branch of [toggleRecording]. *)
Definition start (sampleRate : JS.number) (st : state) : state :=
  {| audioCtx := Some sampleRate; chunks := []; wavResult := wavResult st |}.

(** [workletNode.port.onmessage]; a throwing handler leaves the state as
    it was. *)
Definition onmessage (removeSilence : bool) (st : state) (float32 : list JS.number)
    : state :=
  match audioCtx st with
  | None => st
  | Some sampleRate =>
      match downsampleTo16k float32 sampleRate with
      | None => st
      | Some pcm16 =>
          if removeSilence && (length (chunks st) =? 0)%nat && isSilent pcm16
          then st
          else if isSilentFrame pcm16 then st
          else {| audioCtx := audioCtx st;
                  chunks := chunks st ++ [pcm16];
                  wavResult := wavResult st |}
      end
  end.

(** The stop branch of [toggleRecording]. *)
Definition stop (st : state) : option state :=
  mergedPCM ← mergeChunks (chunks st);
  wav ← buildWav mergedPCM;
  Some {| audioCtx := None; chunks := chunks st; wavResult := Some wav |}.

(** The timeline accumulated by a session fed with [blocks]. *)
Definition record (removeSilence : bool) (sampleRate : JS.number)
    (blocks : list (list JS.number)) : list (list Z) :=
  chunks (foldl (onmessage removeSilence)
                (start sampleRate (mkState None [] None)) blocks).

End Worklet.

(** ** The script-processor recorder (main-scriptprocessor.js, [AudioRecorder]) *)

Module Controller.

Record config := {
  SAMPLE_RATE : Z;
  TARGET_SAMPLE_RATE : Z;
  BUFFER_SIZE : Z;
  SILENCE_THRESHOLD : Z;
  BIT_DEPTH : Z;
  CHANNELS : Z
}.

Definition CONFIG : config := {|
  SAMPLE_RATE := 48000;
  TARGET_SAMPLE_RATE := 16000;
  BUFFER_SIZE := 4096;
  SILENCE_THRESHOLD := 25;
  BIT_DEPTH := 16;
  CHANNELS := 1
|}.

(** [AudioProcessor.downsample]. *)
Definition downsample (float32Data : list JS.number) (sourceRate : JS.number)
    : option (list Z) :=
  let ratio := JS.div sourceRate (JS.of_Z (TARGET_SAMPLE_RATE CONFIG)) in
  let outputLength :=
    JS.Math_floor (JS.div (JS.of_nat (length float32Data)) ratio) in
  n ← JS.ToIndex outputLength;
  Some (JS.for_upto n 0 (fun i output =>
    let srcIndex := JS.mul (JS.of_nat i) ratio in
    let interpolated :=
      match JS.floorZ srcIndex with
      | Some floor =>
          let ceil := Z.min (floor + 1) (Z.of_nat (length float32Data) - 1) in
          let fraction := JS.sub srcIndex (JS.of_Z floor) in
          JS.add (JS.mul (JS.get float32Data floor) (JS.sub JS.one fraction))
                 (JS.mul (JS.get float32Data ceil) fraction)
      | None => JS.NaN
      end in
    <[i := JS.ToInt16 (JS.mul interpolated (JS.of_Z 32767))]> output)
    (replicate n 0)).

(** [AudioProcessor.mergeChunks]. *)
Definition mergeChunks (chunks : list (list Z)) : option (list Z) :=
  let totalLength := foldl (fun sum chunk => (sum + length chunk)%nat) 0%nat chunks in
  let merged := replicate totalLength 0 in
  '(merged, _) ← for_of (fun '(merged, offset) chunk =>
                    merged ← typed_set merged chunk offset;
                    Some (merged, (offset + length chunk)%nat))
                  (merged, 0%nat) chunks;
  Some merged.

(** [SilenceDetector.isAbsolutelySilent]. *)
Definition isAbsolutelySilent (samples : list Z) : bool :=
  forallb (fun sample => sample =? 0) samples.

(** [SilenceDetector.isBelowThreshold]. *)
Definition isBelowThreshold (samples : list Z) : bool :=
  let sumOfSquares :=
    foldl (fun sum val => JS.add sum (JS.mul (JS.of_Z val) (JS.of_Z val)))
          JS.zero samples in
  let rms := JS.sqrt (JS.div sumOfSquares (JS.of_nat (length samples))) in
  JS.ltb rms (JS.of_Z (SILENCE_THRESHOLD CONFIG)).

(** [WavEncoder.writeString]. *)
Definition writeString (view : DataView.t) (offset : nat) (text : string)
    : option DataView.t :=
  JS.for_range (String.length text) 0 (fun i view =>
    DataView.setUint8 view (offset + i) (DataView.charCodeAt text i)) view.

(** [WavEncoder.encode]. *)
Definition encode (samples : list Z) : option DataView.t :=
  let headerSize := 44%nat in
  let dataSize := (length samples * 2)%nat in
  let view := DataView.alloc (headerSize + dataSize) in
  view ← writeString view 0 "RIFF";
  view ← DataView.setUint32 view 4 (36 + Z.of_nat dataSize);
  view ← writeString view 8 "WAVE";
  view ← writeString view 12 "fmt ";
  view ← DataView.setUint32 view 16 16;
  view ← DataView.setUint16 view 20 1;
  view ← DataView.setUint16 view 22 (CHANNELS CONFIG);
  view ← DataView.setUint32 view 24 (TARGET_SAMPLE_RATE CONFIG);
  view ← DataView.setUint32 view 28 (TARGET_SAMPLE_RATE CONFIG * 2);
  view ← DataView.setUint16 view 32 2;
  view ← DataView.setUint16 view 34 (BIT_DEPTH CONFIG);
  view ← writeString view 36 "data";
  view ← DataView.setUint32 view 40 (Z.of_nat dataSize);
  '(view, _) ← for_of (fun '(view, writeOffset) sample =>
                  view ← DataView.setInt16 view writeOffset sample;
                  Some (view, (writeOffset + 2)%nat))
                (view, headerSize) samples;
  Some view.

(** The [state] object: [audioContext] (its sample rate, [None] when
    closed), [recordedChunks] and [finalWavBuffer]. *)
Record state := mkState {
  audioContext : option JS.number;
  recordedChunks : list (list Z);
  finalWavBuffer : option DataView.t
}.

(** [RecordingController.start]. *)
Definition start (sampleRate : JS.number) (st : state) : state :=
  {| audioContext := Some sampleRate;
     recordedChunks := [];
     finalWavBuffer := finalWavBuffer st |}.

(** [state.scriptProcessor.onaudioprocess]; a throwing handler leaves the
    state as it was. *)
Definition onaudioprocess (shouldRemoveInitialSilence : bool) (st : state)
    (inputData : list JS.number) : state :=
  match audioContext st with
  | None => st
  | Some sampleRate =>
      match downsample inputData sampleRate with
      | None => st
      | Some pcm16 =>
          if shouldRemoveInitialSilence && (length (recordedChunks st) =? 0)%nat
             && (isAbsolutelySilent pcm16 || isBelowThreshold pcm16)
          then st
          else {| audioContext := audioContext st;
                  recordedChunks := recordedChunks st ++ [pcm16];
                  finalWavBuffer := finalWavBuffer st |}
      end
  end.

(** [RecordingController.stop]. *)
Definition stop (st : state) : option state :=
  mergedPCM ← mergeChunks (recordedChunks st);
  wav ← encode mergedPCM;
  Some {| audioContext := None;
          recordedChunks := recordedChunks st;
          finalWavBuffer := Some wav |}.

(** The timeline accumulated by a session fed with [blocks]. *)
Definition record (shouldRemoveInitialSilence : bool) (sampleRate : JS.number)
    (blocks : list (list JS.number)) : list (list Z) :=
  recordedChunks (foldl (onaudioprocess shouldRemoveInitialSilence)
                        (start sampleRate (mkState None [] None)) blocks).

End Controller.

(** ** The audio worker (audio-worker.js) *)

Module Worker.

Definition TARGET_SAMPLE_RATE : Z := 16000.

(** [downsample]: the output is a [Float32Array]. *)
Definition downsample (float32Data : list JS.number) (sourceRate targetRate : JS.number)
    : option (list JS.number) :=
  let ratio := JS.div sourceRate targetRate in
  let outputLength :=
    JS.Math_floor (JS.div (JS.of_nat (length float32Data)) ratio) in
  n ← JS.ToIndex outputLength;
  Some (JS.for_upto n 0 (fun i output =>
    let srcIndex := JS.mul (JS.of_nat i) ratio in
    let value :=
      match JS.floorZ srcIndex with
      | Some floor =>
          let ceil := Z.min (floor + 1) (Z.of_nat (length float32Data) - 1) in
          let fraction := JS.sub srcIndex (JS.of_Z floor) in
          JS.add (JS.mul (JS.get float32Data floor) (JS.sub JS.one fraction))
                 (JS.mul (JS.get float32Data ceil) fraction)
      | None => JS.NaN
      end in
    <[i := JS.fround value]> output)
    (replicate n JS.zero)).

(** [float32ToInt16]. *)
Definition float32ToInt16 (float32Data : list JS.number) : list Z :=
  JS.for_upto (length float32Data) 0 (fun i output =>
    let sample :=
      JS.Math_max (JS.of_Z (-1))
        (JS.Math_min JS.one (JS.get float32Data (Z.of_nat i))) in
    <[i := JS.ToInt16 (JS.mul sample (JS.of_Z 32767))]> output)
    (replicate (length float32Data) 0).

Definition mergeChunks (chunks : list (list Z)) : option (list Z) :=
  Controller.mergeChunks chunks.

Definition buildWav (samples : list Z) : option DataView.t :=
  Controller.encode samples.

(** Worker globals. *)
Record state := mkState {
  recordedChunks : list (list Z);
  sourceSampleRate : JS.number;
  needsDownsampling : bool
}.

Definition initial : state :=
  {| recordedChunks := []; sourceSampleRate := JS.of_Z 16000;
     needsDownsampling := false |}.

Inductive message :=
  | Init (sourceSampleRate : JS.number)
  | Process (buffer : list JS.number)
  | Finish
  | Clear.

(** A number is falsy when it is 0 or NaN. *)
Definition falsy (x : JS.number) : bool :=
  match x with
  | S754_zero _ | S754_nan => true
  | _ => false
  end.

(** [self.onmessage]: the new globals and, for ['finish'], the WAV buffer
    posted back. A throwing handler leaves the globals as they were. *)
Definition onmessage (st : state) (m : message) : state * option DataView.t :=
  match m with
  | Init rate =>
      let rate' := if falsy rate then JS.of_Z 16000 else rate in
      ({| recordedChunks := []; sourceSampleRate := rate';
          needsDownsampling := JS.neb rate' (JS.of_Z TARGET_SAMPLE_RATE) |}, None)
  | Process buffer =>
      let resampled :=
        if needsDownsampling st
        then downsample buffer (sourceSampleRate st) (JS.of_Z TARGET_SAMPLE_RATE)
        else Some buffer in
      match resampled with
      | None => (st, None)
      | Some float32Data =>
          let int16Data := float32ToInt16 float32Data in
          ({| recordedChunks := recordedChunks st ++ [int16Data];
              sourceSampleRate := sourceSampleRate st;
              needsDownsampling := needsDownsampling st |}, None)
      end
  | Finish =>
      match mergedPCM ← mergeChunks (recordedChunks st); buildWav mergedPCM with
      | None => (st, None)
      | Some wavBuffer =>
          ({| recordedChunks := []; sourceSampleRate := sourceSampleRate st;
              needsDownsampling := needsDownsampling st |}, Some wavBuffer)
      end
  | Clear =>
      ({| recordedChunks := []; sourceSampleRate := sourceSampleRate st;
          needsDownsampling := needsDownsampling st |}, None)
  end.

End Worker.

(** ** The worker-offloaded recorder ([AudioRecorder] posting to the worker) *)

Module Offload.

(** [SilenceDetector.isAbsolutelySilentFloat32]. *)
Fixpoint isAbsolutelySilentFloat32 (samples : list JS.number) : bool :=
  match samples with
  | [] => true
  | s :: rest =>
      if JS.neb s JS.zero then false else isAbsolutelySilentFloat32 rest
  end.

(** The literal [0.001]: the binary64 nearest to 1/1000. *)
Definition lit_0_001 : JS.number := JS.div (JS.of_Z 1) (JS.of_Z 1000).

(** [SilenceDetector.isBelowThresholdFloat32]. *)
Definition isBelowThresholdFloat32 (samples : list JS.number) : bool :=
  let sumOfSquares :=
    foldl (fun sumOfSquares s => JS.add sumOfSquares (JS.mul s s)) JS.zero samples in
  let rms := JS.sqrt (JS.div sumOfSquares (JS.of_nat (length samples))) in
  JS.ltb rms lit_0_001.

(** Main-thread state: [state.audioContext], the closure variable
    [hasRecordedAudio], and the worker's globals. Messages posted to the
    worker are handled in the order they are posted, so the worker's
    handler is run at the point of the [postMessage]. *)
Record state := mkState {
  audioContext : option JS.number;
  hasRecordedAudio : bool;
  audioWorker : Worker.state
}.

(** [RecordingController.start]. *)
Definition start (sampleRate : JS.number) : state :=
  {| audioContext := Some sampleRate;
     hasRecordedAudio := false;
     audioWorker := fst (Worker.onmessage Worker.initial (Worker.Init sampleRate)) |}.

(** [state.scriptProcessor.onaudioprocess]. *)
Definition onaudioprocess (shouldRemoveInitialSilence : bool) (st : state)
    (inputData : list JS.number) : state :=
  match audioContext st with
  | None => st
  | Some _ =>
      if shouldRemoveInitialSilence && negb (hasRecordedAudio st) then
        if isAbsolutelySilentFloat32 inputData || isBelowThresholdFloat32 inputData
        then st
        else {| audioContext := audioContext st;
                hasRecordedAudio := true;
                audioWorker :=
                  fst (Worker.onmessage (audioWorker st) (Worker.Process inputData)) |}
      else {| audioContext := audioContext st;
              hasRecordedAudio := hasRecordedAudio st;
              audioWorker :=
                fst (Worker.onmessage (audioWorker st) (Worker.Process inputData)) |}
  end.

(** [RecordingController.stop]: the WAV buffer the worker posts back. *)
Definition stop (st : state) : state * option DataView.t :=
  let '(w, wav) := Worker.onmessage (audioWorker st) Worker.Finish in
  ({| audioContext := None; hasRecordedAudio := hasRecordedAudio st;
      audioWorker := w |}, wav).

(** The timeline accumulated in the worker by a session fed with [blocks]. *)
Definition record (shouldRemoveInitialSilence : bool) (sampleRate : JS.number)
    (blocks : list (list JS.number)) : list (list Z) :=
  Worker.recordedChunks
    (audioWorker (foldl (onaudioprocess shouldRemoveInitialSilence)
                        (start sampleRate) blocks)).

End Offload.

(** ** Reading a WAV container back

    The recorder only writes containers. The reader below follows the
    layout table of the design document: header fields are little-endian
    unsigned integers at fixed offsets and the bytes from offset 44 on are
    consecutive little-endian signed 16-bit samples. *)

Module WavReader.

Definition getUint8 (bytes : list Z) (off : nat) : Z := default 0 (bytes !! off).

Definition getUint16 (bytes : list Z) (off : nat) : Z :=
  getUint8 bytes off + 256 * getUint8 bytes (off + 1).

Definition getUint32 (bytes : list Z) (off : nat) : Z :=
  getUint16 bytes off + 65536 * getUint16 bytes (off + 2).

Definition to_signed16 (u : Z) : Z := if u <? 32768 then u else u - 65536.

Fixpoint read_samples (bytes : list Z) : list Z :=
  match bytes with
  | lo :: hi :: rest => to_signed16 (lo + 256 * hi) :: read_samples rest
  | _ => []
  end.

Definition tag (bytes : list Z) (off : nat) : list Z := take 4 (drop off bytes).

Record wav := mkWav {
  sampleRate : Z;
  channels : Z;
  bitDepth : Z;
  dataSize : Z;
  samples : list Z
}.

Definition decode (bytes : list Z) : wav :=
  {| sampleRate := getUint32 bytes 24;
     channels := getUint16 bytes 22;
     bitDepth := getUint16 bytes 34;
     dataSize := getUint32 bytes 40;
     samples := read_samples (drop 44 bytes) |}.

(** ASCII codes of a four-character chunk tag. *)
Definition codes (text : string) : list Z :=
  map (fun c => Z.of_nat (nat_of_ascii c)) (list_ascii_of_string text).

End WavReader.

(** The bytes of a 16-bit and of a 32-bit little-endian field. *)
Definition le16 (v : Z) : list Z := [DataView.byte v 0; DataView.byte v 1].
Definition le32 (v : Z) : list Z :=
  [DataView.byte v 0; DataView.byte v 1; DataView.byte v 2; DataView.byte v 3].

(** The 44-byte header of a 16 kHz mono 16-bit container holding
    [sampleCount] samples. *)
Definition wav_header (sampleCount : nat) : list Z :=
  [82; 73; 70; 70] ++ le32 (36 + Z.of_nat sampleCount * 2)
  ++ [87; 65; 86; 69] ++ [102; 109; 116; 32]
  ++ le32 16 ++ le16 1 ++ le16 1 ++ le32 16000 ++ le32 (16000 * 2)
  ++ le16 2 ++ le16 16
  ++ [100; 97; 116; 97] ++ le32 (Z.of_nat sampleCount * 2).

(** The payload bytes of a sample buffer. *)
Definition wav_data (samples : list Z) : list Z :=
  flat_map (fun s => le16 (s mod 65536)) samples.

(** An [Int16Array] element. *)
Definition is_int16 (v : Z) : Prop := -32768 <= v <= 32767.

(** ** Leading-silence trimming, as the design document describes it *)

(** The input with its maximal prefix of leading (silent) blocks removed. *)
Fixpoint drop_leading {A : Type} (leading : A -> bool) (blocks : list A) : list A :=
  match blocks with
  | [] => []
  | b :: rest => if leading b then drop_leading leading rest else blocks
  end.

(** A block the script-processor recorder does not accept while the
    timeline is empty: its PCM16 form is all zero or below the RMS
    threshold (or its conversion throws, in which case it is never
    appended). *)
Definition Controller_leading (rate : JS.number) (block : list JS.number) : bool :=
  match Controller.downsample block rate with
  | Some pcm16 => Controller.isAbsolutelySilent pcm16 || Controller.isBelowThreshold pcm16
  | None => true
  end.

(** A block the worker-offloaded recorder does not post while nothing has
    been recorded. *)
Definition Offload_leading (block : list JS.number) : bool :=
  Offload.isAbsolutelySilentFloat32 block || Offload.isBelowThresholdFloat32 block.

(** What the worker appends for a posted block: nothing when the resampler
    throws. *)
Definition Worker_convert (st : Worker.state) (buffer : list JS.number)
    : option (list Z) :=
  float32Data ← (if Worker.needsDownsampling st
                 then Worker.downsample buffer (Worker.sourceSampleRate st)
                        (JS.of_Z Worker.TARGET_SAMPLE_RATE)
                 else Some buffer);
  Some (Worker.float32ToInt16 float32Data).

(** ** Sample inputs *)

Definition rate48k : JS.number := JS.of_Z 48000.
Definition rate16k : JS.number := JS.of_Z 16000.

(** The literal [0.5]. *)
Definition lit_0_5 : JS.number := JS.div (JS.of_Z 1) (JS.of_Z 2).

(** A render quantum of 128 samples of digital silence and one of a
    constant 0.5. *)
Definition zero_block : list JS.number := replicate 128 JS.zero.
Definition loud_block : list JS.number := replicate 128 lit_0_5.

(** Their PCM16 forms after 48 kHz to 16 kHz conversion: 42 samples each. *)
Definition zero_pcm : list Z := replicate 42 0.
Definition loud_pcm : list Z := replicate 42 16383.

(** Their PCM16 forms when recorded at 16 kHz, without resampling. *)
Definition zero_pcm16k : list Z := replicate 128 0.
Definition loud_pcm16k : list Z := replicate 128 16383.

(** The recording session of the design document's gating scenario. *)
Definition session : list (list JS.number) :=
  [zero_block; zero_block; loud_block; zero_block].

(** ** Quantization and sample values *)

(** The store [output[i] = sample * 0x7fff] into an [Int16Array], as the
    resampling loops of main.js and of [AudioProcessor.downsample] write it. *)
Definition scale_to_int16 (sample : JS.number) : Z :=
  JS.ToInt16 (JS.mul sample (JS.of_Z 32767)).

(** The clamp [Math.max(-1, Math.min(1, x))] of the worker's quantizer. *)
Definition clamp_unit (x : JS.number) : JS.number :=
  JS.Math_max (JS.of_Z (-1)) (JS.Math_min JS.one x).

(** An element of a [Float32Array] that holds a finite sample: a binary64
    datum that rounding to binary32 leaves unchanged. *)
Definition float32_sample (x : JS.number) : Prop :=
  JS.is_finite x = true /\ JS.valid x = true /\ JS.fround x = x.

(** Two samples that compare equal with [===], and are the same datum
    unless the second is the negative zero. *)
Definition same_sample (o i : JS.number) : Prop :=
  JS.eqb o i = true /\ (i <> S754_zero true -> o = i).

(** The body of the resampling loops: the linear interpolation of the two
    input samples around the source position [i * ratio]. *)
Definition interpolate (input : list JS.number) (ratio : JS.number) (i : nat)
    : JS.number :=
  let idx := JS.mul (JS.of_nat i) ratio in
  match JS.floorZ idx with
  | Some i0 =>
      let i1 := Z.min (i0 + 1) (Z.of_nat (length input) - 1) in
      let frac := JS.sub idx (JS.of_Z i0) in
      JS.add (JS.mul (JS.get input i0) (JS.sub JS.one frac))
             (JS.mul (JS.get input i1) frac)
  | None => JS.NaN
  end.

(** The literals [1.5] and [0.0009], the latter as a [Float32Array]
    element. *)
Definition lit_1_5 : JS.number := JS.div (JS.of_Z 3) (JS.of_Z 2).
Definition lit_0_0009 : JS.number := JS.fround (JS.div (JS.of_Z 9) (JS.of_Z 10000)).

(** A render quantum of a constant 0.0009: above 25/32767, below 0.001. *)
Definition quiet_block : list JS.number := replicate 128 lit_0_0009.

(** The PCM16-scale threshold 25 brought to float scale. *)
Definition float_threshold : JS.number := JS.div (JS.of_Z 25) (JS.of_Z 32767).

(** A block of four float32 samples and a rate used to exercise the
    resampler at unity ratio. *)
Definition unity_block : list JS.number :=
  [lit_0_5; JS.of_Z (-1); JS.zero; JS.of_Z 1].
Definition rate44k1 : JS.number := JS.of_Z 44100.


(** [Math.floor(input.length / ratio)], the length every resampler
    allocates for its output. *)
Definition output_length (len : nat) (ratio : JS.number) : JS.number :=
  JS.Math_floor (JS.div (JS.of_nat len) ratio).

(** [Math.sqrt(sumOfSquares / samples.length)] on a float block, as
    [isBelowThresholdFloat32] computes it. *)
Definition rms_float32 (samples : list JS.number) : JS.number :=
  JS.sqrt (JS.div (foldl (fun sumOfSquares s => JS.add sumOfSquares (JS.mul s s))
                         JS.zero samples)
                  (JS.of_nat (length samples))).

(** ** The MediaRecorder variant: conversion of the decoded recording *)

Module MediaRecorder.

(** [downsampleTo16k], [buildWav] and [isSilentFrame] have the same bodies
    as in main.js. *)
Definition downsampleTo16k := Worklet.downsampleTo16k.
Definition buildWav := Worklet.buildWav.
Definition isSilentFrame := Worklet.isSilentFrame.

(** [pcm16.slice(from, to)] for [from <= to <= pcm16.length]. *)
Definition slice (pcm16 : list Z) (from to : nat) : list Z :=
  take (to - from) (drop from pcm16).

(** The chunking loop of [removeSilentFrames],
    [for (let i = 0; i < pcm16.length; i += chunkSize)], run for at most
    [fuel] iterations. *)
Fixpoint frames_loop (fuel : nat) (pcm16 : list Z) (i : nat)
    (nonSilentChunks : list (list Z)) : list (list Z) :=
  match fuel with
  | O => nonSilentChunks
  | S fuel' =>
      if (i <? length pcm16)%nat then
        let chunk := slice pcm16 i (Nat.min (i + 512) (length pcm16)) in
        frames_loop fuel' pcm16 (i + 512)
          (if negb (isSilentFrame chunk) then nonSilentChunks ++ [chunk]
           else nonSilentChunks)
      else nonSilentChunks
  end.

(** [removeSilentFrames]: the loop needs at most [pcm16.length] iterations;
    the merge that follows is the code of [mergeChunks]. *)
Definition removeSilentFrames (pcm16 : list Z) : option (list Z) :=
  let nonSilentChunks := frames_loop (length pcm16) pcm16 0 [] in
  Worklet.mergeChunks nonSilentChunks.

(** [convertToWav16k] from the decoded channel data on: resample, strip
    the silent frames when the box is checked, encode. [None] is a thrown
    exception. *)
Definition convertDecoded (removeSilence : bool) (float32 : list JS.number)
    (sampleRate : JS.number) : option (list Z) :=
  pcm16 ← downsampleTo16k float32 sampleRate;
  finalPcm ← (if removeSilence then removeSilentFrames pcm16 else Some pcm16);
  buildWav finalPcm.

End MediaRecorder.

(** The consecutive frames of [size] samples of a buffer, the last one
    possibly shorter. *)
Fixpoint frames_of (fuel size : nat) (l : list Z) : list (list Z) :=
  match fuel with
  | O => []
  | S fuel' =>
      match l with
      | [] => []
      | _ => take size l :: frames_of fuel' size (drop size l)
      end
  end.

(** ** Predicates and sessions of the further properties *)

(** The worker's configuration, fixed by [init], that a session of the
    worker-offloaded recorder keeps. *)
Definition Offload_inv (w0 : Worker.state) (st : Offload.state) : Prop :=
  Worker.sourceSampleRate (Offload.audioWorker st) = Worker.sourceSampleRate w0
  /\ Worker.needsDownsampling (Offload.audioWorker st) = Worker.needsDownsampling w0.

(** [!isSilentFrame(chunk)], the test under which a block or frame is kept. *)
Definition rms_audible (pcm16 : list Z) : bool := negb (Worklet.isSilentFrame pcm16).

(** A block whose conversion, when it succeeds, is not empty. *)
Definition regular_block (rate : JS.number) (b : list JS.number) : Prop :=
  match Worklet.downsampleTo16k b rate with
  | Some pcm16 => pcm16 <> [] /\ Z.of_nat (length pcm16) < 2 ^ 53
  | None => True
  end.

(** A run of [process] messages. *)
Definition Worker_feed (st : Worker.state) (buffers : list (list JS.number))
    : Worker.state :=
  foldl (fun st buffer => fst (Worker.onmessage st (Worker.Process buffer))) st buffers.

(** Decimation by three followed by quantization: what the resampler
    computes at 48 kHz. *)
Definition decimate3 (x : list JS.number) : list Z :=
  map (fun i => scale_to_int16 (JS.get x (Z.of_nat (3 * i)))) (seq 0 (length x / 3)).

(** A sample within the nominal range [-1, 1]. *)
Definition in_unit (x : JS.number) : Prop :=
  JS.leb (JS.of_Z (-1)) x = true /\ JS.leb x JS.one = true.

(** The sum of the squares of a PCM16 frame, as an integer. *)
Definition sum_of_squares (frame : list Z) : Z :=
  foldl (fun sum v => sum + v * v) 0 frame.

(** A frame whose mean square is at least 625, that is whose RMS is at
    least 25, in integers. *)
Definition energy_audible (frame : list Z) : bool :=
  625 * Z.of_nat (length frame) <=? sum_of_squares frame.

(** ** The script-processor recorder with callback diagnostics

    The second [AudioRecorder] of the script-processor page keeps, beside
    the recording state, a [diagnostics] object updated by every audio
    callback. Its resampler, silence tests, merger and encoder are those of
    [AudioRecorder]. The reading of [performance.now()] is an input of each
    callback; writing to the console and to the page is taken not to
    throw. *)

Module Diagnostics.

(** An entry of [diagnostics.gaps]. *)
Record gap := mkGap {
  timestamp : JS.number;
  gapMs : JS.number;
  expectedMs : option JS.number
}.

(** The [diagnostics] object; [None] stands for [null]. *)
Record diagnostics := mkDiagnostics {
  startTime : option JS.number;
  lastCallbackTime : option JS.number;
  callbackCount : JS.number;
  totalSamplesReceived : JS.number;
  totalDownsampledSamples : JS.number;
  actualSampleRate : option JS.number;
  gaps : list gap;
  expectedIntervalMs : option JS.number
}.

(** [resetDiagnostics]. *)
Definition resetDiagnostics : diagnostics :=
  {| startTime := None; lastCallbackTime := None;
     callbackCount := JS.zero; totalSamplesReceived := JS.zero;
     totalDownsampledSamples := JS.zero; actualSampleRate := None;
     gaps := []; expectedIntervalMs := None |}.

Record state := mkState {
  recorder : Controller.state;
  diag : diagnostics
}.

(** [null] in an arithmetic position counts as 0. *)
Definition ToNumber (x : option JS.number) : JS.number := default JS.zero x.

(** The literal [1.8]. *)
Definition lit_1_8 : JS.number := JS.div (JS.of_Z 9) (JS.of_Z 5).

(** [RecordingController.start], for a context running at [sampleRate]. *)
Definition start (sampleRate : JS.number) (st : state) : state :=
  {| recorder := Controller.start sampleRate (recorder st);
     diag :=
       {| startTime := None; lastCallbackTime := None;
          callbackCount := JS.zero; totalSamplesReceived := JS.zero;
          totalDownsampledSamples := JS.zero;
          actualSampleRate := Some sampleRate;
          gaps := [];
          expectedIntervalMs :=
            Some (JS.mul (JS.div (JS.of_Z (Controller.BUFFER_SIZE Controller.CONFIG))
                                 sampleRate)
                         (JS.of_Z 1000)) |} |}.

(** [state.scriptProcessor.onaudioprocess] for a callback at time [now]
    with input [inputData]. The handler can throw at two places, and what
    it has stored by then stays: in the gap report, when
    [expectedIntervalMs] is [null] (after the [push]), and in the
    resampler (after the counters of the callback and of the received
    samples). *)
Definition onaudioprocess (shouldRemoveInitialSilence : bool) (st : state)
    (event : JS.number * list JS.number) : state :=
  let '(now, inputData) := event in
  match Controller.audioContext (recorder st) with
  | None => st
  | Some sampleRate =>
      let d := diag st in
      let d1 :=
        match startTime d with
        | None =>
            {| startTime := Some now; lastCallbackTime := Some now;
               callbackCount := callbackCount d;
               totalSamplesReceived := totalSamplesReceived d;
               totalDownsampledSamples := totalDownsampledSamples d;
               actualSampleRate := actualSampleRate d;
               gaps := gaps d; expectedIntervalMs := expectedIntervalMs d |}
        | Some _ => d
        end in
      let elapsed := JS.sub now (ToNumber (lastCallbackTime d1)) in
      let threshold := JS.mul (ToNumber (expectedIntervalMs d1)) lit_1_8 in
      let gapFound := JS.ltb JS.zero (callbackCount d1) && JS.ltb threshold elapsed in
      let gaps2 :=
        if gapFound
        then gaps d1 ++ [ {| timestamp := now; gapMs := elapsed;
                             expectedMs := expectedIntervalMs d1 |} ]
        else gaps d1 in
      let d2 :=
        {| startTime := startTime d1; lastCallbackTime := lastCallbackTime d1;
           callbackCount := callbackCount d1;
           totalSamplesReceived := totalSamplesReceived d1;
           totalDownsampledSamples := totalDownsampledSamples d1;
           actualSampleRate := actualSampleRate d1;
           gaps := gaps2; expectedIntervalMs := expectedIntervalMs d1 |} in
      if gapFound && negb (bool_decide (is_Some (expectedIntervalMs d1)))
      then {| recorder := recorder st; diag := d2 |}
      else
        let d3 :=
          {| startTime := startTime d2; lastCallbackTime := Some now;
             callbackCount := JS.add (callbackCount d2) JS.one;
             totalSamplesReceived :=
               JS.add (totalSamplesReceived d2) (JS.of_nat (length inputData));
             totalDownsampledSamples := totalDownsampledSamples d2;
             actualSampleRate := actualSampleRate d2;
             gaps := gaps d2; expectedIntervalMs := expectedIntervalMs d2 |} in
        match Controller.downsample inputData sampleRate with
        | None => {| recorder := recorder st; diag := d3 |}
        | Some pcm16 =>
            let d4 :=
              {| startTime := startTime d3; lastCallbackTime := lastCallbackTime d3;
                 callbackCount := callbackCount d3;
                 totalSamplesReceived := totalSamplesReceived d3;
                 totalDownsampledSamples :=
                   JS.add (totalDownsampledSamples d3) (JS.of_nat (length pcm16));
                 actualSampleRate := actualSampleRate d3;
                 gaps := gaps d3; expectedIntervalMs := expectedIntervalMs d3 |} in
            if shouldRemoveInitialSilence
               && (length (Controller.recordedChunks (recorder st)) =? 0)%nat
               && (Controller.isAbsolutelySilent pcm16
                   || Controller.isBelowThreshold pcm16)
            then {| recorder := recorder st; diag := d4 |}
            else {| recorder :=
                      {| Controller.audioContext := Controller.audioContext (recorder st);
                         Controller.recordedChunks :=
                           Controller.recordedChunks (recorder st) ++ [pcm16];
                         Controller.finalWavBuffer :=
                           Controller.finalWavBuffer (recorder st) |};
                    diag := d4 |}
        end
  end.

(** A session: [start], then one callback per event. *)
Definition session (shouldRemoveInitialSilence : bool) (sampleRate : JS.number)
    (events : list (JS.number * list JS.number)) : state :=
  foldl (onaudioprocess shouldRemoveInitialSilence)
        (start sampleRate
           {| recorder := Controller.mkState None [] None; diag := resetDiagnostics |})
        events.

End Diagnostics.


(** * Properties *)

(** ** Loops and typed arrays *)

Lemma for_upto_fill_from {A : Type} (f : nat -> A) (d : A) (n : nat) (pre : list A) :
  JS.for_upto n (length pre) (fun i out => <[i := f i]> out) (pre ++ replicate n d)
  = pre ++ map f (seq (length pre) n).
Proof.
  revert pre. induction n as [|n IH]; intros pre; simpl.
  - reflexivity.
  - replace (<[length pre := f (length pre)]> (pre ++ d :: replicate n d))
      with ((pre ++ [f (length pre)]) ++ replicate n d).
    + replace (S (length pre)) with (length (pre ++ [f (length pre)])).
      * rewrite IH. rewrite <- app_assoc. simpl.
        rewrite length_app. simpl. rewrite Nat.add_1_r. reflexivity.
      * rewrite length_app. simpl. lia.
    + rewrite <- app_assoc. simpl.
      rewrite <- (Nat.add_0_r (length pre)) at 2.
      rewrite insert_app_r. reflexivity.
Qed.

Lemma for_upto_fill {A : Type} (f : nat -> A) (d : A) (n : nat) :
  JS.for_upto n 0 (fun i out => <[i := f i]> out) (replicate n d) = map f (seq 0 n).
Proof. exact (for_upto_fill_from f d n []). Qed.

Lemma typed_set_fill (done c : list Z) (k : nat) :
  typed_set (done ++ replicate (length c + k) 0) c (length done)
  = Some ((done ++ c) ++ replicate k 0).
Proof.
  unfold typed_set.
  rewrite length_app, length_replicate.
  destruct (Nat.leb_spec (length done + length c) (length done + (length c + k)));
    [|lia].
  rewrite take_app_length.
  rewrite drop_app_add, drop_replicate_add, <- app_assoc. reflexivity.
Qed.

Lemma total_length (chunks : list (list Z)) (acc : nat) :
  foldl (fun total c => (total + length c)%nat) acc chunks
  = (acc + length (concat chunks))%nat.
Proof.
  revert acc. induction chunks as [|c chunks IH]; intros acc; simpl.
  - lia.
  - rewrite IH, length_app. lia.
Qed.

Lemma merge_loop (chunks : list (list Z)) (done : list Z) :
  for_of (fun '(result, offset) c =>
            result ← typed_set result c offset;
            Some (result, (offset + length c)%nat))
         (done ++ replicate (length (concat chunks)) 0, length done) chunks
  = Some (done ++ concat chunks, (length done + length (concat chunks))%nat).
Proof.
  revert done. induction chunks as [|c chunks IH]; intros done; simpl.
  - rewrite app_nil_r, Nat.add_0_r. reflexivity.
  - rewrite length_app, typed_set_fill. simpl.
    replace (length done + length c)%nat with (length (done ++ c))
      by (rewrite length_app; reflexivity).
    rewrite IH. rewrite <- app_assoc, !length_app. f_equal. f_equal. lia.
Qed.

(** Merging returns the concatenation of the chunks, in order. *)
Lemma mergeChunks_concat (chunks : list (list Z)) :
  Worklet.mergeChunks chunks = Some (concat chunks).
Proof.
  unfold Worklet.mergeChunks.
  rewrite total_length. simpl.
  pose proof (merge_loop chunks []) as H. simpl in H. rewrite H. reflexivity.
Qed.

Lemma Controller_mergeChunks_concat (chunks : list (list Z)) :
  Controller.mergeChunks chunks = Some (concat chunks).
Proof. exact (mergeChunks_concat chunks). Qed.

(** ** DataView writes that stay inside a prefix of the buffer *)

Lemma setUint8_prefix (h t : list Z) (off : nat) (v : Z) :
  (off + 1 <= length h)%nat ->
  DataView.setUint8 (h ++ t) off v = Some (<[off := DataView.byte v 0]> h ++ t).
Proof.
  intros Hoff. unfold DataView.setUint8. rewrite length_app.
  destruct (Nat.leb_spec (off + 1) (length h + length t)); [|lia].
  rewrite insert_app_l by lia. reflexivity.
Qed.

Lemma setUint16_prefix (h t : list Z) (off : nat) (v : Z) :
  (off + 2 <= length h)%nat ->
  DataView.setUint16 (h ++ t) off v
  = Some (<[(off + 1)%nat := DataView.byte v 1]> (<[off := DataView.byte v 0]> h) ++ t).
Proof.
  intros Hoff. unfold DataView.setUint16. rewrite length_app.
  destruct (Nat.leb_spec (off + 2) (length h + length t)); [|lia].
  rewrite !insert_app_l by (rewrite ?length_insert; lia). reflexivity.
Qed.

Lemma setUint32_prefix (h t : list Z) (off : nat) (v : Z) :
  (off + 4 <= length h)%nat ->
  DataView.setUint32 (h ++ t) off v
  = Some (<[(off + 3)%nat := DataView.byte v 3]> (<[(off + 2)%nat := DataView.byte v 2]>
         (<[(off + 1)%nat := DataView.byte v 1]> (<[off := DataView.byte v 0]> h))) ++ t).
Proof.
  intros Hoff. unfold DataView.setUint32. rewrite length_app.
  destruct (Nat.leb_spec (off + 4) (length h + length t)); [|lia].
  rewrite !insert_app_l by (rewrite ?length_insert; lia). reflexivity.
Qed.

Lemma write4_prefix (h t : list Z) (off : nat) (c0 c1 c2 c3 : ascii) :
  (off + 4 <= length h)%nat ->
  Worklet.write (h ++ t) off (String c0 (String c1 (String c2 (String c3 EmptyString))))
  = Some (<[(off + 3)%nat := DataView.byte (Z.of_nat (nat_of_ascii c3)) 0]>
         (<[(off + 2)%nat := DataView.byte (Z.of_nat (nat_of_ascii c2)) 0]>
         (<[(off + 1)%nat := DataView.byte (Z.of_nat (nat_of_ascii c1)) 0]>
         (<[(off + 0)%nat := DataView.byte (Z.of_nat (nat_of_ascii c0)) 0]> h))) ++ t).
Proof.
  intros Hoff. unfold Worklet.write. cbn [String.length JS.for_range].
  rewrite setUint8_prefix by lia. cbn [mbind option_bind].
  rewrite setUint8_prefix by (rewrite ?length_insert; lia). cbn [mbind option_bind].
  rewrite setUint8_prefix by (rewrite ?length_insert; lia). cbn [mbind option_bind].
  rewrite setUint8_prefix by (rewrite ?length_insert; lia). cbn [mbind option_bind].
  reflexivity.
Qed.

Lemma setInt16_next (pre rest : list Z) (b0 b1 : Z) (v : Z) :
  DataView.setInt16 (pre ++ b0 :: b1 :: rest) (length pre) v
  = Some ((pre ++ le16 (v mod 65536)) ++ rest).
Proof.
  unfold DataView.setInt16, DataView.setUint16. rewrite length_app. simpl.
  destruct (Nat.leb_spec (length pre + 2) (length pre + S (S (length rest)))); [|lia].
  rewrite (insert_app_r_alt pre _ (length pre)) by lia.
  rewrite (insert_app_r_alt pre _ (length pre + 1)) by lia.
  replace (length pre - length pre)%nat with 0%nat by lia.
  replace (length pre + 1 - length pre)%nat with 1%nat by lia.
  rewrite <- app_assoc. reflexivity.
Qed.

Lemma sample_loop (samples : list Z) (pre : list Z) :
  for_of (fun '(view, offset) sample =>
            view ← DataView.setInt16 view offset sample;
            Some (view, (offset + 2)%nat))
         (pre ++ replicate (length samples * 2) 0, length pre) samples
  = Some (pre ++ wav_data samples, (length pre + length samples * 2)%nat).
Proof.
  revert pre. induction samples as [|s samples IH]; intros pre.
  - simpl. rewrite app_nil_r, Nat.add_0_r. reflexivity.
  - cbn [for_of length Nat.mul Nat.add replicate].
    rewrite setInt16_next. cbn [mbind option_bind].
    replace (length pre + 2)%nat with (length (pre ++ le16 (s mod 65536)))
      by (rewrite length_app; reflexivity).
    rewrite IH. unfold wav_data. cbn [flat_map].
    rewrite <- app_assoc, length_app. cbn [length le16]. f_equal. f_equal. lia.
Qed.

(** The encoder always succeeds and its output is the header followed by
    the payload. *)
Lemma buildWav_bytes (samples : list Z) :
  Worklet.buildWav samples = Some (wav_header (length samples) ++ wav_data samples).
Proof.
  unfold Worklet.buildWav, DataView.alloc.
  rewrite replicate_add.
  rewrite write4_prefix by (rewrite ?length_insert, length_replicate; lia).
  cbn [mbind option_bind].
  repeat first
    [ rewrite write4_prefix by (rewrite ?length_insert, length_replicate; lia)
    | rewrite setUint32_prefix by (rewrite ?length_insert, length_replicate; lia)
    | rewrite setUint16_prefix by (rewrite ?length_insert, length_replicate; lia)
    | progress cbn [mbind option_bind] ].
  match goal with
  | |- context [for_of _ (?h ++ _, 44%nat) _] =>
      change h with (wav_header (length samples))
  end.
  change 44%nat with (length (wav_header (length samples))).
  rewrite sample_loop. reflexivity.
Qed.

Lemma encode_eq_buildWav (samples : list Z) :
  Controller.encode samples = Worklet.buildWav samples.
Proof.
  unfold Controller.encode, Worklet.buildWav, Controller.writeString, Worklet.write.
  rewrite Nat2Z.inj_mul. reflexivity.
Qed.

Lemma wav_data_length (samples : list Z) :
  length (wav_data samples) = (length samples * 2)%nat.
Proof.
  induction samples as [|s samples IH]; simpl; [reflexivity|].
  rewrite IH. reflexivity.
Qed.

(** Little-endian fields read back as the value written. *)
Lemma byte_range (v k : Z) : 0 <= DataView.byte v k < 256.
Proof. unfold DataView.byte. apply Z.mod_pos_bound. lia. Qed.

Lemma le16_value (v : Z) :
  0 <= v < 65536 -> DataView.byte v 0 + 256 * DataView.byte v 1 = v.
Proof.
  intros Hv. unfold DataView.byte.
  change (2 ^ (8 * 0)) with 1. change (2 ^ (8 * 1)) with 256.
  rewrite Z.div_1_r.
  rewrite (Z.mod_small (v / 256)) by (split; [apply Z.div_pos; lia | apply Z.div_lt_upper_bound; lia]).
  pose proof (Z.div_mod v 256). lia.
Qed.

Lemma le32_value (v : Z) :
  0 <= v < 4294967296 ->
  DataView.byte v 0 + 256 * DataView.byte v 1
  + 65536 * (DataView.byte v 2 + 256 * DataView.byte v 3) = v.
Proof.
  intros Hv. unfold DataView.byte.
  change (2 ^ (8 * 0)) with 1. change (2 ^ (8 * 1)) with 256.
  change (2 ^ (8 * 2)) with 65536. change (2 ^ (8 * 3)) with 16777216.
  rewrite Z.div_1_r.
  rewrite (Z.mod_small (v / 16777216))
    by (split; [apply Z.div_pos; lia | apply Z.div_lt_upper_bound; lia]).
  pose proof (Z.div_mod v 256 ltac:(lia)).
  pose proof (Z.div_mod (v / 256) 256 ltac:(lia)).
  pose proof (Z.div_mod (v / 65536) 256 ltac:(lia)).
  replace (v / 256 / 256) with (v / 65536) in * by (rewrite Z.div_div by lia; reflexivity).
  replace (v / 65536 / 256) with (v / 16777216) in * by (rewrite Z.div_div by lia; reflexivity).
  lia.
Qed.


(** ** C5: layout of the WAV header *)

(** C5. For every PCM16 sample buffer whose container size fits the 32-bit
    RIFF size field, both encoders ([buildWav] of main.js and
    [WavEncoder.encode]) return a buffer of 44 + 2 * sampleCount bytes
    whose header reads, little-endian: "RIFF" at 0, chunkSize = 36 + N at 4,
    "WAVE" at 8, "fmt " at 12, subchunk1Size = 16 at 16, audioFormat = 1 at
    20, numChannels = 1 at 22, sampleRate = 16000 at 24, byteRate = 32000 at
    28, blockAlign = 2 at 32, bitsPerSample = 16 at 34, "data" at 36 and
    dataSize = N = 2 * sampleCount at 40. *)
Theorem C5_wav_header_layout (samples : list Z)
    (Hfit : 36 + Z.of_nat (length samples) * 2 < 2 ^ 32) :
  exists bytes : list Z,
    Worklet.buildWav samples = Some bytes
    /\ Controller.encode samples = Some bytes
    /\ length bytes = (44 + length samples * 2)%nat
    /\ WavReader.tag bytes 0 = WavReader.codes "RIFF"
    /\ WavReader.getUint32 bytes 4 = 36 + Z.of_nat (length samples) * 2
    /\ WavReader.tag bytes 8 = WavReader.codes "WAVE"
    /\ WavReader.tag bytes 12 = WavReader.codes "fmt "
    /\ WavReader.getUint32 bytes 16 = 16
    /\ WavReader.getUint16 bytes 20 = 1
    /\ WavReader.getUint16 bytes 22 = 1
    /\ WavReader.getUint32 bytes 24 = 16000
    /\ WavReader.getUint32 bytes 28 = 32000
    /\ WavReader.getUint16 bytes 32 = 2
    /\ WavReader.getUint16 bytes 34 = 16
    /\ WavReader.tag bytes 36 = WavReader.codes "data"
    /\ WavReader.getUint32 bytes 40 = Z.of_nat (length samples) * 2.
Proof.
  exists (wav_header (length samples) ++ wav_data samples).
  split; [apply buildWav_bytes|].
  split; [rewrite encode_eq_buildWav; apply buildWav_bytes|].
  split; [rewrite length_app, wav_data_length; reflexivity|].
  assert (H32 : 0 <= 36 + Z.of_nat (length samples) * 2 < 4294967296)
    by (change (2 ^ 32) with 4294967296 in Hfit; lia).
  assert (HN : 0 <= Z.of_nat (length samples) * 2 < 4294967296) by lia.
  repeat split; try reflexivity.
  - exact (le32_value _ H32).
  - exact (le32_value _ HN).
Qed.

Lemma C5_wav_header_layout_witness :
  exists bytes : list Z,
    Worklet.buildWav [] = Some bytes
    /\ Controller.encode [] = Some bytes
    /\ length bytes = 44%nat
    /\ WavReader.tag bytes 0 = WavReader.codes "RIFF"
    /\ WavReader.getUint32 bytes 4 = 36
    /\ WavReader.tag bytes 8 = WavReader.codes "WAVE"
    /\ WavReader.tag bytes 12 = WavReader.codes "fmt "
    /\ WavReader.getUint32 bytes 16 = 16
    /\ WavReader.getUint16 bytes 20 = 1
    /\ WavReader.getUint16 bytes 22 = 1
    /\ WavReader.getUint32 bytes 24 = 16000
    /\ WavReader.getUint32 bytes 28 = 32000
    /\ WavReader.getUint16 bytes 32 = 2
    /\ WavReader.getUint16 bytes 34 = 16
    /\ WavReader.tag bytes 36 = WavReader.codes "data"
    /\ WavReader.getUint32 bytes 40 = 0.
Proof.
  apply (C5_wav_header_layout []). vm_compute. reflexivity.
Defined.

(** ** C6: encode then decode *)

Lemma to_signed16_wrap (v : Z) :
  is_int16 v -> WavReader.to_signed16 (v mod 65536) = v.
Proof.
  unfold is_int16, WavReader.to_signed16. intros Hv.
  destruct (Z.ltb_spec (v mod 65536) 32768) as [Hlt|Hge].
  - destruct (Z.leb_spec 0 v) as [Hpos|Hneg].
    + apply Z.mod_small. lia.
    + rewrite <- (Z.mod_add v 1 65536) in Hlt by lia.
      rewrite Z.mod_small in Hlt by lia. lia.
  - destruct (Z.leb_spec 0 v) as [Hpos|Hneg].
    + rewrite Z.mod_small in Hge by lia. lia.
    + rewrite <- (Z.mod_add v 1 65536) by lia.
      rewrite Z.mod_small by lia. lia.
Qed.

Lemma read_samples_wav_data (samples : list Z) :
  Forall is_int16 samples -> WavReader.read_samples (wav_data samples) = samples.
Proof.
  induction 1 as [|s samples Hs _ IH]; [reflexivity|].
  unfold wav_data in *. cbn [flat_map le16 app WavReader.read_samples].
  rewrite IH. f_equal.
  rewrite le16_value by (apply Z.mod_pos_bound; lia).
  apply to_signed16_wrap, Hs.
Qed.

Lemma Forall_concat_int16 (blocks : list (list Z)) :
  Forall (Forall is_int16) blocks -> Forall is_int16 (concat blocks).
Proof.
  induction 1 as [|b blocks Hb _ IH]; simpl; [constructor|].
  apply Forall_app. split; assumption.
Qed.

(** C6. For every list of PCM16 blocks whose container fits the 32-bit
    size fields, merging the blocks, encoding the result and reading the
    container back recovers sampleRate = 16000, channels = 1, bitDepth = 16,
    dataSize = 2 * (total sample count), and a sample sequence identical to
    the concatenation of the blocks in the order they were appended. *)
Theorem C6_encode_decode_roundtrip (blocks : list (list Z))
    (Hblocks : Forall (Forall is_int16) blocks)
    (Hfit : 36 + Z.of_nat (length (concat blocks)) * 2 < 2 ^ 32) :
  exists (merged bytes : list Z),
    Worklet.mergeChunks blocks = Some merged
    /\ Worklet.buildWav merged = Some bytes
    /\ WavReader.sampleRate (WavReader.decode bytes) = 16000
    /\ WavReader.channels (WavReader.decode bytes) = 1
    /\ WavReader.bitDepth (WavReader.decode bytes) = 16
    /\ WavReader.dataSize (WavReader.decode bytes)
       = 2 * Z.of_nat (length (concat blocks))
    /\ WavReader.samples (WavReader.decode bytes) = concat blocks.
Proof.
  exists (concat blocks), (wav_header (length (concat blocks)) ++ wav_data (concat blocks)).
  split; [apply mergeChunks_concat|].
  split; [apply buildWav_bytes|].
  assert (HN : 0 <= Z.of_nat (length (concat blocks)) * 2 < 4294967296)
    by (change (2 ^ 32) with 4294967296 in Hfit; lia).
  repeat split; try reflexivity.
  - cbn [WavReader.decode WavReader.dataSize].
    transitivity (Z.of_nat (length (concat blocks)) * 2); [|lia].
    exact (le32_value _ HN).
  - cbn [WavReader.decode WavReader.samples].
    rewrite drop_app_length' by reflexivity.
    apply read_samples_wav_data, Forall_concat_int16, Hblocks.
Qed.

Lemma C6_encode_decode_roundtrip_witness :
  exists (merged bytes : list Z),
    Worklet.mergeChunks [[1; -2]; []; [32767; -32768; 0]] = Some merged
    /\ Worklet.buildWav merged = Some bytes
    /\ WavReader.sampleRate (WavReader.decode bytes) = 16000
    /\ WavReader.channels (WavReader.decode bytes) = 1
    /\ WavReader.bitDepth (WavReader.decode bytes) = 16
    /\ WavReader.dataSize (WavReader.decode bytes) = 10
    /\ WavReader.samples (WavReader.decode bytes) = [1; -2; 32767; -32768; 0].
Proof.
  apply (C6_encode_decode_roundtrip [[1; -2]; []; [32767; -32768; 0]]).
  - repeat constructor; unfold is_int16; lia.
  - vm_compute. reflexivity.
Defined.

(** ** C9: finalizing an empty timeline *)

Lemma ToIndex_floor_zero_div (ratio : JS.number) :
  JS.ToIndex (JS.Math_floor (JS.div (JS.of_nat 0) ratio)) = Some 0%nat.
Proof. destruct ratio as [s|s| |s m e]; reflexivity. Qed.

(** C9. Finalizing with an empty timeline is not an error: merging zero
    chunks gives a zero-length buffer, encoding it gives a 44-byte
    container whose dataSize field is 0, and [stop] succeeds with that
    container; on an empty input the resamplers (at any source and target
    rate), the quantizer and the encoders return an empty or zero-length
    result rather than throwing. *)
Theorem C9_empty_timeline :
  Worklet.mergeChunks [] = Some []
  /\ Controller.mergeChunks [] = Some []
  /\ Worklet.buildWav [] = Some (wav_header 0)
  /\ Controller.encode [] = Some (wav_header 0)
  /\ length (wav_header 0) = 44%nat
  /\ WavReader.getUint32 (wav_header 0) 40 = 0
  /\ (forall st, Worklet.chunks st = [] ->
        exists st', Worklet.stop st = Some st'
                    /\ Worklet.wavResult st' = Some (wav_header 0))
  /\ (forall st, Controller.recordedChunks st = [] ->
        exists st', Controller.stop st = Some st'
                    /\ Controller.finalWavBuffer st' = Some (wav_header 0))
  /\ (forall st, Worker.recordedChunks st = [] ->
        snd (Worker.onmessage st Worker.Finish) = Some (wav_header 0))
  /\ (forall rate, Worklet.downsampleTo16k [] rate = Some [])
  /\ (forall rate, Controller.downsample [] rate = Some [])
  /\ (forall sourceRate targetRate,
        Worker.downsample [] sourceRate targetRate = Some [])
  /\ Worker.float32ToInt16 [] = [].
Proof.
  repeat split; try reflexivity.
  - intros st Hst. unfold Worklet.stop. rewrite Hst. eexists. split; reflexivity.
  - intros st Hst. unfold Controller.stop. rewrite Hst. eexists. split; reflexivity.
  - intros st Hst. unfold Worker.onmessage. rewrite Hst. reflexivity.
  - intros rate. unfold Worklet.downsampleTo16k. cbn [length].
    rewrite ToIndex_floor_zero_div. reflexivity.
  - intros rate. unfold Controller.downsample. cbn [length].
    rewrite ToIndex_floor_zero_div. reflexivity.
  - intros sourceRate targetRate. unfold Worker.downsample. cbn [length].
    rewrite ToIndex_floor_zero_div. reflexivity.
Qed.

(** ** C10: the two silence tests on an empty block *)

(** C10. On the empty block the exact-zero tests ([isSilent],
    [isAbsolutelySilent], [isAbsolutelySilentFloat32]) answer true, while
    the RMS tests ([isSilentFrame], [isBelowThreshold],
    [isBelowThresholdFloat32]) divide the zero sum of squares by the
    length 0, obtain NaN, and answer false because NaN < threshold is
    false. *)
Theorem C10_empty_block_disagreement :
  Worklet.isSilent [] = true
  /\ Controller.isAbsolutelySilent [] = true
  /\ Offload.isAbsolutelySilentFloat32 [] = true
  /\ JS.div JS.zero (JS.of_nat (length (@nil Z))) = JS.NaN
  /\ JS.sqrt JS.NaN = JS.NaN
  /\ JS.ltb JS.NaN (JS.of_Z 25) = false
  /\ Worklet.isSilentFrame [] = false
  /\ Controller.isBelowThreshold [] = false
  /\ Offload.isBelowThresholdFloat32 [] = false.
Proof. repeat split; reflexivity. Qed.

(** ** C1, C2: silence gating of the capture handlers *)

Lemma Controller_fold_ungated (flag : bool) (rate : JS.number)
    (blocks : list (list JS.number)) (st : Controller.state) :
  Controller.audioContext st = Some rate ->
  flag = false \/ Controller.recordedChunks st <> [] ->
  Controller.recordedChunks (foldl (Controller.onaudioprocess flag) st blocks)
  = Controller.recordedChunks st
    ++ omap (fun b => Controller.downsample b rate) blocks.
Proof.
  revert st. induction blocks as [|b blocks IH]; intros st Hctx Hgate.
  - simpl. rewrite app_nil_r. reflexivity.
  - cbn [foldl omap list_omap].
    unfold Controller.onaudioprocess at 2. rewrite Hctx.
    destruct (Controller.downsample b rate) as [pcm16|] eqn:Hds.
    + assert (Hoff : flag && (length (Controller.recordedChunks st) =? 0)%nat
                     && (Controller.isAbsolutelySilent pcm16
                         || Controller.isBelowThreshold pcm16) = false).
      { destruct Hgate as [-> | Hne]; [reflexivity|].
        destruct (Controller.recordedChunks st); [congruence|].
        simpl. rewrite andb_false_r. reflexivity. }
      rewrite Hoff. rewrite IH.
      * cbn [Controller.recordedChunks]. rewrite <- app_assoc. reflexivity.
      * reflexivity.
      * right. cbn [Controller.recordedChunks].
        destruct (Controller.recordedChunks st); discriminate.
    + apply IH; assumption.
Qed.

Lemma Controller_fold_leading (rate : JS.number)
    (blocks : list (list JS.number)) (st : Controller.state) :
  Controller.audioContext st = Some rate ->
  Controller.recordedChunks st = [] ->
  Controller.recordedChunks (foldl (Controller.onaudioprocess true) st blocks)
  = omap (fun b => Controller.downsample b rate)
         (drop_leading (Controller_leading rate) blocks).
Proof.
  revert st. induction blocks as [|b blocks IH]; intros st Hctx Hempty.
  - exact Hempty.
  - cbn [foldl drop_leading].
    unfold Controller.onaudioprocess at 2, Controller_leading.
    rewrite Hctx, Hempty.
    destruct (Controller.downsample b rate) as [pcm16|] eqn:Hds.
    + cbn [length Nat.eqb andb].
      destruct (Controller.isAbsolutelySilent pcm16 || Controller.isBelowThreshold pcm16).
      * apply IH; assumption.
      * rewrite (Controller_fold_ungated true rate); [| reflexivity | right; discriminate].
        cbn [Controller.recordedChunks app omap list_omap]. rewrite Hds. reflexivity.
    + apply IH; assumption.
Qed.

Lemma Controller_record_gated (rate : JS.number) (blocks : list (list JS.number)) :
  Controller.record true rate blocks
  = omap (fun b => Controller.downsample b rate)
         (drop_leading (Controller_leading rate) blocks).
Proof. apply Controller_fold_leading; reflexivity. Qed.

Lemma Controller_record_ungated (rate : JS.number) (blocks : list (list JS.number)) :
  Controller.record false rate blocks
  = omap (fun b => Controller.downsample b rate) blocks.
Proof.
  unfold Controller.record.
  rewrite (Controller_fold_ungated false rate); [reflexivity | reflexivity | left; reflexivity].
Qed.

Lemma Worker_process_chunks (st : Worker.state) (buffer : list JS.number) :
  let st' := fst (Worker.onmessage st (Worker.Process buffer)) in
  Worker.recordedChunks st'
  = Worker.recordedChunks st
    ++ match Worker_convert st buffer with Some c => [c] | None => [] end
  /\ Worker.sourceSampleRate st' = Worker.sourceSampleRate st
  /\ Worker.needsDownsampling st' = Worker.needsDownsampling st.
Proof.
  unfold Worker.onmessage, Worker_convert.
  destruct (Worker.needsDownsampling st) eqn:Hnd.
  - destruct (Worker.downsample buffer _ _); cbn;
      rewrite ?app_nil_r; repeat split; auto.
  - cbn. repeat split; auto.
Qed.

Lemma Worker_convert_ext (st1 st2 : Worker.state) (buffer : list JS.number) :
  Worker.sourceSampleRate st1 = Worker.sourceSampleRate st2 ->
  Worker.needsDownsampling st1 = Worker.needsDownsampling st2 ->
  Worker_convert st1 buffer = Worker_convert st2 buffer.
Proof. unfold Worker_convert. intros -> ->. reflexivity. Qed.

Lemma Offload_fold_ungated (flag : bool) (blocks : list (list JS.number))
    (st : Offload.state) (w0 : Worker.state) :
  Offload.audioContext st <> None ->
  flag = false \/ Offload.hasRecordedAudio st = true ->
  Worker.sourceSampleRate (Offload.audioWorker st) = Worker.sourceSampleRate w0 ->
  Worker.needsDownsampling (Offload.audioWorker st) = Worker.needsDownsampling w0 ->
  Worker.recordedChunks
    (Offload.audioWorker (foldl (Offload.onaudioprocess flag) st blocks))
  = Worker.recordedChunks (Offload.audioWorker st)
    ++ omap (Worker_convert w0) blocks.
Proof.
  revert st. induction blocks as [|b blocks IH]; intros st Hctx Hgate Hsr Hnd.
  - simpl. rewrite app_nil_r. reflexivity.
  - cbn [foldl omap list_omap].
    destruct (Worker_process_chunks (Offload.audioWorker st) b) as (Hc & Hsr' & Hnd').
    cbn zeta in Hc, Hsr', Hnd'.
    rewrite (Worker_convert_ext _ w0 b Hsr Hnd) in Hc.
    assert (Hstep : Offload.onaudioprocess flag st b
                    = {| Offload.audioContext := Offload.audioContext st;
                         Offload.hasRecordedAudio := Offload.hasRecordedAudio st;
                         Offload.audioWorker :=
                           fst (Worker.onmessage (Offload.audioWorker st)
                                  (Worker.Process b)) |}).
    { unfold Offload.onaudioprocess.
      destruct (Offload.audioContext st); [|congruence].
      destruct Hgate as [-> | ->]; [reflexivity|].
      rewrite andb_false_r. reflexivity. }
    rewrite Hstep, IH.
    + cbn [Offload.audioWorker]. rewrite Hc, <- app_assoc.
      destruct (Worker_convert w0 b); reflexivity.
    + exact Hctx.
    + exact Hgate.
    + cbn [Offload.audioWorker]. congruence.
    + cbn [Offload.audioWorker]. congruence.
Qed.

Lemma Offload_fold_leading (blocks : list (list JS.number))
    (st : Offload.state) (w0 : Worker.state) :
  Offload.audioContext st <> None ->
  Offload.hasRecordedAudio st = false ->
  Worker.sourceSampleRate (Offload.audioWorker st) = Worker.sourceSampleRate w0 ->
  Worker.needsDownsampling (Offload.audioWorker st) = Worker.needsDownsampling w0 ->
  Worker.recordedChunks
    (Offload.audioWorker (foldl (Offload.onaudioprocess true) st blocks))
  = Worker.recordedChunks (Offload.audioWorker st)
    ++ omap (Worker_convert w0) (drop_leading Offload_leading blocks).
Proof.
  revert st. induction blocks as [|b blocks IH]; intros st Hctx Hrec Hsr Hnd.
  - simpl. rewrite app_nil_r. reflexivity.
  - cbn [foldl drop_leading]. unfold Offload_leading at 1.
    destruct (Offload.isAbsolutelySilentFloat32 b || Offload.isBelowThresholdFloat32 b)
      eqn:Hsil.
    + assert (Hstep : Offload.onaudioprocess true st b = st).
      { unfold Offload.onaudioprocess.
        destruct (Offload.audioContext st); [|reflexivity].
        rewrite Hrec, Hsil. reflexivity. }
      rewrite Hstep. apply IH; assumption.
    + destruct (Worker_process_chunks (Offload.audioWorker st) b) as (Hc & Hsr' & Hnd').
      cbn zeta in Hc, Hsr', Hnd'.
      rewrite (Worker_convert_ext _ w0 b Hsr Hnd) in Hc.
      assert (Hstep : Offload.onaudioprocess true st b
                      = {| Offload.audioContext := Offload.audioContext st;
                           Offload.hasRecordedAudio := true;
                           Offload.audioWorker :=
                             fst (Worker.onmessage (Offload.audioWorker st)
                                    (Worker.Process b)) |}).
      { unfold Offload.onaudioprocess.
        destruct (Offload.audioContext st); [|congruence].
        rewrite Hrec, Hsil. reflexivity. }
      rewrite Hstep, (Offload_fold_ungated true blocks _ w0).
      * cbn [Offload.audioWorker omap list_omap]. rewrite Hc, <- app_assoc.
        destruct (Worker_convert w0 b); reflexivity.
      * exact Hctx.
      * right. reflexivity.
      * cbn [Offload.audioWorker]. congruence.
      * cbn [Offload.audioWorker]. congruence.
Qed.

Lemma Offload_record_gated (rate : JS.number) (blocks : list (list JS.number)) :
  Offload.record true rate blocks
  = omap (Worker_convert (Offload.audioWorker (Offload.start rate)))
         (drop_leading Offload_leading blocks).
Proof.
  unfold Offload.record.
  rewrite (Offload_fold_leading blocks _ (Offload.audioWorker (Offload.start rate)));
    try reflexivity.
  discriminate.
Qed.

Lemma Offload_record_ungated (rate : JS.number) (blocks : list (list JS.number)) :
  Offload.record false rate blocks
  = omap (Worker_convert (Offload.audioWorker (Offload.start rate))) blocks.
Proof.
  unfold Offload.record.
  rewrite (Offload_fold_ungated false blocks _ (Offload.audioWorker (Offload.start rate)));
    try reflexivity.
  - discriminate.
  - left. reflexivity.
Qed.

(** Recording at 16 kHz the worker does not resample: every posted block
    is quantized and appended. *)
Lemma Offload_convert_16k (blocks : list (list JS.number)) :
  omap (Worker_convert (Offload.audioWorker (Offload.start rate16k))) blocks
  = map Worker.float32ToInt16 blocks.
Proof.
  induction blocks as [|b blocks IH]; [reflexivity|].
  cbn [omap list_omap map]. rewrite <- IH. reflexivity.
Qed.

(** The worklet handler never retains a block that its RMS test calls
    silent, whatever the flag. *)
Lemma Worklet_fold_rms_gated (flag : bool) (blocks : list (list JS.number))
    (st : Worklet.state) :
  Forall (fun pcm16 => Worklet.isSilentFrame pcm16 = false) (Worklet.chunks st) ->
  Forall (fun pcm16 => Worklet.isSilentFrame pcm16 = false)
         (Worklet.chunks (foldl (Worklet.onmessage flag) st blocks)).
Proof.
  revert st. induction blocks as [|b blocks IH]; intros st Hst; [exact Hst|].
  cbn [foldl]. apply IH.
  unfold Worklet.onmessage.
  destruct (Worklet.audioCtx st); [|exact Hst].
  destruct (Worklet.downsampleTo16k b n) as [pcm16|]; [|exact Hst].
  destruct (flag && (length (Worklet.chunks st) =? 0)%nat && Worklet.isSilent pcm16);
    [exact Hst|].
  destruct (Worklet.isSilentFrame pcm16) eqn:Hrms; [exact Hst|].
  cbn [Worklet.chunks]. apply Forall_app. split; [exact Hst|].
  constructor; [exact Hrms | constructor].
Qed.

Lemma session_pcm :
  Worklet.downsampleTo16k zero_block rate48k = Some zero_pcm
  /\ Worklet.downsampleTo16k loud_block rate48k = Some loud_pcm
  /\ Controller.downsample zero_block rate48k = Some zero_pcm
  /\ Controller.downsample loud_block rate48k = Some loud_pcm.
Proof. vm_compute. repeat split. Qed.

(** C1, as stated, fails on the worklet handler of main.js: with
    removeSilence enabled the input [zero, zero, loud, zero] accumulates
    [loud] only, because the trailing silent block is dropped by the RMS
    test that the handler applies to every block. *)
Lemma C1_worklet_counterexample :
  Worklet.record true rate48k session = [loud_pcm]
  /\ Worklet.record true rate48k session <> [loud_pcm; zero_pcm].
Proof. vm_compute. split; [reflexivity | discriminate]. Qed.

(** C1, amended. In the two [RecordingController] handlers (script
    processor and worker-offloaded), with removeLeadingSilence enabled the
    timeline is the converted input minus its maximal prefix of silent
    blocks: blocks are dropped only before the first accepted block and
    every later block is appended, silent or not; for [zero, zero, loud,
    zero] the timeline is exactly [loud, zero]. The worklet handler of
    main.js never retains a block whose RMS is below the threshold, so for
    the same input its timeline is [loud]. *)
Theorem C1_leading_silence_trim :
  (forall rate blocks,
      Controller.record true rate blocks
      = omap (fun b => Controller.downsample b rate)
             (drop_leading (Controller_leading rate) blocks))
  /\ (forall rate blocks,
        Offload.record true rate blocks
        = omap (Worker_convert (Offload.audioWorker (Offload.start rate)))
               (drop_leading Offload_leading blocks))
  /\ Controller.record true rate48k session = [loud_pcm; zero_pcm]
  /\ Offload.record true rate48k session = [loud_pcm; zero_pcm]
  /\ Offload.record true rate16k session = [loud_pcm16k; zero_pcm16k]
  /\ (forall flag rate blocks,
        Forall (fun pcm16 => Worklet.isSilentFrame pcm16 = false)
               (Worklet.record flag rate blocks))
  /\ Worklet.record true rate48k session = [loud_pcm].
Proof.
  split; [exact Controller_record_gated|].
  split; [exact Offload_record_gated|].
  split; [vm_compute; reflexivity|].
  split; [vm_compute; reflexivity|].
  split; [vm_compute; reflexivity|].
  split; [|vm_compute; reflexivity].
  intros flag rate blocks. apply Worklet_fold_rms_gated. constructor.
Qed.

(** C2, as stated, fails on the worklet handler of main.js: with
    removeSilence disabled the input [zero, zero, loud, zero] still
    accumulates [loud] only. *)
Lemma C2_worklet_counterexample :
  Worklet.record false rate48k session = [loud_pcm]
  /\ Worklet.record false rate48k session
     <> [zero_pcm; zero_pcm; loud_pcm; zero_pcm].
Proof. vm_compute. split; [reflexivity | discriminate]. Qed.

(** C2, amended. In the two [RecordingController] handlers, with
    removeLeadingSilence disabled no silence test is applied: every block
    is converted and appended in order (at 16 kHz the worker appends the
    quantized form of every block), and [zero, zero, loud, zero] yields
    all four blocks. The worklet handler of main.js applies its RMS test
    whatever the flag, so there the same input yields [loud]. *)
Theorem C2_gating_disabled :
  (forall rate blocks,
      Controller.record false rate blocks
      = omap (fun b => Controller.downsample b rate) blocks)
  /\ (forall rate blocks,
        Offload.record false rate blocks
        = omap (Worker_convert (Offload.audioWorker (Offload.start rate))) blocks)
  /\ (forall blocks,
        Offload.record false rate16k blocks = map Worker.float32ToInt16 blocks)
  /\ Controller.record false rate48k session
     = [zero_pcm; zero_pcm; loud_pcm; zero_pcm]
  /\ Offload.record false rate48k session
     = [zero_pcm; zero_pcm; loud_pcm; zero_pcm]
  /\ Offload.record false rate16k session
     = [zero_pcm16k; zero_pcm16k; loud_pcm16k; zero_pcm16k]
  /\ (forall rate blocks,
        Forall (fun pcm16 => Worklet.isSilentFrame pcm16 = false)
               (Worklet.record false rate blocks))
  /\ Worklet.record false rate48k session = [loud_pcm].
Proof.
  split; [exact Controller_record_ungated|].
  split; [exact Offload_record_ungated|].
  split; [intros blocks; rewrite Offload_record_ungated; apply Offload_convert_16k|].
  split; [vm_compute; reflexivity|].
  split; [vm_compute; reflexivity|].
  split; [vm_compute; reflexivity|].
  split; [|vm_compute; reflexivity].
  intros rate blocks. apply Worklet_fold_rms_gated. constructor.
Qed.

(** ** Binary64 arithmetic: exact operations *)

Lemma digits2_pos_size (p : positive) : digits2_pos p = Pos.size p.
Proof. induction p; simpl; congruence. Qed.

Lemma digits2_pos_lt (p : positive) : Zpos p < 2 ^ Zpos (digits2_pos p).
Proof.
  rewrite digits2_pos_size.
  pose proof (Pos.size_gt p) as H.
  apply Pos2Z.pos_lt_pos in H. rewrite Pos2Z.inj_pow in H. exact H.
Qed.

Lemma digits2_pos_le (p : positive) : 2 ^ (Zpos (digits2_pos p) - 1) <= Zpos p.
Proof.
  rewrite digits2_pos_size.
  pose proof (Pos.size_le p) as H.
  apply Pos2Z.pos_le_pos in H. rewrite Pos2Z.inj_pow in H.
  change (Zpos p~0) with (2 * Zpos p) in H.
  replace (Zpos (Pos.size p)) with (Z.succ (Zpos (Pos.size p) - 1)) in H by lia.
  rewrite Z.pow_succ_r in H by lia. lia.
Qed.

Lemma digits2_pos_bound (p : positive) (n : Z) :
  Zpos p < 2 ^ n -> Zpos (digits2_pos p) <= n.
Proof.
  intros H. destruct (Z.le_gt_cases (Zpos (digits2_pos p)) n) as [|Hgt]; [assumption|].
  pose proof (digits2_pos_le p).
  assert (2 ^ n <= 2 ^ (Zpos (digits2_pos p) - 1)) by (apply Z.pow_le_mono_r; lia).
  lia.
Qed.

Lemma digits2_pos_iter_xO (p : positive) (k : positive) :
  Zpos (digits2_pos (Pos.iter xO p k)) = Zpos (digits2_pos p) + Zpos k.
Proof.
  induction k using Pos.peano_ind.
  - cbn [Pos.iter digits2_pos]. rewrite Pos2Z.inj_succ. lia.
  - rewrite Pos.iter_succ. cbn [digits2_pos]. rewrite !Pos2Z.inj_succ. lia.
Qed.

Lemma iter_xO_value (p k : positive) : Zpos (Pos.iter xO p k) = Zpos p * 2 ^ Zpos k.
Proof.
  induction k using Pos.peano_ind.
  - simpl. lia.
  - rewrite Pos.iter_succ, Pos2Z.inj_succ, Z.pow_succ_r by lia.
    change (Zpos (Pos.iter xO p k)~0) with (2 * Zpos (Pos.iter xO p k)). lia.
Qed.

(** A mantissa already in canonical form is left alone by rounding. *)
Lemma round_aux_canonical (s : bool) (m : positive) (e : Z) :
  bounded JS.prec JS.emax m e = true ->
  binary_round_aux JS.prec JS.emax s (Zpos m) e loc_Exact = S754_finite s m e.
Proof.
  unfold bounded, canonical_mantissa. intros H.
  apply andb_true_iff in H. destruct H as [Hc He].
  apply Z.eqb_eq in Hc.
  unfold binary_round_aux, shr_fexp. cbn [Zdigits2].
  rewrite Hc, Z.sub_diag. cbn [shr shr_record_of_loc shr_m loc_of_shr_record round_nearest_even].
  cbn [Zdigits2]. rewrite Hc, Z.sub_diag. cbn [shr shr_m].
  rewrite He. reflexivity.
Qed.

Lemma iter_pos_nat {A : Type} (f : A -> A) (n : positive) (x : A) :
  SpecFloat.iter_pos f n x = Nat.iter (Pos.to_nat n) f x.
Proof.
  revert x. induction n as [n IH|n IH|]; intros x; cbn [SpecFloat.iter_pos].
  - rewrite !IH, Pos2Nat.inj_xI.
    replace (S (2 * Pos.to_nat n)) with (Pos.to_nat n + (Pos.to_nat n + 1))%nat by lia.
    rewrite !Nat.iter_add. reflexivity.
  - rewrite !IH, Pos2Nat.inj_xO.
    replace (2 * Pos.to_nat n)%nat with (Pos.to_nat n + Pos.to_nat n)%nat by lia.
    rewrite Nat.iter_add. reflexivity.
  - reflexivity.
Qed.

Lemma shr_1_fields (mrs : shr_record) :
  0 <= shr_m mrs ->
  shr_m (shr_1 mrs) = shr_m mrs / 2
  /\ shr_r (shr_1 mrs) = Z.odd (shr_m mrs)
  /\ shr_s (shr_1 mrs) = shr_r mrs || shr_s mrs.
Proof.
  destruct mrs as [m r s]. cbn [shr_m shr_r shr_s]. intros Hm.
  destruct m as [|p|p]; [| |lia].
  - repeat split.
  - destruct p as [p|p|]; cbn [shr_1 shr_m shr_r shr_s].
    + repeat split. rewrite Pos2Z.inj_xI.
      apply Z.div_unique with (r := 1); lia.
    + repeat split. rewrite Pos2Z.inj_xO.
      apply Z.div_unique with (r := 0); lia.
    + repeat split.
Qed.

Lemma shr_iter (M : Z) (j : nat) :
  0 <= M ->
  let mrs := Nat.iter j shr_1 {| shr_m := M; shr_r := false; shr_s := false |} in
  shr_m mrs = M / 2 ^ Z.of_nat j
  /\ (M mod 2 ^ Z.of_nat j = 0 -> shr_r mrs = false /\ shr_s mrs = false).
Proof.
  intros HM. induction j as [|j IH]; cbn zeta in *.
  - cbn [Nat.iter shr_m shr_r shr_s]. rewrite Z.pow_0_r, Z.div_1_r. auto.
  - rewrite Nat.iter_succ. destruct IH as [IHm IHe].
    set (mrs := Nat.iter j shr_1 {| shr_m := M; shr_r := false; shr_s := false |}) in *.
    assert (Hpos : 0 <= shr_m mrs) by (rewrite IHm; apply Z.div_pos; lia).
    destruct (shr_1_fields mrs Hpos) as (Hm & Hr & Hs).
    rewrite Hm, Hr, Hs, IHm.
    rewrite Nat2Z.inj_succ, Z.pow_succ_r by lia.
    split.
    + rewrite Z.div_div by lia. f_equal. lia.
    + intros Hmod.
      assert (Hpow : 0 < 2 ^ Z.of_nat j) by (apply Z.pow_pos_nonneg; lia).
      remember (M / (2 * 2 ^ Z.of_nat j)) as q eqn:Hq.
      assert (Hdiv : M = 2 ^ Z.of_nat j * (2 * q)).
      { pose proof (Z.div_mod M (2 * 2 ^ Z.of_nat j) ltac:(lia)). lia. }
      assert (Hquo : M / 2 ^ Z.of_nat j = 2 * q).
      { symmetry. apply Z.div_unique with (r := 0); lia. }
      assert (Hmod' : M mod 2 ^ Z.of_nat j = 0).
      { pose proof (Z.div_mod M (2 ^ Z.of_nat j) ltac:(lia)). lia. }
      destruct (IHe Hmod') as [-> ->].
      split; [|reflexivity].
      rewrite Hquo, Z.odd_mul. reflexivity.
Qed.

(** Shifting a non-negative mantissa right by [k] bits divides it by 2^k,
    and the location is exact when nothing is shifted out. *)
Lemma shr_spec (M e k : Z) :
  0 <= M -> 0 < k ->
  exists mrs,
    shr {| shr_m := M; shr_r := false; shr_s := false |} e k = (mrs, e + k)
    /\ shr_m mrs = M / 2 ^ k
    /\ (M mod 2 ^ k = 0 -> loc_of_shr_record mrs = loc_Exact).
Proof.
  intros HM Hk. destruct k as [|p|p]; try lia.
  cbn [shr]. rewrite iter_pos_nat.
  destruct (shr_iter M (Pos.to_nat p) HM) as [Hm He].
  rewrite positive_nat_Z in Hm, He.
  eexists. split; [reflexivity|]. split; [exact Hm|].
  intros Hmod. destruct (He Hmod) as [Hr Hs].
  destruct (Nat.iter _ _ _) as [m r s]. cbn in Hr, Hs. subst. reflexivity.
Qed.

Lemma fexp_canonical (m : positive) (e : Z) :
  bounded JS.prec JS.emax m e = true ->
  fexp JS.prec JS.emax (Zpos (digits2_pos m) + e) = e /\ e <= 971.
Proof.
  unfold bounded, canonical_mantissa. intros H.
  apply andb_true_iff in H. destruct H as [Hc He].
  apply Z.eqb_eq in Hc. apply Z.leb_le in He.
  split; [exact Hc | exact He].
Qed.

(** Rounding a mantissa that is a canonical one shifted left gives the
    canonical one back. *)
Lemma round_aux_exact (s : bool) (m : positive) (e k : Z) :
  0 <= k ->
  bounded JS.prec JS.emax m e = true ->
  binary_round_aux JS.prec JS.emax s (Zpos m * 2 ^ k) (e - k) loc_Exact
  = S754_finite s m e.
Proof.
  intros Hk Hb.
  destruct k as [|p|p]; [| |lia].
  - rewrite Z.pow_0_r, Z.mul_1_r, Z.sub_0_r. apply round_aux_canonical, Hb.
  - destruct (fexp_canonical m e Hb) as [Hf He].
    rewrite <- iter_xO_value.
    unfold binary_round_aux, shr_fexp. cbn [Zdigits2 shr_record_of_loc].
    rewrite digits2_pos_iter_xO.
    replace (Zpos (digits2_pos m) + Zpos p + (e - Zpos p))
      with (Zpos (digits2_pos m) + e) by lia.
    rewrite Hf.
    replace (e - (e - Zpos p)) with (Zpos p) by lia.
    destruct (shr_spec (Zpos (Pos.iter xO m p)) (e - Zpos p) (Zpos p))
      as (mrs & Hshr & Hm & Hloc); [lia | lia |].
    rewrite Hshr.
    rewrite iter_xO_value in Hm, Hloc.
    rewrite Z.div_mul in Hm by (apply Z.pow_nonzero; lia).
    rewrite Hloc by (apply Z.mod_mul; apply Z.pow_nonzero; lia).
    rewrite Hm. cbn [round_nearest_even Zdigits2].
    replace (e - Zpos p + Zpos p) with e by lia.
    rewrite Hf, Z.sub_diag. cbn [shr shr_record_of_loc shr_m].
    apply Z.leb_le in He. unfold JS.emax, JS.prec in *.
    change (1024 - 53) with 971. rewrite He. reflexivity.
Qed.

(** The binary64 datum of a positive integer below 2^53: a 53-bit
    mantissa and an exponent in [-52, 0], denoting the integer exactly. *)
Lemma of_Z_pos (p : positive) :
  Zpos p < 2 ^ 53 ->
  exists m e,
    JS.of_Z (Zpos p) = S754_finite false m e
    /\ bounded JS.prec JS.emax m e = true
    /\ Zpos (digits2_pos m) = 53
    /\ -52 <= e <= 0
    /\ Zpos m = Zpos p * 2 ^ (- e).
Proof.
  intros Hp.
  pose proof (digits2_pos_bound p 53 Hp) as Hd.
  unfold JS.of_Z, binary_normalize, binary_round, shl_align.
  assert (Hf : fexp JS.prec JS.emax (Zpos (digits2_pos p) + 0)
               = Zpos (digits2_pos p) - 53)
    by (unfold fexp, emin, JS.prec, JS.emax; lia).
  rewrite Hf.
  destruct (Zpos (digits2_pos p) - 53 - 0) as [|k|k] eqn:Hk; try lia.
  - assert (Hb : bounded JS.prec JS.emax p 0 = true).
    { unfold bounded, canonical_mantissa. rewrite Hf.
      replace (Zpos (digits2_pos p)) with 53 by lia. reflexivity. }
    exists p, 0. rewrite round_aux_canonical by exact Hb.
    repeat split; try lia. exact Hb.
  - assert (Hdk : Zpos (digits2_pos (Pos.iter xO p k)) = 53)
      by (rewrite digits2_pos_iter_xO; lia).
    assert (Hb : bounded JS.prec JS.emax (Pos.iter xO p k) (Zpos (digits2_pos p) - 53) = true).
    { unfold bounded, canonical_mantissa. rewrite Hdk.
      apply andb_true_iff. split.
      - apply Z.eqb_eq. unfold fexp, emin, JS.prec, JS.emax. lia.
      - apply Z.leb_le. unfold JS.prec, JS.emax. lia. }
    exists (Pos.iter xO p k), (Zpos (digits2_pos p) - 53).
    rewrite round_aux_canonical by exact Hb.
    repeat split; try lia; try exact Hb.
    rewrite iter_xO_value. f_equal. f_equal. lia.
Qed.

Lemma mul_one_r (s : bool) (m : positive) (e : Z) :
  bounded JS.prec JS.emax m e = true ->
  JS.mul (S754_finite s m e) JS.one = S754_finite s m e.
Proof.
  intros Hb.
  change JS.one with (S754_finite false 4503599627370496 (-52)).
  unfold JS.mul. cbn [SFmul].
  rewrite xorb_false_r, Pos2Z.inj_mul.
  change (Zpos 4503599627370496) with (2 ^ 52).
  change (e + -52) with (e - 52).
  apply round_aux_exact; [lia | exact Hb].
Qed.

Lemma div_eucl_exact (a b : Z) :
  0 < b -> Z.div_eucl (a * b) b = (a, 0).
Proof.
  intros Hb.
  pose proof (Z.div_mul a b ltac:(lia)) as Hq.
  pose proof (Z.mod_mul a b ltac:(lia)) as Hr.
  unfold Z.div, Z.modulo in Hq, Hr.
  destruct (Z.div_eucl (a * b) b) as [q r]. cbn in Hq, Hr. congruence.
Qed.

(** A finite non-zero number divided by itself is exactly 1. *)
Lemma div_self (s : bool) (m : positive) (e : Z) :
  JS.div (S754_finite s m e) (S754_finite s m e) = JS.one.
Proof.
  unfold JS.div. cbn [SFdiv]. unfold SFdiv_core_binary. cbn [Zdigits2].
  rewrite !Z.sub_diag.
  change (Z.min (fexp JS.prec JS.emax 0) 0) with (-53).
  change (0 - -53) with 53.
  cbn match. rewrite Z.shiftl_mul_pow2 by lia.
  rewrite (Z.mul_comm (Zpos m)), div_eucl_exact by lia.
  rewrite xorb_nilpotent.
  replace (new_location (Zpos m) 0) with loc_Exact
    by (unfold new_location; destruct (Z.even (Zpos m)); reflexivity).
  reflexivity.
Qed.

(** Dividing the datum of a positive integer below 2^53 by 1 returns it. *)
Lemma div_one_r (m : positive) (e : Z) :
  bounded JS.prec JS.emax m e = true ->
  Zpos (digits2_pos m) = 53 -> -52 <= e ->
  JS.div (S754_finite false m e) JS.one = S754_finite false m e.
Proof.
  intros Hb Hd He.
  change JS.one with (S754_finite false 4503599627370496 (-52)).
  unfold JS.div. cbn [SFdiv]. unfold SFdiv_core_binary. cbn [Zdigits2].
  rewrite Hd. change (Zpos (digits2_pos 4503599627370496)) with 53.
  replace (Z.min (fexp JS.prec JS.emax (53 + e - (53 + -52))) (e - -52)) with (e - 1)
    by (unfold fexp, emin, JS.prec, JS.emax; lia).
  replace (e - -52 - (e - 1)) with 53 by lia.
  cbn match. rewrite Z.shiftl_mul_pow2 by lia.
  change (2 ^ 53) with (2 * 4503599627370496).
  rewrite Z.mul_assoc, div_eucl_exact by lia.
  change (new_location 4503599627370496 0) with loc_Exact.
  cbn [xorb].
  change (Zpos m * 2) with (Zpos m * 2 ^ 1).
  apply round_aux_exact; [lia | exact Hb].
Qed.

Lemma sub_diag (x : JS.number) :
  JS.is_finite x = true -> JS.sub x x = JS.zero.
Proof.
  destruct x as [[|]| | |s m e]; intros Hx; try discriminate.
  - reflexivity.
  - reflexivity.
  - unfold JS.sub. cbn [SFsub]. rewrite Z.sub_diag. reflexivity.
Qed.

Lemma shiftl_exact (p : positive) (m : positive) (e : Z) :
  e <= 0 -> Zpos m = Zpos p * 2 ^ (- e) -> Z.shiftl (Zpos m) e = Zpos p.
Proof.
  intros He Hm.
  rewrite <- (Z.opp_involutive e), Z.shiftl_opp_r, Z.shiftr_div_pow2 by lia.
  rewrite Hm. apply Z.div_mul. apply Z.pow_nonzero; lia.
Qed.

(** The loop counter and the array length as numbers. *)
Lemma of_nat_index (i : nat) :
  Z.of_nat i < 2 ^ 53 ->
  JS.mul (JS.of_nat i) JS.one = JS.of_nat i
  /\ JS.floorZ (JS.of_nat i) = Some (Z.of_nat i)
  /\ JS.sub (JS.of_nat i) (JS.of_Z (Z.of_nat i)) = JS.zero.
Proof.
  intros Hi. unfold JS.of_nat.
  destruct (Z.of_nat i) as [|p|p] eqn:Hp; [| |lia].
  - repeat split.
  - destruct (of_Z_pos p Hi) as (m & e & Hof & Hb & Hd & He & Hm).
    rewrite Hof. split; [apply mul_one_r, Hb|]. split.
    + cbn [JS.floorZ cond_Zopp]. f_equal. apply (shiftl_exact p); [lia | exact Hm].
    + apply sub_diag. reflexivity.
Qed.

Lemma unity_length (n : nat) :
  Z.of_nat n < 2 ^ 53 ->
  JS.ToIndex (JS.Math_floor (JS.div (JS.of_nat n) JS.one)) = Some n.
Proof.
  intros Hn. unfold JS.of_nat.
  destruct (Z.of_nat n) as [|p|p] eqn:Hp; [| |lia].
  - replace n with 0%nat by lia. reflexivity.
  - destruct (of_Z_pos p Hn) as (m & e & Hof & Hb & Hd & He & Hm).
    rewrite Hof, div_one_r by (try assumption; lia).
    cbn [JS.Math_floor JS.floorZ cond_Zopp].
    rewrite (shiftl_exact p) by (try assumption; lia).
    rewrite Hof. cbn [JS.ToIndex cond_Zopp].
    rewrite (shiftl_exact p) by (try assumption; lia).
    destruct (Z.leb_spec 0 (Zpos p)); [|lia].
    destruct (Z.leb_spec (Zpos p) (2 ^ 53 - 1)); [|lia].
    cbn [andb]. f_equal. lia.
Qed.

Lemma eqb_refl_finite (x : JS.number) : JS.is_finite x = true -> JS.eqb x x = true.
Proof.
  destruct x as [s|s| |s m e]; intros Hx; try discriminate; [reflexivity|].
  unfold JS.eqb, SFeqb. cbn [SFcompare].
  rewrite Z.compare_refl, Pos.compare_cont_refl. destruct s; reflexivity.
Qed.

(** One output sample at ratio 1: the interpolation weights are 1 and 0. *)
Lemma interpolate_unity (xi xc : JS.number) :
  float32_sample xi -> JS.is_finite xc = true ->
  same_sample
    (JS.fround (JS.add (JS.mul xi (JS.sub JS.one JS.zero)) (JS.mul xc JS.zero))) xi.
Proof.
  intros (Hfin & Hval & Hrnd) Hc.
  change (JS.sub JS.one JS.zero) with JS.one.
  assert (Hz : exists sz, JS.mul xc JS.zero = S754_zero sz).
  { destruct xc as [s|s| |s m e]; try discriminate; eexists; reflexivity. }
  destruct Hz as [sz ->].
  destruct xi as [s|s| |s m e]; try discriminate.
  - destruct s, sz; split; try reflexivity; intros H; congruence.
  - rewrite mul_one_r by exact Hval.
    change (JS.add (S754_finite s m e) (S754_zero sz)) with (S754_finite s m e).
    rewrite Hrnd. split; [apply eqb_refl_finite; reflexivity | reflexivity].
Qed.

Lemma get_lookup (a : list JS.number) (i : nat) (v : JS.number) :
  a !! i = Some v -> JS.get a (Z.of_nat i) = v.
Proof.
  intros H. unfold JS.get.
  destruct (Z.leb_spec 0 (Z.of_nat i)); [|lia].
  rewrite Nat2Z.id, H. reflexivity.
Qed.

Lemma get_neighbour (a : list JS.number) (i : nat) :
  (i < length a)%nat -> Forall float32_sample a ->
  JS.is_finite (JS.get a (Z.min (Z.of_nat i + 1) (Z.of_nat (length a) - 1))) = true.
Proof.
  intros Hi Ha.
  set (c := Z.min (Z.of_nat i + 1) (Z.of_nat (length a) - 1)).
  assert (Hc : 0 <= c < Z.of_nat (length a)) by (unfold c; lia).
  destruct (lookup_lt_is_Some_2 a (Z.to_nat c)) as [v Hv]; [lia|].
  replace c with (Z.of_nat (Z.to_nat c)) by lia.
  rewrite (get_lookup _ _ _ Hv).
  apply (Forall_lookup_1 _ _ _ _ Ha Hv).
Qed.

(** C8. Resampling at unity ratio is the identity: for every block of
    finite float32 samples (shorter than 2^53) and every finite positive
    rate, the worker's [downsample] at equal source and target rates
    returns a block of the same length whose samples equal the input's
    one for one, the clamped neighbour of the last sample included; each
    output is the very same datum, except that a negative zero may come
    out as a positive zero. *)
Theorem C8_unity_resample_identity (x : list JS.number) (r : JS.number)
    (Hfinite : JS.is_finite r = true)
    (Hpositive : JS.ltb JS.zero r = true)
    (Hsamples : Forall float32_sample x)
    (Hlength : Z.of_nat (length x) < 2 ^ 53) :
  exists out : list JS.number,
    Worker.downsample x r r = Some out
    /\ length out = length x
    /\ Forall2 same_sample out x.
Proof.
  destruct r as [s|s| |s m e]; try discriminate.
  unfold Worker.downsample.
  rewrite div_self, unity_length by exact Hlength.
  cbn [mbind option_bind]. rewrite for_upto_fill.
  eexists. split; [reflexivity|].
  split; [rewrite length_map, length_seq; reflexivity|].
  apply Forall2_same_length_lookup_2; [rewrite length_map, length_seq; reflexivity|].
  intros i o xi Ho Hxi.
  rewrite list_lookup_fmap in Ho.
  assert (Hi : (i < length x)%nat) by (apply lookup_lt_is_Some_1; eauto).
  rewrite lookup_seq_lt in Ho by exact Hi.
  cbn [fmap option_fmap option_map Nat.add] in Ho. injection Ho as <-.
  destruct (of_nat_index i) as (Hmul & Hfloor & Hsub); [lia|].
  rewrite Hmul, Hfloor, Hsub.
  rewrite (get_lookup _ _ _ Hxi).
  apply interpolate_unity.
  - apply (Forall_lookup_1 _ _ _ _ Hsamples Hxi).
  - apply get_neighbour; assumption.
Qed.

(** ** Binary64 arithmetic: bounds on rounding *)

Lemma pow2_split (a b : Z) : 0 <= a -> 0 <= b -> 2 ^ (a + b) = 2 ^ a * 2 ^ b.
Proof. intros. apply Z.pow_add_r; assumption. Qed.

Lemma Zdigits2_bound (M E : Z) :
  0 <= M -> E <= 0 -> M < 32768 * 2 ^ (- E) -> Zdigits2 M + E <= 15.
Proof.
  intros HM HE Hlt.
  destruct M as [|p|p]; [cbn; lia | | lia].
  cbn [Zdigits2].
  assert (Zpos (digits2_pos p) <= 15 - E); [|lia].
  apply digits2_pos_bound.
  replace (15 - E) with (15 + - E) by lia.
  rewrite pow2_split by lia. change (2 ^ 15) with 32768. exact Hlt.
Qed.

(** One shift stage of the rounding of a magnitude at most [B]. *)
Lemma shr_fexp_bound (M E B : Z) :
  0 < B < 32768 -> 0 <= M -> E <= 0 -> M <= B * 2 ^ (- E) ->
  exists mrs e',
    shr_fexp JS.prec JS.emax M E loc_Exact = (mrs, e')
    /\ e' <= 0
    /\ 0 <= shr_m mrs <= B * 2 ^ (- e')
    /\ (shr_m mrs = B * 2 ^ (- e') -> loc_of_shr_record mrs = loc_Exact).
Proof.
  intros HB HM HE Hle.
  assert (Hpow : 0 < 2 ^ (- E)) by (apply Z.pow_pos_nonneg; lia).
  assert (Hd : Zdigits2 M + E <= 15) by (apply Zdigits2_bound; nia).
  unfold shr_fexp. cbn [shr_record_of_loc].
  set (t := fexp JS.prec JS.emax (Zdigits2 M + E)).
  assert (Ht : t <= -38) by (unfold t, fexp, emin, JS.prec, JS.emax; lia).
  destruct (Z.le_gt_cases (t - E) 0) as [Hk|Hk].
  - exists {| shr_m := M; shr_r := false; shr_s := false |}, E.
    split; [destruct (t - E); try lia; reflexivity|].
    cbn [shr_m loc_of_shr_record]. repeat split; try lia.
  - destruct (shr_spec M E (t - E) HM ltac:(lia)) as (mrs & Hshr & Hm & Hloc).
    replace (E + (t - E)) with t in Hshr by lia.
    exists mrs, t. split; [exact Hshr|]. split; [lia|].
    assert (Hpk : 0 < 2 ^ (t - E)) by (apply Z.pow_pos_nonneg; lia).
    assert (Hpt : 0 < 2 ^ (- t)) by (apply Z.pow_pos_nonneg; lia).
    assert (Hsplit : 2 ^ (- E) = 2 ^ (- t) * 2 ^ (t - E)).
    { rewrite <- pow2_split by lia. f_equal. lia. }
    rewrite Hm.
    assert (Hq : M / 2 ^ (t - E) <= B * 2 ^ (- t)).
    { apply Z.div_le_upper_bound; [lia|]. rewrite Hsplit in Hle. lia. }
    split; [split; [apply Z.div_pos; lia | exact Hq]|].
    intros Heq. apply Hloc.
    pose proof (Z.div_mod M (2 ^ (t - E)) ltac:(lia)) as Hdm.
    pose proof (Z.mod_pos_bound M (2 ^ (t - E)) ltac:(lia)) as Hmb.
    rewrite Heq in Hdm. rewrite Hsplit in Hle. nia.
Qed.

Lemma round_nearest_even_bound (mrs : shr_record) (C : Z) :
  0 <= shr_m mrs <= C ->
  (shr_m mrs = C -> loc_of_shr_record mrs = loc_Exact) ->
  0 <= round_nearest_even (shr_m mrs) (loc_of_shr_record mrs) <= C.
Proof.
  intros Hm Hex.
  destruct (Z.eq_dec (shr_m mrs) C) as [Heq|Hne].
  - rewrite (Hex Heq). cbn. lia.
  - unfold round_nearest_even.
    destruct (loc_of_shr_record mrs) as [|[| |]]; try lia.
    destruct (Z.even (shr_m mrs)); lia.
Qed.

Lemma shiftl_bound (m e B : Z) :
  0 <= m -> e <= 0 -> m <= B * 2 ^ (- e) -> 0 <= Z.shiftl m e <= B.
Proof.
  intros Hm He Hle.
  assert (Hp : 0 < 2 ^ (- e)) by (apply Z.pow_pos_nonneg; lia).
  rewrite <- (Z.opp_involutive e), Z.shiftl_opp_r, Z.shiftr_div_pow2 by lia.
  split; [apply Z.div_pos; lia|].
  apply Z.div_le_upper_bound; lia.
Qed.

(** Rounding a magnitude of at most [B] gives a number whose integer part
    is at most [B] in absolute value. *)
Lemma round_aux_bound (s : bool) (M : positive) (E B : Z) :
  0 < B < 32768 -> E <= 0 -> Zpos M <= B * 2 ^ (- E) ->
  exists z,
    JS.truncZ (binary_round_aux JS.prec JS.emax s (Zpos M) E loc_Exact) = Some z
    /\ - B <= z <= B.
Proof.
  intros HB HE Hle.
  unfold binary_round_aux.
  destruct (shr_fexp_bound (Zpos M) E B HB ltac:(lia) HE Hle)
    as (mrs1 & e1 & -> & He1 & Hm1 & Hx1).
  pose proof (round_nearest_even_bound mrs1 _ Hm1 Hx1) as Hr.
  destruct (shr_fexp_bound _ e1 B HB (proj1 Hr) He1 (proj2 Hr))
    as (mrs2 & e2 & -> & He2 & Hm2 & _).
  destruct (shr_m mrs2) as [|q|q] eqn:Hq; [| |lia].
  - exists 0. split; [reflexivity | lia].
  - unfold JS.emax, JS.prec.
    destruct (Z.leb_spec e2 (1024 - 53)) as [_|Hbig]; [|lia].
    eexists. split; [reflexivity|].
    pose proof (shiftl_bound (Zpos q) e2 B ltac:(lia) He2 (proj2 Hm2)).
    destruct s; cbn [cond_Zopp]; lia.
Qed.

Lemma compare_cont_le (p q : positive) :
  Pos.compare_cont Eq p q <> Gt -> Zpos p <= Zpos q.
Proof.
  rewrite Pos.compare_cont_spec. intros H.
  assert (Hle : (p <= q)%positive).
  { unfold Pos.le. destruct (p ?= q)%positive; cbn in H; first [discriminate | exact H]. }
  lia.
Qed.

Lemma unit_exponent (s : bool) (m : positive) (e : Z) :
  JS.leb (JS.of_Z (-1)) (S754_finite s m e) = true ->
  JS.leb (S754_finite s m e) JS.one = true ->
  e < -52 \/ (e = -52 /\ Zpos m <= 2 ^ 52).
Proof.
  intros Hlo Hhi.
  change (JS.of_Z (-1)) with (S754_finite true 4503599627370496 (-52)) in Hlo.
  change JS.one with (S754_finite false 4503599627370496 (-52)) in Hhi.
  change (2 ^ 52) with (Zpos 4503599627370496).
  unfold JS.leb, SFleb in Hlo, Hhi. cbn [SFcompare] in Hlo, Hhi.
  destruct s.
  - destruct (Z.compare_spec (-52) e) as [Heq|Hlt|Hgt];
      [right | discriminate | left; lia].
    split; [lia|]. apply compare_cont_le. intros Hc.
    rewrite Pos.compare_cont_antisym in Hlo. cbn [CompOpp] in Hlo.
    rewrite Hc in Hlo. discriminate.
  - destruct (Z.compare_spec e (-52)) as [Heq|Hlt|Hgt];
      [right | left; lia | discriminate].
    split; [lia|]. apply compare_cont_le. intros Hc. rewrite Hc in Hhi. discriminate.
Qed.

(** [-1 <= x <= 1] for a binary64 datum bounds its magnitude by 1. *)
Lemma unit_range (s : bool) (m : positive) (e : Z) :
  JS.valid (S754_finite s m e) = true ->
  JS.leb (JS.of_Z (-1)) (S754_finite s m e) = true ->
  JS.leb (S754_finite s m e) JS.one = true ->
  e <= -52 /\ Zpos m <= 2 ^ (- e).
Proof.
  intros Hv Hlo Hhi.
  pose proof (unit_exponent s m e Hlo Hhi) as Hcases.
  destruct (fexp_canonical m e Hv) as [Hf _].
  assert (Hd : Zpos (digits2_pos m) <= 53)
    by (unfold fexp, emin, JS.prec, JS.emax in Hf; lia).
  pose proof (digits2_pos_lt m) as Hm.
  assert (Hm53 : Zpos m < 2 ^ 53).
  { eapply Z.lt_le_trans; [exact Hm|]. apply Z.pow_le_mono_r; lia. }
  destruct Hcases as [Hlt|[-> Hle]].
  - split; [lia|].
    assert (2 ^ 53 <= 2 ^ (- e)) by (apply Z.pow_le_mono_r; lia). lia.
  - split; [lia | exact Hle].
Qed.

(** The unclamped quantizer on a sample in [-1, 1]: the scaled value has an
    integer part in the int16 range, so the store does not wrap. *)
Lemma quantize_in_range (x : JS.number) :
  JS.valid x = true ->
  JS.leb (JS.of_Z (-1)) x = true -> JS.leb x JS.one = true ->
  exists z,
    JS.truncZ (JS.mul x (JS.of_Z 32767)) = Some z
    /\ -32767 <= z <= 32767
    /\ JS.ToInt16 (JS.mul x (JS.of_Z 32767)) = z.
Proof.
  intros Hv Hlo Hhi.
  assert (Hwrap : forall z, -32767 <= z <= 32767 -> JS.wrap16 z = z).
  { intros z Hz. unfold JS.wrap16. rewrite Z.mod_small by lia. lia. }
  destruct x as [s|s| |s m e]; try discriminate.
  - exists 0. destruct s; repeat split; lia.
  - destruct s; discriminate.
  - destruct (unit_range s m e Hv Hlo Hhi) as [He Hm].
    change (JS.of_Z 32767) with (S754_finite false 9006924376834048 (-38)).
    unfold JS.mul. cbn [SFmul].
    destruct (round_aux_bound (xorb s false) (m * 9006924376834048) (e + -38) 32767)
      as (z & Hz & Hrange); [lia | lia | |].
    + rewrite Pos2Z.inj_mul.
      replace (- (e + -38)) with (- e + 38) by lia.
      rewrite pow2_split by lia.
      change (Zpos 9006924376834048) with (32767 * 2 ^ 38).
      assert (0 < 2 ^ 38) by (apply Z.pow_pos_nonneg; lia). nia.
    + exists z. split; [exact Hz|]. split; [exact Hrange|].
      unfold JS.ToInt16. rewrite Hz. apply Hwrap, Hrange.
Qed.

Lemma C8_unity_resample_identity_witness :
  exists out : list JS.number,
    Worker.downsample unity_block rate44k1 rate44k1 = Some out
    /\ length out = length unity_block
    /\ Forall2 same_sample out unity_block.
Proof.
  apply (C8_unity_resample_identity unity_block rate44k1).
  - reflexivity.
  - reflexivity.
  - repeat constructor.
  - vm_compute. reflexivity.
Defined.

(** ** C3: the quantizers *)

Lemma downsampleTo16k_elements (input : list JS.number) (rate : JS.number) :
  Worklet.downsampleTo16k input rate
  = (n ← JS.ToIndex (JS.Math_floor (JS.div (JS.of_nat (length input))
                                            (JS.div rate (JS.of_Z 16000))));
     Some (map (fun i => scale_to_int16
                           (interpolate input (JS.div rate (JS.of_Z 16000)) i))
               (seq 0 n))).
Proof.
  unfold Worklet.downsampleTo16k.
  destruct (JS.ToIndex _) as [n|]; [|reflexivity].
  cbn [mbind option_bind]. f_equal.
  exact (for_upto_fill _ 0 n).
Qed.

Lemma Controller_downsample_eq (input : list JS.number) (rate : JS.number) :
  Controller.downsample input rate = Worklet.downsampleTo16k input rate.
Proof. reflexivity. Qed.

Lemma map_seq_get {B : Type} (g : JS.number -> B) (data : list JS.number) :
  map (fun i => g (JS.get data (Z.of_nat i))) (seq 0 (length data)) = map g data.
Proof.
  apply list_eq. intros i. rewrite !list_lookup_fmap.
  destruct (data !! i) as [v|] eqn:Hv.
  - rewrite lookup_seq_lt by (apply lookup_lt_is_Some_1; eauto).
    cbn. rewrite (get_lookup _ _ _ Hv). reflexivity.
  - rewrite lookup_seq_ge by (apply lookup_ge_None_1; exact Hv). reflexivity.
Qed.

Lemma float32ToInt16_map (data : list JS.number) :
  Worker.float32ToInt16 data = map (fun x => scale_to_int16 (clamp_unit x)) data.
Proof.
  unfold Worker.float32ToInt16. rewrite for_upto_fill.
  exact (map_seq_get (fun x => scale_to_int16 (clamp_unit x)) data).
Qed.

Lemma wrap16_range (z : Z) :
  -32768 <= JS.wrap16 z <= 32767 /\ (JS.wrap16 z - z) mod 65536 = 0.
Proof.
  unfold JS.wrap16.
  pose proof (Z.mod_pos_bound (z + 32768) 65536 ltac:(lia)).
  split; [lia|].
  pose proof (Z.div_mod (z + 32768) 65536 ltac:(lia)) as Hdm.
  replace ((z + 32768) mod 65536 - 32768 - z)
    with (- ((z + 32768) / 65536) * 65536) by lia.
  apply Z.mod_mul. lia.
Qed.

Lemma clamp_above (x : JS.number) :
  JS.ltb JS.one x = true -> clamp_unit x = JS.one.
Proof.
  unfold JS.ltb, SFltb, clamp_unit, JS.Math_min. intros H.
  destruct (SFcompare JS.one x) as [[| |]|]; try discriminate. reflexivity.
Qed.

Lemma clamp_below (x : JS.number) :
  JS.ltb x (JS.of_Z (-1)) = true -> clamp_unit x = JS.of_Z (-1).
Proof.
  change (JS.of_Z (-1)) with (S754_finite true 4503599627370496 (-52)).
  unfold JS.ltb, SFltb, clamp_unit.
  change (JS.of_Z (-1)) with (S754_finite true 4503599627370496 (-52)).
  change JS.one with (S754_finite false 4503599627370496 (-52)).
  destruct x as [s|[|]| |[|] m e]; cbn [SFcompare]; try discriminate.
  - intros _. reflexivity.
  - intros H. unfold JS.Math_min, JS.Math_max. cbn [SFcompare].
    rewrite (Z.compare_antisym e (-52)).
    assert (Hanti : Pos.compare_cont Eq 4503599627370496 m
                    = CompOpp (Pos.compare_cont Eq m 4503599627370496))
      by (rewrite Pos.compare_cont_antisym; reflexivity).
    rewrite Hanti.
    destruct (e ?= -52); cbn [CompOpp] in *; try discriminate; try reflexivity.
    destruct (Pos.compare_cont Eq m 4503599627370496); cbn [CompOpp] in *;
      try discriminate; reflexivity.
Qed.

(** C3, as stated, fails on the worker's [float32ToInt16]: the sample 2.0
    is clamped to 1 and stored as 32767, whereas the unclamped store of
    2.0 * 32767 wraps to -2. *)
Lemma C3_worker_counterexample :
  Worker.float32ToInt16 [JS.of_Z 2] = [32767]
  /\ scale_to_int16 (JS.of_Z 2) = -2
  /\ Worker.float32ToInt16 [JS.of_Z 2] <> [scale_to_int16 (JS.of_Z 2)].
Proof. vm_compute. repeat split; discriminate. Qed.

(** C3, amended. The quantizer written inline in the resampling loops of
    main.js and of [AudioProcessor.downsample] multiplies by 32767 and
    truncates without clamping: every output element is the store of
    sample * 32767; for a sample in [-1, 1] the stored value is
    trunc(sample * 32767), within [-32767, 32767]; in general it is
    trunc(sample * 32767) reduced modulo 2^16 into [-32768, 32767], so that
    2.0 is stored as -2, -2.0 as 2 and 1.5 as -16386. The worker's
    [float32ToInt16] clamps to [-1, 1] first: every sample above 1 is
    stored as 32767 and every sample below -1 as -32767. *)
Theorem C3_quantizer :
  (forall x,
      JS.valid x = true ->
      JS.leb (JS.of_Z (-1)) x = true -> JS.leb x JS.one = true ->
      exists z,
        JS.truncZ (JS.mul x (JS.of_Z 32767)) = Some z
        /\ -32767 <= z <= 32767
        /\ scale_to_int16 x = z)
  /\ (forall x z,
        JS.truncZ (JS.mul x (JS.of_Z 32767)) = Some z ->
        scale_to_int16 x = JS.wrap16 z
        /\ -32768 <= JS.wrap16 z <= 32767
        /\ (JS.wrap16 z - z) mod 65536 = 0)
  /\ scale_to_int16 (JS.of_Z 2) = -2
  /\ scale_to_int16 (JS.of_Z (-2)) = 2
  /\ scale_to_int16 lit_1_5 = -16386
  /\ (forall input rate,
        Worklet.downsampleTo16k input rate
        = (n ← JS.ToIndex (output_length (length input)
                                          (JS.div rate (JS.of_Z 16000)));
           Some (map (fun i => scale_to_int16
                                 (interpolate input (JS.div rate (JS.of_Z 16000)) i))
                     (seq 0 n))))
  /\ (forall input rate,
        Controller.downsample input rate = Worklet.downsampleTo16k input rate)
  /\ Worklet.downsampleTo16k [JS.of_Z 2] rate16k = Some [-2]
  /\ (forall data,
        Worker.float32ToInt16 data
        = map (fun x => scale_to_int16 (clamp_unit x)) data)
  /\ (forall x, JS.ltb JS.one x = true -> scale_to_int16 (clamp_unit x) = 32767)
  /\ (forall x, JS.ltb x (JS.of_Z (-1)) = true ->
        scale_to_int16 (clamp_unit x) = -32767)
  /\ Worker.float32ToInt16 [JS.of_Z 2; JS.of_Z (-2)] = [32767; -32767].
Proof.
  split; [exact quantize_in_range|].
  split.
  { intros x z Hz. unfold scale_to_int16, JS.ToInt16. rewrite Hz.
    split; [reflexivity | apply wrap16_range]. }
  split; [reflexivity|]. split; [reflexivity|]. split; [reflexivity|].
  split; [exact downsampleTo16k_elements|].
  split; [exact Controller_downsample_eq|].
  split; [reflexivity|].
  split; [exact float32ToInt16_map|].
  split; [intros x Hx; rewrite (clamp_above x Hx); reflexivity|].
  split; [intros x Hx; rewrite (clamp_below x Hx); reflexivity|].
  reflexivity.
Qed.

Lemma C3_quantizer_witness :
  exists z,
    JS.truncZ (JS.mul lit_0_5 (JS.of_Z 32767)) = Some z
    /\ -32767 <= z <= 32767
    /\ scale_to_int16 lit_0_5 = z.
Proof.
  apply (proj1 C3_quantizer lit_0_5); reflexivity.
Defined.

(** ** C7: output length of the resamplers *)

Lemma Worker_downsample_elements (input : list JS.number) (sourceRate targetRate : JS.number) :
  Worker.downsample input sourceRate targetRate
  = (n ← JS.ToIndex (output_length (length input) (JS.div sourceRate targetRate));
     Some (map (fun i => JS.fround
                           (interpolate input (JS.div sourceRate targetRate) i))
               (seq 0 n))).
Proof.
  unfold Worker.downsample, output_length.
  destruct (JS.ToIndex _) as [n|]; [|reflexivity].
  cbn [mbind option_bind]. f_equal.
  exact (for_upto_fill _ JS.zero n).
Qed.


(** ** C4: the RMS silence tests *)

(** C4. On PCM16 blocks the RMS test is strict at 25: a block of constant
    magnitude 24 is silent, one of constant magnitude 25 (RMS exactly 25) is
    not. On float blocks the test of [isBelowThresholdFloat32] compares with
    0.001, not with 25/32767: a block of constant 0.0009 has an RMS that is
    not below 25/32767 and is nevertheless classified silent. *)
Theorem C4_rms_threshold :
  Worklet.isSilentFrame [24] = true
  /\ Worklet.isSilentFrame [25] = false
  /\ Worklet.isSilentFrame (replicate 42 24) = true
  /\ Worklet.isSilentFrame (replicate 42 25) = false
  /\ Worklet.isSilentFrame (replicate 42 (-25)) = false
  /\ Controller.isBelowThreshold (replicate 42 24) = true
  /\ Controller.isBelowThreshold (replicate 42 25) = false
  /\ (forall samples,
        Offload.isBelowThresholdFloat32 samples
        = JS.ltb (rms_float32 samples) Offload.lit_0_001)
  /\ JS.ltb float_threshold Offload.lit_0_001 = true
  /\ JS.ltb (rms_float32 quiet_block) float_threshold = false
  /\ JS.ltb float_threshold (rms_float32 quiet_block) = true
  /\ Offload.isBelowThresholdFloat32 quiet_block = true.
Proof.
  repeat split; try reflexivity; vm_compute; reflexivity.
Qed.

(** * Further properties of the recorders *)

(** ** Digital silence under the RMS test *)

Lemma isSilent_all_zero (chunk : list Z) :
  Worklet.isSilent chunk = true -> Forall (fun v => v = 0) chunk.
Proof.
  induction chunk as [|v rest IH]; cbn [Worklet.isSilent]; intros H; [constructor|].
  destruct (Z.eqb_spec v 0) as [->|]; cbn in H; [|discriminate].
  constructor; [reflexivity | apply IH, H].
Qed.

Lemma sum_squares_zero (chunk : list Z) :
  Forall (fun v => v = 0) chunk ->
  foldl (fun sum v => JS.add sum (JS.mul (JS.of_Z v) (JS.of_Z v))) JS.zero chunk
  = JS.zero.
Proof.
  induction 1 as [|v rest -> _ IH]; [reflexivity|].
  cbn [foldl]. exact IH.
Qed.

Lemma rms_of_zero_sum (n : nat) :
  (0 < n)%nat -> Z.of_nat n < 2 ^ 53 ->
  JS.sqrt (JS.div JS.zero (JS.of_nat n)) = JS.zero.
Proof.
  intros Hn Hlt. unfold JS.of_nat.
  destruct (Z.of_nat n) as [|p|p] eqn:Hp; [lia | | lia].
  destruct (of_Z_pos p Hlt) as (m & e & -> & _). reflexivity.
Qed.

(** A non-empty all-zero PCM16 block is silent for the RMS test. *)
Lemma zero_block_rms_silent (chunk : list Z) :
  chunk <> [] -> Z.of_nat (length chunk) < 2 ^ 53 ->
  Worklet.isSilent chunk = true -> Worklet.isSilentFrame chunk = true.
Proof.
  intros Hne Hlen Hz. unfold Worklet.isSilentFrame.
  rewrite (sum_squares_zero chunk (isSilent_all_zero chunk Hz)).
  rewrite rms_of_zero_sum; [reflexivity | | exact Hlen].
  destruct chunk; [congruence | cbn; lia].
Qed.

(** ** Timelines are subsequences of the converted input *)

Section Timeline.
Context {St B : Type}.
Variable chunks : St -> list (list Z).
Variable step : St -> B -> St.
Variable conv : B -> option (list Z).
Variable Inv : St -> Prop.
Hypothesis step_inv : forall st b, Inv st -> Inv (step st b).
Hypothesis step_chunks : forall st b, Inv st ->
  chunks (step st b) = chunks st
  \/ exists p, conv b = Some p /\ chunks (step st b) = chunks st ++ [p].

Lemma fold_sublist (blocks : list B) (st : St) :
  Inv st ->
  exists kept,
    chunks (foldl step st blocks) = chunks st ++ kept
    /\ kept `sublist_of` omap conv blocks.
Proof.
  revert st. induction blocks as [|b blocks IH]; intros st Hst.
  - exists []. split; [rewrite app_nil_r; reflexivity | constructor].
  - cbn [foldl].
    destruct (IH (step st b) (step_inv st b Hst)) as (kept & Hk & Hsub).
    destruct (step_chunks st b Hst) as [Heq|(p & Hp & Heq)].
    + exists kept. split; [rewrite Hk, Heq; reflexivity|].
      cbn [omap list_omap]. destruct (conv b); [apply sublist_cons|]; exact Hsub.
    + exists (p :: kept). split.
      * rewrite Hk, Heq, <- app_assoc. reflexivity.
      * cbn [omap list_omap]. rewrite Hp. apply sublist_skip, Hsub.
Qed.
End Timeline.

Lemma Worklet_step_chunks (flag : bool) (rate : JS.number) (st : Worklet.state)
    (b : list JS.number) :
  Worklet.audioCtx st = Some rate ->
  Worklet.audioCtx (Worklet.onmessage flag st b) = Some rate
  /\ (Worklet.chunks (Worklet.onmessage flag st b) = Worklet.chunks st
      \/ exists p, Worklet.downsampleTo16k b rate = Some p
                   /\ Worklet.chunks (Worklet.onmessage flag st b)
                      = Worklet.chunks st ++ [p]).
Proof.
  intros Hctx. unfold Worklet.onmessage. rewrite Hctx.
  destruct (Worklet.downsampleTo16k b rate) as [p|]; [|auto].
  destruct (flag && _ && _); [auto|].
  destruct (Worklet.isSilentFrame p); [auto|].
  split; [reflexivity|]. right. exists p. split; reflexivity.
Qed.

Lemma Controller_step_chunks (flag : bool) (rate : JS.number) (st : Controller.state)
    (b : list JS.number) :
  Controller.audioContext st = Some rate ->
  Controller.audioContext (Controller.onaudioprocess flag st b) = Some rate
  /\ (Controller.recordedChunks (Controller.onaudioprocess flag st b)
      = Controller.recordedChunks st
      \/ exists p, Controller.downsample b rate = Some p
                   /\ Controller.recordedChunks (Controller.onaudioprocess flag st b)
                      = Controller.recordedChunks st ++ [p]).
Proof.
  intros Hctx. unfold Controller.onaudioprocess. rewrite Hctx.
  destruct (Controller.downsample b rate) as [p|]; [|auto].
  destruct (flag && _ && _); [auto|].
  split; [reflexivity|]. right. exists p. split; reflexivity.
Qed.

Lemma Offload_step_chunks (flag : bool) (w0 : Worker.state) (st : Offload.state)
    (b : list JS.number) :
  Offload_inv w0 st ->
  Offload_inv w0 (Offload.onaudioprocess flag st b)
  /\ (Worker.recordedChunks (Offload.audioWorker (Offload.onaudioprocess flag st b))
      = Worker.recordedChunks (Offload.audioWorker st)
      \/ exists p, Worker_convert w0 b = Some p
                   /\ Worker.recordedChunks
                        (Offload.audioWorker (Offload.onaudioprocess flag st b))
                      = Worker.recordedChunks (Offload.audioWorker st) ++ [p]).
Proof.
  intros [Hsr Hnd].
  destruct (Worker_process_chunks (Offload.audioWorker st) b) as (Hc & Hsr' & Hnd').
  cbn zeta in Hc, Hsr', Hnd'.
  rewrite (Worker_convert_ext _ w0 b Hsr Hnd) in Hc.
  assert (Hpost :
    Offload_inv w0 {| Offload.audioContext := Offload.audioContext st;
                      Offload.hasRecordedAudio := true;
                      Offload.audioWorker :=
                        fst (Worker.onmessage (Offload.audioWorker st) (Worker.Process b)) |}
    /\ forall h,
       (Worker.recordedChunks
          (Offload.audioWorker
             {| Offload.audioContext := Offload.audioContext st;
                Offload.hasRecordedAudio := h;
                Offload.audioWorker :=
                  fst (Worker.onmessage (Offload.audioWorker st) (Worker.Process b)) |})
        = Worker.recordedChunks (Offload.audioWorker st)
        \/ exists p, Worker_convert w0 b = Some p
             /\ Worker.recordedChunks
                  (Offload.audioWorker
                     {| Offload.audioContext := Offload.audioContext st;
                        Offload.hasRecordedAudio := h;
                        Offload.audioWorker :=
                          fst (Worker.onmessage (Offload.audioWorker st) (Worker.Process b)) |})
                = Worker.recordedChunks (Offload.audioWorker st) ++ [p])).
  { split; [split; cbn [Offload.audioWorker]; congruence|].
    intros h. cbn [Offload.audioWorker]. rewrite Hc.
    destruct (Worker_convert w0 b) as [p|].
    - right. exists p. split; reflexivity.
    - left. rewrite app_nil_r. reflexivity. }
  destruct Hpost as [Hinv Hch].
  unfold Offload.onaudioprocess.
  destruct (Offload.audioContext st); [|split; [split; assumption | left; reflexivity]].
  destruct (flag && negb (Offload.hasRecordedAudio st)).
  - destruct (_ || _).
    + split; [split; assumption | left; reflexivity].
    + split; [exact Hinv | apply Hch].
  - split; [exact Hinv | apply Hch].
Qed.

(** X1. Whatever the flag and the sample rate, each recorder's timeline is a
    subsequence of the converted input blocks, in arrival order: the handlers
    drop blocks but never reorder, duplicate or alter one. *)
Theorem timeline_is_subsequence (flag : bool) (rate : JS.number)
    (blocks : list (list JS.number)) :
  Worklet.record flag rate blocks
    `sublist_of` omap (fun b => Worklet.downsampleTo16k b rate) blocks
  /\ Controller.record flag rate blocks
       `sublist_of` omap (fun b => Controller.downsample b rate) blocks
  /\ Offload.record flag rate blocks
       `sublist_of` omap (Worker_convert (Offload.audioWorker (Offload.start rate))) blocks.
Proof.
  split; [|split].
  - unfold Worklet.record.
    destruct (fold_sublist Worklet.chunks (Worklet.onmessage flag)
                (fun b => Worklet.downsampleTo16k b rate)
                (fun st => Worklet.audioCtx st = Some rate)
                (fun st b H => proj1 (Worklet_step_chunks flag rate st b H))
                (fun st b H => proj2 (Worklet_step_chunks flag rate st b H))
                blocks (Worklet.start rate (Worklet.mkState None [] None)) eq_refl)
      as (kept & -> & Hsub).
    exact Hsub.
  - unfold Controller.record.
    destruct (fold_sublist Controller.recordedChunks (Controller.onaudioprocess flag)
                (fun b => Controller.downsample b rate)
                (fun st => Controller.audioContext st = Some rate)
                (fun st b H => proj1 (Controller_step_chunks flag rate st b H))
                (fun st b H => proj2 (Controller_step_chunks flag rate st b H))
                blocks (Controller.start rate (Controller.mkState None [] None)) eq_refl)
      as (kept & -> & Hsub).
    exact Hsub.
  - unfold Offload.record.
    set (w0 := Offload.audioWorker (Offload.start rate)).
    destruct (fold_sublist (fun st => Worker.recordedChunks (Offload.audioWorker st))
                (Offload.onaudioprocess flag) (Worker_convert w0) (Offload_inv w0)
                (fun st b H => proj1 (Offload_step_chunks flag w0 st b H))
                (fun st b H => proj2 (Offload_step_chunks flag w0 st b H))
                blocks (Offload.start rate) (conj eq_refl eq_refl))
      as (kept & -> & Hsub).
    exact Hsub.
Qed.

(** ** The worklet handler: RMS gating throughout *)

Lemma Worklet_fold_filter (flag : bool) (rate : JS.number)
    (blocks : list (list JS.number)) (st : Worklet.state) :
  Worklet.audioCtx st = Some rate ->
  flag = false \/ Forall (regular_block rate) blocks ->
  Worklet.chunks (foldl (Worklet.onmessage flag) st blocks)
  = Worklet.chunks st
    ++ List.filter rms_audible (omap (fun b => Worklet.downsampleTo16k b rate) blocks).
Proof.
  revert st. induction blocks as [|b blocks IH]; intros st Hctx Hreg.
  - cbn. rewrite app_nil_r. reflexivity.
  - assert (Hreg' : flag = false \/ Forall (regular_block rate) blocks).
    { destruct Hreg as [H|H]; [left; exact H | right; inversion H; assumption]. }
    cbn [foldl omap list_omap].
    assert (Hstep :
      Worklet.onmessage flag st b
      = match Worklet.downsampleTo16k b rate with
        | Some pcm16 =>
            if Worklet.isSilentFrame pcm16 then st
            else {| Worklet.audioCtx := Worklet.audioCtx st;
                    Worklet.chunks := Worklet.chunks st ++ [pcm16];
                    Worklet.wavResult := Worklet.wavResult st |}
        | None => st
        end).
    { unfold Worklet.onmessage. rewrite Hctx.
      assert (Hb : flag = false \/ regular_block rate b).
      { destruct Hreg as [H|H]; [left; exact H | right; inversion H; assumption]. }
      unfold regular_block in Hb.
      destruct (Worklet.downsampleTo16k b rate) as [p|]; [|reflexivity].
      destruct (flag && (length (Worklet.chunks st) =? 0)%nat && Worklet.isSilent p)
        eqn:Hgate; [|reflexivity].
      apply andb_true_iff in Hgate. destruct Hgate as [Hgate Hsil].
      apply andb_true_iff in Hgate. destruct Hgate as [Hflag _].
      destruct Hb as [Hf|[Hne Hlen]]; [congruence|].
      rewrite (zero_block_rms_silent p Hne Hlen Hsil). reflexivity. }
    rewrite Hstep.
    destruct (Worklet.downsampleTo16k b rate) as [p|]; [|apply IH; assumption].
    cbn [List.filter].
    replace (rms_audible p) with (negb (Worklet.isSilentFrame p)) by reflexivity.
    destruct (Worklet.isSilentFrame p); cbn [negb]; [apply IH; assumption|].
    rewrite IH by (try assumption; exact Hctx).
    cbn [Worklet.chunks]. rewrite <- app_assoc. reflexivity.
Qed.

(** X2. In the worklet recorder the remove-silence flag changes nothing when
    no block converts to an empty buffer: every all-zero block is also below
    the RMS threshold, so the unconditional RMS test already drops what the
    flagged test drops. *)
Theorem worklet_flag_has_no_effect (rate : JS.number) (blocks : list (list JS.number))
    (Hregular : Forall (regular_block rate) blocks) :
  Worklet.record true rate blocks = Worklet.record false rate blocks
  /\ Worklet.record true rate blocks
     = List.filter rms_audible (omap (fun b => Worklet.downsampleTo16k b rate) blocks).
Proof.
  unfold Worklet.record.
  rewrite (Worklet_fold_filter true rate blocks) by (try reflexivity; right; exact Hregular).
  rewrite (Worklet_fold_filter false rate blocks) by (try reflexivity; left; reflexivity).
  split; reflexivity.
Qed.

Lemma worklet_flag_has_no_effect_witness :
  Worklet.record true rate48k session = Worklet.record false rate48k session
  /\ Worklet.record true rate48k session
     = List.filter rms_audible
         (omap (fun b => Worklet.downsampleTo16k b rate48k) session).
Proof.
  apply (worklet_flag_has_no_effect rate48k session).
  unfold session.
  repeat (constructor; [vm_compute; split; [discriminate | reflexivity]|]).
  constructor.
Defined.

(** X3. With the flag off the worklet recorder's timeline is exactly the
    converted blocks whose RMS is not below 25, for every input. *)
Theorem worklet_unflagged_is_rms_filter (rate : JS.number)
    (blocks : list (list JS.number)) :
  Worklet.record false rate blocks
  = List.filter rms_audible (omap (fun b => Worklet.downsampleTo16k b rate) blocks).
Proof.
  unfold Worklet.record.
  rewrite (Worklet_fold_filter false rate blocks) by (try reflexivity; left; reflexivity).
  reflexivity.
Qed.

(** ** removeSilentFrames (MediaRecorder variant) *)

Lemma slice_is_frame (pcm16 : list Z) (i : nat) :
  MediaRecorder.slice pcm16 i (Nat.min (i + 512) (length pcm16))
  = take 512 (drop i pcm16).
Proof.
  unfold MediaRecorder.slice.
  destruct (Nat.le_gt_cases (i + 512) (length pcm16)) as [Hle|Hgt].
  - rewrite Nat.min_l by lia. f_equal. lia.
  - rewrite Nat.min_r by lia.
    rewrite !take_ge by (rewrite length_drop; lia). reflexivity.
Qed.

Lemma frames_loop_frames (fuel : nat) (pcm16 : list Z) (i : nat)
    (acc : list (list Z)) :
  (length pcm16 - i <= fuel)%nat ->
  MediaRecorder.frames_loop fuel pcm16 i acc
  = acc ++ List.filter rms_audible (frames_of fuel 512 (drop i pcm16)).
Proof.
  revert i acc. induction fuel as [|fuel IH]; intros i acc Hfuel.
  - cbn. rewrite app_nil_r. reflexivity.
  - cbn [MediaRecorder.frames_loop frames_of].
    destruct (Nat.ltb_spec i (length pcm16)) as [Hlt|Hge].
    + rewrite slice_is_frame.
      destruct (drop i pcm16) as [|v rest] eqn:Hdrop.
      { apply (f_equal length) in Hdrop. rewrite length_drop in Hdrop. cbn in Hdrop. lia. }
      rewrite <- Hdrop. rewrite IH by lia.
      rewrite drop_drop. cbn [List.filter].
      replace (rms_audible (take 512 (drop i pcm16)))
        with (negb (MediaRecorder.isSilentFrame (take 512 (drop i pcm16)))) by reflexivity.
      destruct (negb _); [rewrite <- app_assoc|]; reflexivity.
    + rewrite drop_ge by lia. rewrite app_nil_r. reflexivity.
Qed.

Lemma concat_frames_of (fuel size : nat) (l : list Z) :
  (0 < size)%nat -> (length l <= fuel)%nat -> concat (frames_of fuel size l) = l.
Proof.
  intros Hsize. revert l. induction fuel as [|fuel IH]; intros l Hfuel.
  - destruct l; [reflexivity | cbn in Hfuel; lia].
  - cbn [frames_of]. destruct l as [|v rest]; [reflexivity|].
    cbn [concat]. rewrite IH.
    + apply take_drop.
    + rewrite length_drop. cbn [length] in *. lia.
Qed.

Lemma concat_filter_sublist (keep : list Z -> bool) (frames : list (list Z)) :
  concat (List.filter keep frames) `sublist_of` concat frames.
Proof.
  induction frames as [|f frames IH]; [constructor|].
  cbn [List.filter concat]. destruct (keep f).
  - cbn [concat]. apply sublist_app; [reflexivity | exact IH].
  - apply sublist_inserts_l, IH.
Qed.

Lemma filter_all_kept (keep : list Z -> bool) (frames : list (list Z)) :
  Forall (fun f => keep f = true) frames -> List.filter keep frames = frames.
Proof.
  induction 1 as [|f frames Hf _ IH]; [reflexivity|].
  cbn [List.filter]. rewrite Hf, IH. reflexivity.
Qed.

Lemma filter_none_kept (keep : list Z -> bool) (frames : list (list Z)) :
  Forall (fun f => keep f = false) frames -> List.filter keep frames = [].
Proof.
  induction 1 as [|f frames Hf _ IH]; [reflexivity|].
  cbn [List.filter]. rewrite Hf, IH. reflexivity.
Qed.

(** X4. [removeSilentFrames] never throws; it cuts the buffer into consecutive
    frames of 512 samples (the last one shorter), which together are the
    buffer, and returns the frames that pass the RMS test, in order: a
    subsequence of the input, and the input itself when no frame is silent. *)
Theorem removeSilentFrames_frames (pcm16 : list Z) :
  exists out,
    MediaRecorder.removeSilentFrames pcm16 = Some out
    /\ out = concat (List.filter rms_audible (frames_of (length pcm16) 512 pcm16))
    /\ concat (frames_of (length pcm16) 512 pcm16) = pcm16
    /\ out `sublist_of` pcm16
    /\ (length out <= length pcm16)%nat
    /\ (Forall (fun f => Worklet.isSilentFrame f = false)
               (frames_of (length pcm16) 512 pcm16) -> out = pcm16).
Proof.
  unfold MediaRecorder.removeSilentFrames.
  rewrite frames_loop_frames by lia. rewrite drop_0. cbn [app].
  rewrite mergeChunks_concat.
  pose proof (concat_frames_of (length pcm16) 512 pcm16 ltac:(lia) ltac:(lia)) as Hcat.
  assert (Hsub : concat (List.filter rms_audible (frames_of (length pcm16) 512 pcm16))
                 `sublist_of` pcm16).
  { pose proof (concat_filter_sublist rms_audible
                  (frames_of (length pcm16) 512 pcm16)) as H.
    rewrite Hcat in H. exact H. }
  eexists. split; [reflexivity|]. split; [reflexivity|]. split; [exact Hcat|].
  split; [exact Hsub|]. split; [apply sublist_length, Hsub|].
  intros Hloud. rewrite filter_all_kept; [exact Hcat|].
  eapply Forall_impl; [exact Hloud|]. intros f Hf. unfold rms_audible. rewrite Hf. reflexivity.
Qed.

Lemma all_zero_rms_silent (f : list Z) :
  f <> [] -> Z.of_nat (length f) < 2 ^ 53 -> Forall (fun v => v = 0) f ->
  Worklet.isSilentFrame f = true.
Proof.
  intros Hne Hlen Hz. unfold Worklet.isSilentFrame.
  rewrite (sum_squares_zero f Hz).
  rewrite rms_of_zero_sum; [reflexivity | | exact Hlen].
  destruct f; [congruence | cbn; lia].
Qed.

Lemma frames_of_zero (fuel : nat) (l : list Z) :
  Forall (fun v => v = 0) l ->
  Forall (fun f => rms_audible f = false) (frames_of fuel 512 l).
Proof.
  revert l. induction fuel as [|fuel IH]; intros l Hl; [constructor|].
  cbn [frames_of]. destruct l as [|v rest] eqn:El; [constructor|]. rewrite <- El in *.
  constructor.
  - unfold rms_audible. rewrite all_zero_rms_silent; [reflexivity | | |].
    + rewrite El. discriminate.
    + rewrite length_take.
      assert (2 ^ 53 = 9007199254740992) by reflexivity. lia.
    + apply Forall_take, Hl.
  - apply IH, Forall_drop, Hl.
Qed.

(** X5. [removeSilentFrames] of a buffer of zeros, of any length, is empty. *)
Theorem removeSilentFrames_digital_silence (pcm16 : list Z)
    (Hzero : Forall (fun v => v = 0) pcm16) :
  MediaRecorder.removeSilentFrames pcm16 = Some [].
Proof.
  unfold MediaRecorder.removeSilentFrames.
  rewrite frames_loop_frames by lia. rewrite drop_0. cbn [app].
  rewrite mergeChunks_concat.
  rewrite filter_none_kept by (apply frames_of_zero, Hzero). reflexivity.
Qed.

Lemma removeSilentFrames_digital_silence_witness :
  MediaRecorder.removeSilentFrames (replicate 600 0) = Some [].
Proof.
  apply (removeSilentFrames_digital_silence (replicate 600 0)).
  apply Forall_replicate. reflexivity.
Defined.

(** ** Stopping a session *)

(** X6. Stopping never fails, from any state: the WAV stored is the header
    for the merged timeline followed by its samples, the audio context is
    cleared, and the worker's chunk list is emptied. *)
Theorem stop_encodes_timeline :
  (forall st, exists st',
      Worklet.stop st = Some st'
      /\ Worklet.audioCtx st' = None
      /\ Worklet.wavResult st'
         = Some (wav_header (length (concat (Worklet.chunks st)))
                 ++ wav_data (concat (Worklet.chunks st))))
  /\ (forall st, exists st',
        Controller.stop st = Some st'
        /\ Controller.audioContext st' = None
        /\ Controller.finalWavBuffer st'
           = Some (wav_header (length (concat (Controller.recordedChunks st)))
                   ++ wav_data (concat (Controller.recordedChunks st))))
  /\ (forall st, exists st',
        Offload.stop st
        = (st', Some (wav_header (length (concat (Worker.recordedChunks
                                                     (Offload.audioWorker st))))
                      ++ wav_data (concat (Worker.recordedChunks
                                             (Offload.audioWorker st)))))
        /\ Offload.audioContext st' = None
        /\ Worker.recordedChunks (Offload.audioWorker st') = []).
Proof.
  split; [|split].
  - intros st. unfold Worklet.stop.
    rewrite mergeChunks_concat. cbn [mbind option_bind].
    rewrite buildWav_bytes. cbn [mbind option_bind].
    eexists. repeat split.
  - intros st. unfold Controller.stop.
    rewrite Controller_mergeChunks_concat. cbn [mbind option_bind].
    rewrite encode_eq_buildWav, buildWav_bytes. cbn [mbind option_bind].
    eexists. repeat split.
  - intros st. unfold Offload.stop, Worker.onmessage, Worker.mergeChunks, Worker.buildWav.
    rewrite Controller_mergeChunks_concat. cbn [mbind option_bind].
    rewrite encode_eq_buildWav, buildWav_bytes.
    eexists. repeat split.
Qed.

(** X7. Blocks delivered after stop leave the state as stop left it. *)
Theorem late_blocks_are_ignored (flag : bool) (blocks : list (list JS.number)) :
  (forall st, exists st',
      Worklet.stop st = Some st' /\ foldl (Worklet.onmessage flag) st' blocks = st')
  /\ (forall st, exists st',
        Controller.stop st = Some st'
        /\ foldl (Controller.onaudioprocess flag) st' blocks = st')
  /\ (forall st, foldl (Offload.onaudioprocess flag) (fst (Offload.stop st)) blocks
                 = fst (Offload.stop st)).
Proof.
  split; [|split].
  - intros st. unfold Worklet.stop.
    rewrite mergeChunks_concat. cbn [mbind option_bind].
    rewrite buildWav_bytes. cbn [mbind option_bind].
    eexists. split; [reflexivity|].
    induction blocks as [|b blocks IH]; [reflexivity | exact IH].
  - intros st. unfold Controller.stop.
    rewrite Controller_mergeChunks_concat. cbn [mbind option_bind].
    rewrite encode_eq_buildWav, buildWav_bytes. cbn [mbind option_bind].
    eexists. split; [reflexivity|].
    induction blocks as [|b blocks IH]; [reflexivity | exact IH].
  - intros st. unfold Offload.stop.
    destruct (Worker.onmessage _ Worker.Finish) as [w wav]. cbn [fst].
    induction blocks as [|b blocks IH]; [reflexivity | exact IH].
Qed.

(** ** A worker session: init, process, finish *)

Lemma Worker_feed_chunks (buffers : list (list JS.number)) (st w0 : Worker.state) :
  Worker.sourceSampleRate st = Worker.sourceSampleRate w0 ->
  Worker.needsDownsampling st = Worker.needsDownsampling w0 ->
  Worker.recordedChunks (Worker_feed st buffers)
  = Worker.recordedChunks st ++ omap (Worker_convert w0) buffers.
Proof.
  revert st. induction buffers as [|b buffers IH]; intros st Hsr Hnd.
  - cbn. rewrite app_nil_r. reflexivity.
  - unfold Worker_feed. cbn [foldl]. fold (Worker_feed (fst (Worker.onmessage st (Worker.Process b))) buffers).
    destruct (Worker_process_chunks st b) as (Hc & Hsr' & Hnd').
    cbn zeta in Hc, Hsr', Hnd'.
    rewrite IH by congruence.
    rewrite Hc, (Worker_convert_ext st w0 b Hsr Hnd), <- app_assoc.
    cbn [omap list_omap]. destruct (Worker_convert w0 b); reflexivity.
Qed.

(** X8. A worker session (init, any number of process messages, finish)
    answers with the encoding of the converted buffers in order and clears
    the chunk list; a second finish answers with a bare 44-byte header, and
    clear empties the chunk list. *)
Theorem worker_session (rate : JS.number) (buffers : list (list JS.number))
    (st0 : Worker.state) :
  let st1 := fst (Worker.onmessage st0 (Worker.Init rate)) in
  let pcm := concat (omap (Worker_convert st1) buffers) in
  exists st3,
    Worker.onmessage (Worker_feed st1 buffers) Worker.Finish
    = (st3, Some (wav_header (length pcm) ++ wav_data pcm))
    /\ Worker.recordedChunks st3 = []
    /\ snd (Worker.onmessage st3 Worker.Finish) = Some (wav_header 0)
    /\ Worker.recordedChunks (fst (Worker.onmessage (Worker_feed st1 buffers) Worker.Clear))
       = [].
Proof.
  intros st1 pcm.
  assert (Hchunks : Worker.recordedChunks (Worker_feed st1 buffers)
                    = omap (Worker_convert st1) buffers).
  { rewrite (Worker_feed_chunks buffers st1 st1) by reflexivity. reflexivity. }
  unfold Worker.onmessage at 1, Worker.mergeChunks, Worker.buildWav.
  rewrite Hchunks, Controller_mergeChunks_concat. cbn [mbind option_bind].
  rewrite encode_eq_buildWav, buildWav_bytes.
  eexists. split; [reflexivity|]. repeat split.
Qed.

(** ** The encoders on arbitrary buffers *)

Lemma byte_of_mod (v a b c : Z) :
  0 < a -> 0 < b -> 0 < c -> (v mod (a * b * c)) / a mod b = (v / a) mod b.
Proof.
  intros Ha Hb Hc.
  pose proof (Z.div_mod v (a * b * c) ltac:(nia)) as Hv.
  set (q := v / (a * b * c)) in *. set (r := v mod (a * b * c)) in *.
  rewrite Hv.
  replace (a * b * c * q + r) with (b * c * q * a + r) by ring.
  rewrite Z.div_add_l by lia.
  replace (b * c * q + r / a) with (r / a + c * q * b) by ring.
  rewrite Z.mod_add by lia. reflexivity.
Qed.

Lemma le32_value_mod (v : Z) :
  DataView.byte v 0 + 256 * DataView.byte v 1
  + 65536 * (DataView.byte v 2 + 256 * DataView.byte v 3) = v mod 2 ^ 32.
Proof.
  rewrite <- (le32_value (v mod 2 ^ 32)) by (apply Z.mod_pos_bound; lia).
  unfold DataView.byte.
  change (2 ^ (8 * 0)) with 1. change (2 ^ (8 * 1)) with 256.
  change (2 ^ (8 * 2)) with 65536. change (2 ^ (8 * 3)) with 16777216.
  change (2 ^ 32) with (1 * 256 * 16777216) at 1.
  change (2 ^ 32) with (256 * 256 * 65536) at 1.
  change (2 ^ 32) with (65536 * 256 * 256) at 1.
  change (2 ^ 32) with (16777216 * 256 * 1).
  rewrite !byte_of_mod by lia. reflexivity.
Qed.

Lemma wav_data_bytes (samples : list Z) :
  Forall (fun b => 0 <= b < 256) (wav_data samples).
Proof.
  induction samples as [|s samples IH]; [constructor|].
  unfold wav_data in *. cbn [flat_map le16 app].
  constructor; [apply byte_range|]. constructor; [apply byte_range | exact IH].
Qed.

Lemma wav_header_bytes (n : nat) : Forall (fun b => 0 <= b < 256) (wav_header n).
Proof.
  unfold wav_header, le32, le16. cbn [app].
  repeat (constructor; [first [apply byte_range | lia]|]). constructor.
Qed.

(** X9. The four WAV encoders return the same bytes on every buffer and never
    throw; the result has 44 + 2n bytes, each in 0..255, and the two size
    fields hold 36 + 2n and 2n modulo 2^32. *)
Theorem encoders_total (samples : list Z) :
  exists bytes,
    Worklet.buildWav samples = Some bytes
    /\ Controller.encode samples = Some bytes
    /\ Worker.buildWav samples = Some bytes
    /\ MediaRecorder.buildWav samples = Some bytes
    /\ length bytes = (44 + 2 * length samples)%nat
    /\ Forall (fun b => 0 <= b < 256) bytes
    /\ WavReader.getUint32 bytes 4 = (36 + 2 * Z.of_nat (length samples)) mod 2 ^ 32
    /\ WavReader.getUint32 bytes 40 = (2 * Z.of_nat (length samples)) mod 2 ^ 32
    /\ length (drop 44 bytes) = (2 * length samples)%nat.
Proof.
  exists (wav_header (length samples) ++ wav_data samples).
  split; [apply buildWav_bytes|].
  split; [rewrite encode_eq_buildWav; apply buildWav_bytes|].
  split; [unfold Worker.buildWav; rewrite encode_eq_buildWav; apply buildWav_bytes|].
  split; [apply buildWav_bytes|].
  split; [rewrite length_app, wav_data_length; cbn; lia|].
  split; [apply Forall_app; split; [apply wav_header_bytes | apply wav_data_bytes]|].
  split.
  { replace (36 + 2 * Z.of_nat (length samples))
      with (36 + Z.of_nat (length samples) * 2) by lia.
    exact (le32_value_mod _). }
  split.
  { replace (2 * Z.of_nat (length samples))
      with (Z.of_nat (length samples) * 2) by lia.
    exact (le32_value_mod _). }
  rewrite drop_app_length' by reflexivity. rewrite wav_data_length. lia.
Qed.

Lemma wav_data_inj (s1 s2 : list Z) :
  Forall is_int16 s1 -> Forall is_int16 s2 -> wav_data s1 = wav_data s2 -> s1 = s2.
Proof.
  intros H1 H2 Heq.
  rewrite <- (read_samples_wav_data s1 H1), <- (read_samples_wav_data s2 H2).
  rewrite Heq. reflexivity.
Qed.

(** X10. On 16-bit samples the encoder is injective: two buffers have the
    same WAV bytes exactly when they are the same buffer. *)
Theorem buildWav_injective (s1 s2 : list Z)
    (H1 : Forall is_int16 s1) (H2 : Forall is_int16 s2) :
  Worklet.buildWav s1 = Worklet.buildWav s2 <-> s1 = s2.
Proof.
  split; [|intros ->; reflexivity].
  intros Heq.
  rewrite !buildWav_bytes in Heq.
  apply (f_equal (fun o => drop 44 (default [] o))) in Heq.
  cbn [default id] in Heq.
  rewrite !drop_app_length' in Heq by reflexivity.
  apply wav_data_inj; assumption.
Qed.

Lemma buildWav_injective_witness :
  Worklet.buildWav [1; -2; 32767] = Worklet.buildWav [1; -2; 32767]
  <-> [1; -2; 32767] = [1; -2; 32767].
Proof.
  apply (buildWav_injective [1; -2; 32767] [1; -2; 32767]).
  - repeat constructor; unfold is_int16; lia.
  - repeat constructor; unfold is_int16; lia.
Defined.

(** ** The clamped quantizer never leaves [-32767, 32767] *)

Lemma SFcompare_antisym (x y : JS.number) :
  SFcompare y x = option_map CompOpp (SFcompare x y).
Proof.
  destruct x as [sx|sx| |sx mx ex], y as [sy|sy| |sy my ey]; cbn [SFcompare option_map];
    try reflexivity;
    try (destruct sx; reflexivity); try (destruct sy; reflexivity);
    try (destruct sx, sy; reflexivity).
  assert (Hanti : Pos.compare_cont Eq my mx = CompOpp (Pos.compare_cont Eq mx my))
    by (rewrite Pos.compare_cont_antisym; reflexivity).
  destruct sx, sy; cbn [CompOpp]; try reflexivity;
    rewrite (Z.compare_antisym ex ey), Hanti;
    destruct (ex ?= ey); cbn [CompOpp]; try reflexivity;
    destruct (Pos.compare_cont Eq mx my); reflexivity.
Qed.

Lemma clamp_unit_cases (x : JS.number) :
  clamp_unit x = JS.NaN
  \/ clamp_unit x = JS.one
  \/ clamp_unit x = JS.of_Z (-1)
  \/ (clamp_unit x = x
      /\ JS.leb (JS.of_Z (-1)) x = true /\ JS.leb x JS.one = true).
Proof.
  unfold clamp_unit, JS.Math_min.
  pose proof (SFcompare_antisym JS.one x) as Hanti.
  assert (Hmax : forall c, SFcompare JS.one x = Some c -> c <> Lt ->
            JS.Math_max (JS.of_Z (-1)) x = JS.NaN
            \/ JS.Math_max (JS.of_Z (-1)) x = JS.one
            \/ JS.Math_max (JS.of_Z (-1)) x = JS.of_Z (-1)
            \/ (JS.Math_max (JS.of_Z (-1)) x = x
                /\ JS.leb (JS.of_Z (-1)) x = true /\ JS.leb x JS.one = true)).
  { intros c Hc Hne. rewrite Hc in Hanti. cbn [option_map] in Hanti.
    assert (Hhi : JS.leb x JS.one = true).
    { unfold JS.leb, SFleb. rewrite Hanti. destruct c; try reflexivity. congruence. }
    unfold JS.Math_max, JS.leb, SFleb.
    destruct (SFcompare (JS.of_Z (-1)) x) as [[| |]|] eqn:Hlo; auto.
    - change (JS.of_Z (-1)) with (S754_finite true 4503599627370496 (-52)).
      cbn match. right. right. right. auto.
    - right. right. right. auto. }
  destruct (SFcompare JS.one x) as [[| |]|] eqn:Hc.
  - change JS.one with (S754_finite false 4503599627370496 (-52)) at 1.
    cbn match. apply (Hmax Eq); [reflexivity | discriminate].
  - right. left. reflexivity.
  - apply (Hmax Gt); [reflexivity | discriminate].
  - left. reflexivity.
Qed.

Lemma scale_clamp_range (x : JS.number) :
  JS.valid x = true -> -32767 <= scale_to_int16 (clamp_unit x) <= 32767.
Proof.
  intros Hv.
  destruct (clamp_unit_cases x) as [->|[->|[->|(-> & Hlo & Hhi)]]].
  - change (scale_to_int16 JS.NaN) with 0. lia.
  - change (scale_to_int16 JS.one) with 32767. lia.
  - change (scale_to_int16 (JS.of_Z (-1))) with (-32767). lia.
  - destruct (quantize_in_range x Hv Hlo Hhi) as (z & _ & Hz & Hs).
    unfold scale_to_int16. rewrite Hs. exact Hz.
Qed.

(** X11. The worker's quantizer keeps the length and, on any well-formed
    binary64 input (infinities and NaN included), yields samples in
    -32767..32767: the value -32768 is never produced. *)
Theorem float32ToInt16_range (float32Data : list JS.number)
    (Hvalid : Forall (fun x => JS.valid x = true) float32Data) :
  length (Worker.float32ToInt16 float32Data) = length float32Data
  /\ Forall (fun v => -32767 <= v <= 32767) (Worker.float32ToInt16 float32Data).
Proof.
  rewrite float32ToInt16_map. split; [apply length_map|].
  apply Forall_fmap. eapply Forall_impl; [exact Hvalid|].
  intros x Hx. apply scale_clamp_range, Hx.
Qed.

Lemma float32ToInt16_range_witness :
  length (Worker.float32ToInt16 [JS.of_Z 2; JS.NaN; S754_infinity true; lit_1_5; lit_0_5]) = 5%nat
  /\ Forall (fun v => -32767 <= v <= 32767)
       (Worker.float32ToInt16 [JS.of_Z 2; JS.NaN; S754_infinity true; lit_1_5; lit_0_5]).
Proof.
  apply (float32ToInt16_range [JS.of_Z 2; JS.NaN; S754_infinity true; lit_1_5; lit_0_5]).
  repeat constructor.
Defined.

(** ** Exact integer arithmetic in binary64 *)

Lemma pow2_pos (k : Z) : 0 <= k -> 0 < 2 ^ k.
Proof. intros. apply Z.pow_pos_nonneg; lia. Qed.

Lemma mantissa_53 (m : positive) :
  Zpos (digits2_pos m) = 53 -> 2 ^ 52 <= Zpos m < 2 ^ 53.
Proof.
  intros Hd. pose proof (digits2_pos_le m). pose proof (digits2_pos_lt m).
  rewrite Hd in *. change (53 - 1) with 52 in *. lia.
Qed.

(** The product of two positive integers, when below 2^53, is computed
    exactly. *)
Lemma mul_of_Z (a b : positive) :
  Zpos a * Zpos b < 2 ^ 53 ->
  JS.mul (JS.of_Z (Zpos a)) (JS.of_Z (Zpos b)) = JS.of_Z (Zpos a * Zpos b).
Proof.
  intros Hab.
  assert (Ha : Zpos a < 2 ^ 53) by nia.
  assert (Hb : Zpos b < 2 ^ 53) by nia.
  destruct (of_Z_pos a Ha) as (m1 & e1 & -> & Hb1 & Hd1 & He1 & Hm1).
  destruct (of_Z_pos b Hb) as (m2 & e2 & -> & Hb2 & Hd2 & He2 & Hm2).
  change (Zpos a * Zpos b) with (Zpos (a * b)) in *.
  destruct (of_Z_pos (a * b) Hab) as (m & e & -> & Hbm & Hdm & Hem & Hm).
  pose proof (mantissa_53 m1 Hd1) as R1.
  pose proof (mantissa_53 m Hdm) as R.
  assert (Hee : e1 <= e).
  { destruct (Z.le_gt_cases e1 e) as [|Hlt]; [assumption|exfalso].
    assert (Hp : 2 ^ (- e) = 2 ^ (- e1) * 2 ^ (e1 - e)).
    { rewrite <- Z.pow_add_r by lia. f_equal. lia. }
    assert (2 <= 2 ^ (e1 - e)).
    { change 2 with (2 ^ 1) at 1. apply Z.pow_le_mono_r; lia. }
    pose proof (pow2_pos (- e1) ltac:(lia)).
    rewrite Pos2Z.inj_mul in Hm. rewrite Hp in Hm.
    assert (2 * Zpos m1 <= Zpos m); [|lia].
    rewrite Hm, Hm1. nia. }
  unfold JS.mul. cbn [SFmul xorb].
  replace (Zpos (m1 * m2)) with (Zpos m * 2 ^ (e - (e1 + e2))).
  - replace (e1 + e2) with (e - (e - (e1 + e2))) at 2 by lia.
    apply round_aux_exact; [lia | exact Hbm].
  - rewrite Pos2Z.inj_mul, Hm, Hm1, Hm2, Pos2Z.inj_mul.
    replace (e - (e1 + e2)) with (e + (- e1 + - e2)) by lia.
    replace (2 ^ (- e1)) with (2 ^ (- e1 + 0)) by (f_equal; lia).
    assert (Hsplit : 2 ^ (- e) * 2 ^ (e + (- e1 + - e2)) = 2 ^ (- e1) * 2 ^ (- e2)).
    { rewrite <- !Z.pow_add_r by lia. f_equal. lia. }
    replace (2 ^ (- e1 + 0)) with (2 ^ (- e1)) by (f_equal; lia).
    nia.
Qed.

Lemma mul_of_nat_3 (i : nat) :
  3 * Z.of_nat i < 2 ^ 53 ->
  JS.mul (JS.of_nat i) (JS.of_Z 3) = JS.of_nat (3 * i).
Proof.
  intros Hi. unfold JS.of_nat. rewrite Nat2Z.inj_mul.
  destruct (Z.of_nat i) as [|p|p] eqn:Hp; [reflexivity | | lia].
  change (Z.of_nat 3) with 3. rewrite (Z.mul_comm 3 (Zpos p)).
  apply mul_of_Z. lia.
Qed.

(** ** 48 kHz to 16 kHz: the interpolation weights are 1 and 0 *)

Lemma ratio_48k : JS.div rate48k (JS.of_Z 16000) = JS.of_Z 3.
Proof. reflexivity. Qed.

(** With weights 1 and 0 the interpolated value is the left sample, up to
    the sign of a zero. *)
Lemma weights_one_zero (g c : JS.number) :
  g = JS.NaN \/ (float32_sample g /\ JS.is_finite c = true) ->
  exists v,
    JS.add (JS.mul g (JS.sub JS.one JS.zero)) (JS.mul c JS.zero) = v
    /\ (g = JS.NaN -> v = JS.NaN)
    /\ (float32_sample g -> same_sample v g).
Proof.
  change (JS.sub JS.one JS.zero) with JS.one.
  intros [->|[(Hfin & Hval & Hrnd) Hc]].
  - exists JS.NaN. split; [reflexivity|]. split; [reflexivity|].
    intros (H & _). discriminate.
  - assert (Hz : exists sz, JS.mul c JS.zero = S754_zero sz).
    { destruct c as [s|s| |s m e]; try discriminate; eexists; reflexivity. }
    destruct Hz as [sz ->].
    destruct g as [s|s| |s m e]; try discriminate.
    + eexists. split; [reflexivity|]. split; [discriminate|]. intros _.
      destruct s, sz; split; try reflexivity; intros H; congruence.
    + rewrite mul_one_r by exact Hval.
      exists (S754_finite s m e). split; [reflexivity|]. split; [discriminate|].
      intros _. split; [apply eqb_refl_finite; reflexivity | reflexivity].
Qed.

Lemma same_sample_scale (v g : JS.number) :
  same_sample v g -> scale_to_int16 v = scale_to_int16 g.
Proof.
  intros [Heq Hsame].
  destruct g as [[|]|s| |s m e]; try (rewrite Hsame by discriminate; reflexivity).
  destruct v as [sv|sv| |sv mv ev]; try discriminate.
  - destruct sv; reflexivity.
  - destruct sv; discriminate.
  - destruct sv; discriminate.
Qed.

Lemma get_cases (x : list JS.number) (j : Z) :
  Forall float32_sample x ->
  JS.get x j = JS.NaN \/ float32_sample (JS.get x j).
Proof.
  intros Hx. unfold JS.get. destruct (0 <=? j); [|left; reflexivity].
  destruct (x !! Z.to_nat j) as [v|] eqn:Hv; [|left; reflexivity].
  right. exact (Forall_lookup_1 _ _ _ _ Hx Hv).
Qed.

Lemma get_in_range (x : list JS.number) (j : Z) :
  Forall float32_sample x -> 0 <= j < Z.of_nat (length x) ->
  float32_sample (JS.get x j).
Proof.
  intros Hx Hj. unfold JS.get.
  destruct (Z.leb_spec 0 j); [|lia].
  destruct (lookup_lt_is_Some_2 x (Z.to_nat j)) as [v Hv]; [lia|].
  rewrite Hv. exact (Forall_lookup_1 _ _ _ _ Hx Hv).
Qed.

(** One output position at ratio 3. *)
Lemma interpolate_ratio_3 (x : list JS.number) (i : nat) :
  Forall float32_sample x -> x <> [] -> 3 * Z.of_nat i < 2 ^ 53 ->
  exists v,
    interpolate x (JS.of_Z 3) i = v
    /\ (JS.get x (Z.of_nat (3 * i)) = JS.NaN -> v = JS.NaN)
    /\ (float32_sample (JS.get x (Z.of_nat (3 * i))) ->
        same_sample v (JS.get x (Z.of_nat (3 * i)))).
Proof.
  intros Hx Hne Hi. unfold interpolate.
  rewrite mul_of_nat_3 by exact Hi.
  destruct (of_nat_index (3 * i)) as (_ & Hfloor & Hsub); [lia|].
  rewrite Hfloor, Hsub.
  apply weights_one_zero.
  destruct (get_cases x (Z.of_nat (3 * i)) Hx) as [Hnan|Hs]; [left; exact Hnan|].
  right. split; [exact Hs|].
  apply get_in_range; [exact Hx|].
  destruct x; [congruence | cbn [length]; lia].
Qed.

Lemma scale_interpolate_ratio_3 (x : list JS.number) (i : nat) :
  Forall float32_sample x -> x <> [] -> 3 * Z.of_nat i < 2 ^ 53 ->
  scale_to_int16 (interpolate x (JS.of_Z 3) i)
  = scale_to_int16 (JS.get x (Z.of_nat (3 * i))).
Proof.
  intros Hx Hne Hi.
  destruct (interpolate_ratio_3 x i Hx Hne Hi) as (v & -> & Hnan & Hs).
  destruct (get_cases x (Z.of_nat (3 * i)) Hx) as [Hg|Hg].
  - rewrite (Hnan Hg), Hg. reflexivity.
  - apply same_sample_scale, Hs, Hg.
Qed.

(** ** Division by 3 in binary64 *)

Lemma digits_of_range (p : positive) (n : Z) :
  2 ^ (n - 1) <= Zpos p < 2 ^ n -> Zpos (digits2_pos p) = n.
Proof.
  intros [Hlo Hhi].
  pose proof (digits2_pos_bound p n Hhi) as Hle.
  pose proof (digits2_pos_lt p) as Hlt.
  destruct (Z.eq_dec (Zpos (digits2_pos p)) n) as [|Hne]; [assumption|exfalso].
  assert (2 ^ Zpos (digits2_pos p) <= 2 ^ (n - 1)) by (apply Z.pow_le_mono_r; lia).
  lia.
Qed.

Lemma shr_record_of_loc_fields (m : Z) (l : location) :
  shr_m (shr_record_of_loc m l) = m
  /\ loc_of_shr_record (shr_record_of_loc m l) = l.
Proof. destruct l as [|[| |]]; split; reflexivity. Qed.

Lemma round_nearest_even_step (m : Z) (l : location) :
  round_nearest_even m l = m \/ round_nearest_even m l = m + 1.
Proof.
  destruct l as [|[| |]]; cbn; auto. destruct (Z.even m); auto.
Qed.

Lemma floor_shiftl (m e : Z) : e <= 0 -> Z.shiftl m e = m / 2 ^ (- e).
Proof.
  intros He.
  rewrite <- (Z.opp_involutive e) at 1. rewrite Z.shiftl_opp_r.
  apply Z.shiftr_div_pow2. lia.
Qed.

(** The second normalisation of [binary_round_aux] on a mantissa in
    [2^52, 2^53]. *)
Lemma renormalize_floor (r1 e : Z) :
  2 ^ 52 <= r1 <= 2 ^ 53 -> -60 <= e <= -1 ->
  JS.floorZ
    (let '(mrs, e') := shr_fexp JS.prec JS.emax r1 e loc_Exact in
     match shr_m mrs with
     | Z0 => S754_zero false
     | Zpos m => if e' <=? JS.emax - JS.prec then S754_finite false m e'
                 else S754_infinity false
     | Zneg _ => S754_nan
     end) = Some (r1 / 2 ^ (- e)).
Proof.
  intros Hr He.
  destruct r1 as [|r|r]; try lia.
  destruct (Z.eq_dec (Zpos r) (2 ^ 53)) as [Heq|Hne].
  - change (2 ^ 53) with (Zpos 9007199254740992) in Heq.
    injection Heq as ->. unfold shr_fexp.
    change (Zdigits2 (Zpos 9007199254740992)) with 54.
    replace (fexp JS.prec JS.emax (54 + e) - e) with 1
      by (unfold fexp, emin, JS.prec, JS.emax; lia).
    cbn [shr_record_of_loc shr SpecFloat.iter_pos shr_1 shr_m].
    unfold JS.emax, JS.prec.
    destruct (Z.leb_spec (e + 1) (1024 - 53)); [|lia].
    cbn [JS.floorZ cond_Zopp]. f_equal.
    rewrite floor_shiftl by lia.
    replace (- e) with (1 + - (e + 1)) by lia.
    rewrite Z.pow_add_r by lia.
    change (2 ^ 1) with 2. change (Zpos 9007199254740992) with (4503599627370496 * 2).
    rewrite (Z.mul_comm 2), Z.div_mul_cancel_r; [reflexivity | | lia].
    apply Z.pow_nonzero; lia.
  - assert (Hd : Zpos (digits2_pos r) = 53) by (apply digits_of_range; change (53 - 1) with 52; lia).
    unfold shr_fexp. cbn [Zdigits2]. rewrite Hd.
    replace (fexp JS.prec JS.emax (53 + e) - e) with 0
      by (unfold fexp, emin, JS.prec, JS.emax; lia).
    cbn [shr_record_of_loc shr shr_m].
    unfold JS.emax, JS.prec.
    destruct (Z.leb_spec e (1024 - 53)); [|lia].
    cbn [JS.floorZ cond_Zopp]. f_equal. apply floor_shiftl. lia.
Qed.

(** Rounding a quotient mantissa in [2^52, 2^54): the result's integer part
    is that of the mantissa, or of the mantissa plus one unit, at the
    53-bit scale. *)
Lemma round_aux_enclosure (q0 e : Z) (l : location) :
  2 ^ 52 <= q0 < 2 ^ 54 -> -60 <= e <= -2 ->
  exists k r1,
    0 <= k <= 1
    /\ (r1 = q0 / 2 ^ k \/ r1 = q0 / 2 ^ k + 1)
    /\ JS.floorZ (binary_round_aux JS.prec JS.emax false q0 e l)
       = Some (r1 / 2 ^ (- (e + k))).
Proof.
  intros Hq He.
  destruct q0 as [|q|q]; try lia.
  unfold binary_round_aux.
  destruct (Z_lt_le_dec (Zpos q) (2 ^ 53)) as [Hlt|Hge].
  - assert (Hd : Zpos (digits2_pos q) = 53)
      by (apply digits_of_range; change (53 - 1) with 52; lia).
    unfold shr_fexp at 1. cbn [Zdigits2]. rewrite Hd.
    replace (fexp JS.prec JS.emax (53 + e) - e) with 0
      by (unfold fexp, emin, JS.prec, JS.emax; lia).
    cbn [shr].
    destruct (shr_record_of_loc_fields (Zpos q) l) as [-> ->].
    exists 0. eexists. split; [lia|]. split.
    + rewrite Z.pow_0_r, Z.div_1_r. apply round_nearest_even_step.
    + replace (e + 0) with e by lia.
      apply (renormalize_floor (round_nearest_even (Zpos q) l) e); [|lia].
      destruct (round_nearest_even_step (Zpos q) l) as [-> | ->]; lia.
  - assert (Hd : Zpos (digits2_pos q) = 54)
      by (apply digits_of_range; change (54 - 1) with 53; lia).
    unfold shr_fexp at 1. cbn [Zdigits2]. rewrite Hd.
    replace (fexp JS.prec JS.emax (54 + e) - e) with 1
      by (unfold fexp, emin, JS.prec, JS.emax; lia).
    cbn [shr SpecFloat.iter_pos].
    destruct (shr_record_of_loc_fields (Zpos q) l) as [Hm _].
    destruct (shr_1_fields (shr_record_of_loc (Zpos q) l)) as (Hm1 & _ & _);
      [rewrite Hm; lia|].
    rewrite Hm in Hm1.
    assert (Hhalf : 2 ^ 52 <= Zpos q / 2 < 2 ^ 53).
    { change (2 ^ 54) with (2 * 2 ^ 53) in Hq. change (2 ^ 53) with (2 * 2 ^ 52) in Hge.
      split; [apply Z.div_le_lower_bound; lia | apply Z.div_lt_upper_bound; lia]. }
    exists 1. eexists. split; [lia|]. split.
    + change (2 ^ 1) with 2. rewrite <- Hm1. apply round_nearest_even_step.
    + apply (renormalize_floor _ (e + 1)); [|lia].
      destruct (round_nearest_even_step (shr_m (shr_1 (shr_record_of_loc (Zpos q) l)))
                  (loc_of_shr_record (shr_1 (shr_record_of_loc (Zpos q) l))))
        as [-> | ->]; rewrite Hm1; lia.
Qed.

Lemma div3_floor_stable (L T : Z) :
  0 <= L -> 4 <= T ->
  (L * T / 3) / T = L / 3 /\ (L * T / 3 + 1) / T = L / 3.
Proof.
  intros HL HT.
  pose proof (Z.div_mod L 3 ltac:(lia)) as HLd.
  pose proof (Z.mod_pos_bound L 3 ltac:(lia)) as HLm.
  set (Q := L / 3) in *. set (rho := L mod 3) in *.
  assert (Hq1 : L * T / 3 = Q * T + rho * T / 3).
  { rewrite HLd. replace ((3 * Q + rho) * T) with (Q * T * 3 + rho * T) by ring.
    apply Z.div_add_l. lia. }
  pose proof (Z.div_mod (rho * T) 3 ltac:(lia)) as Hwd.
  pose proof (Z.mod_pos_bound (rho * T) 3 ltac:(lia)) as Hwm.
  set (w := rho * T / 3) in *.
  assert (Hw : 0 <= w /\ w + 1 < T) by nia.
  rewrite Hq1. split; symmetry.
  - apply Z.div_unique with (r := w); lia.
  - apply Z.div_unique with (r := w + 1); lia.
Qed.

Lemma ToIndex_of_Z (Q : Z) :
  0 <= Q < 2 ^ 53 -> JS.ToIndex (JS.of_Z Q) = Some (Z.to_nat Q).
Proof.
  intros HQ. destruct Q as [|p|p]; [reflexivity | | lia].
  destruct (of_Z_pos p ltac:(lia)) as (m & e & -> & _ & _ & He & Hm).
  cbn [JS.ToIndex cond_Zopp].
  rewrite (shiftl_exact p) by (try assumption; lia).
  destruct (Z.leb_spec 0 (Zpos p)); [|lia].
  destruct (Z.leb_spec (Zpos p) (2 ^ 53 - 1)); [|lia].
  reflexivity.
Qed.

Lemma ToIndex_floor (x : JS.number) (Q : Z) :
  JS.floorZ x = Some Q -> 0 <= Q < 2 ^ 53 ->
  JS.ToIndex (JS.Math_floor x) = Some (Z.to_nat Q).
Proof.
  intros Hf HQ. destruct x as [s|s| |s m e]; try discriminate.
  - injection Hf as <-. reflexivity.
  - unfold JS.Math_floor. rewrite Hf. apply ToIndex_of_Z, HQ.
Qed.

Lemma div_eucl_div (a b : Z) : fst (Z.div_eucl a b) = a / b.
Proof. reflexivity. Qed.

(** A block of [n] samples at 48 kHz yields exactly [n / 3] samples. *)
Lemma length_48k (n : nat) :
  Z.of_nat n < 2 ^ 52 ->
  JS.ToIndex (output_length n (JS.of_Z 3)) = Some (n / 3)%nat.
Proof.
  intros Hn. unfold output_length, JS.of_nat.
  destruct (Z.of_nat n) as [|p|p] eqn:Hp; [| |lia].
  { replace n with 0%nat by lia. reflexivity. }
  destruct (of_Z_pos p ltac:(lia)) as (m1 & e1 & -> & Hb1 & Hd1 & He1 & Hm1).
  pose proof (mantissa_53 m1 Hd1) as R1.
  assert (He1' : e1 <= -1).
  { destruct (Z.eq_dec e1 0) as [->|]; [|lia]. cbn in Hm1. lia. }
  change (JS.of_Z 3) with (S754_finite false 6755399441055744 (-51)).
  assert (Hfloor : JS.floorZ (JS.div (S754_finite false m1 e1)
                                     (S754_finite false 6755399441055744 (-51)))
                   = Some (Zpos p / 3)).
  { unfold JS.div. cbn [SFdiv xorb]. unfold SFdiv_core_binary. cbn [Zdigits2].
    rewrite Hd1. change (Zpos (digits2_pos 6755399441055744)) with 53.
    replace (Z.min (fexp JS.prec JS.emax (53 + e1 - (53 + -51))) (e1 - -51)) with (e1 - 2)
      by (unfold fexp, emin, JS.prec, JS.emax; lia).
    replace (e1 - -51 - (e1 - 2)) with 53 by lia.
    cbn match. rewrite Z.shiftl_mul_pow2 by lia.
    pose proof (div_eucl_div (Zpos m1 * 2 ^ 53) (Zpos 6755399441055744)) as Hq.
    destruct (Z.div_eucl (Zpos m1 * 2 ^ 53) (Zpos 6755399441055744)) as [q0 r0].
    cbn [fst] in Hq.
    assert (Hq0 : q0 = 4 * Zpos m1 / 3).
    { rewrite Hq. change (Zpos 6755399441055744) with (3 * 2 ^ 51).
      change (2 ^ 53) with (4 * 2 ^ 51).
      replace (Zpos m1 * (4 * 2 ^ 51)) with (4 * Zpos m1 * 2 ^ 51) by ring.
      apply Z.div_mul_cancel_r; lia. }
    assert (Hrange : 2 ^ 52 <= q0 < 2 ^ 54).
    { rewrite Hq0.
      change (2 ^ 52) with 4503599627370496 in *.
      change (2 ^ 53) with 9007199254740992 in *.
      change (2 ^ 54) with 18014398509481984.
      split; [apply Z.div_le_lower_bound; lia | apply Z.div_lt_upper_bound; lia]. }
    destruct (round_aux_enclosure q0 (e1 - 2) (new_location (Zpos 6755399441055744) r0)
                Hrange ltac:(lia)) as (k & r1 & Hk & Hr1 & ->).
    f_equal.
    set (T := 2 ^ (- (e1 - 2 + k))).
    assert (HT : 4 <= T).
    { unfold T. change 4 with (2 ^ 2). apply Z.pow_le_mono_r; lia. }
    assert (Hqk : q0 / 2 ^ k = Zpos p * T / 3).
    { rewrite Hq0. rewrite Z.div_div by (try apply pow2_pos; lia).
      assert (Hk2 : 0 < 2 ^ k) by (apply pow2_pos; lia).
      assert (HmT : 4 * Zpos m1 = Zpos p * T * 2 ^ k).
      { rewrite Hm1. unfold T.
        rewrite <- Z.mul_assoc, <- Z.pow_add_r by lia.
        replace (- (e1 - 2 + k) + k) with (- e1 + 2) by lia.
        rewrite Z.pow_add_r by lia. change (2 ^ 2) with 4. ring. }
      rewrite HmT. apply Z.div_mul_cancel_r; lia. }
    destruct (div3_floor_stable (Zpos p) T ltac:(lia) HT) as [Ha Hb].
    destruct Hr1 as [-> | ->]; rewrite Hqk; assumption. }
  rewrite (ToIndex_floor _ (Zpos p / 3) Hfloor).
  - f_equal. rewrite <- Hp. change 3 with (Z.of_nat 3).
    rewrite <- Nat2Z.inj_div. apply Nat2Z.id.
  - split; [apply Z.div_pos; lia|].
    apply Z.div_lt_upper_bound; [lia|].
    change (2 ^ 52) with 4503599627370496 in Hn.
    change (2 ^ 53) with 9007199254740992. lia.
Qed.

Lemma downsampleTo16k_48k (x : list JS.number) :
  Forall float32_sample x -> Z.of_nat (length x) < 2 ^ 52 ->
  Worklet.downsampleTo16k x rate48k = Some (decimate3 x).
Proof.
  intros Hx Hn.
  rewrite downsampleTo16k_elements, ratio_48k.
  pose proof (length_48k (length x) Hn) as Hl. unfold output_length in Hl.
  rewrite Hl. cbn [mbind option_bind]. f_equal.
  apply map_ext_in. intros i Hi. apply in_seq in Hi.
  assert (H3 : (3 * i < length x)%nat).
  { pose proof (Nat.div_mod_eq (length x) 3). lia. }
  apply scale_interpolate_ratio_3.
  - exact Hx.
  - intros ->. cbn in H3. lia.
  - change (2 ^ 52) with 4503599627370496 in Hn.
    change (2 ^ 53) with 9007199254740992. lia.
Qed.

(** X12. At 48 kHz the resampler is exact decimation by three: a block of n
    float32 samples gives n / 3 (rounded down) samples, the i-th being the
    quantization of input sample 3i, with no interpolation error. *)
Theorem downsample_48k_decimates (x : list JS.number) :
  Forall float32_sample x -> Z.of_nat (length x) < 2 ^ 52 ->
  exists out,
    Worklet.downsampleTo16k x rate48k = Some out
    /\ Controller.downsample x rate48k = Some out
    /\ length out = (length x / 3)%nat
    /\ forall i, (i < length x / 3)%nat ->
         exists v, x !! (3 * i)%nat = Some v /\ out !! i = Some (scale_to_int16 v).
Proof.
  intros Hx Hn. exists (decimate3 x).
  split; [apply downsampleTo16k_48k; assumption|].
  split; [apply downsampleTo16k_48k; assumption|].
  unfold decimate3.
  split; [rewrite length_map, length_seq; reflexivity|].
  intros i Hi.
  assert (H3 : (3 * i < length x)%nat).
  { pose proof (Nat.div_mod_eq (length x) 3). lia. }
  destruct (lookup_lt_is_Some_2 x (3 * i) H3) as [v Hv].
  exists v. split; [exact Hv|].
  rewrite list_lookup_fmap, lookup_seq_lt by exact Hi.
  cbn [fmap option_fmap option_map Nat.add].
  rewrite (get_lookup _ _ _ Hv). reflexivity.
Qed.

Lemma downsample_48k_decimates_witness :
  exists out,
    Worklet.downsampleTo16k (replicate 7 lit_0_5) rate48k = Some out
    /\ Controller.downsample (replicate 7 lit_0_5) rate48k = Some out
    /\ length out = (length (replicate 7 lit_0_5) / 3)%nat
    /\ forall i, (i < length (replicate 7 lit_0_5) / 3)%nat ->
         exists v, replicate 7 lit_0_5 !! (3 * i)%nat = Some v
                   /\ out !! i = Some (scale_to_int16 v).
Proof.
  apply (downsample_48k_decimates (replicate 7 lit_0_5)).
  - repeat constructor.
  - vm_compute. reflexivity.
Defined.

(** ** Merging *)

(** X13. The three [mergeChunks] implementations never throw and return the
    concatenation of the chunks, in order; its length is the sum of the
    chunk lengths. *)
Theorem mergeChunks_concatenates (chunks : list (list Z)) :
  Worklet.mergeChunks chunks = Some (concat chunks)
  /\ Controller.mergeChunks chunks = Some (concat chunks)
  /\ Worker.mergeChunks chunks = Some (concat chunks)
  /\ length (concat chunks) = foldr (fun c total => (length c + total)%nat) 0%nat chunks.
Proof.
  split; [apply mergeChunks_concat|].
  split; [apply Controller_mergeChunks_concat|].
  split; [apply Controller_mergeChunks_concat|].
  induction chunks as [|c chunks IH]; [reflexivity|].
  cbn [concat foldr]. rewrite length_app, IH. reflexivity.
Qed.

(** ** The absolute-silence tests are subsumed by the RMS tests *)

Lemma Controller_all_zero (samples : list Z) :
  Controller.isAbsolutelySilent samples = true -> Forall (fun v => v = 0) samples.
Proof.
  unfold Controller.isAbsolutelySilent. intros H.
  apply Forall_forall. intros v Hv.
  rewrite forallb_forall in H. apply Z.eqb_eq, H.
  apply list_elem_of_In, Hv.
Qed.

Lemma float_all_zero (samples : list JS.number) :
  Offload.isAbsolutelySilentFloat32 samples = true ->
  Forall (fun s => exists sg, s = S754_zero sg) samples.
Proof.
  induction samples as [|s rest IH]; cbn [Offload.isAbsolutelySilentFloat32];
    intros H; [constructor|].
  destruct (JS.neb s JS.zero) eqn:Hs; [discriminate|].
  constructor; [|apply IH, H].
  unfold JS.neb, SFeqb in Hs.
  destruct s as [sg|sg| |sg m e]; cbn in Hs; try discriminate.
  - eexists; reflexivity.
  - destruct sg; discriminate.
  - destruct sg; discriminate.
Qed.

Lemma float_sum_squares_zero (samples : list JS.number) :
  Forall (fun s => exists sg, s = S754_zero sg) samples ->
  foldl (fun sumOfSquares s => JS.add sumOfSquares (JS.mul s s)) JS.zero samples
  = JS.zero.
Proof.
  induction 1 as [|s rest [sg ->] _ IH]; [reflexivity|].
  cbn [foldl]. destruct sg; exact IH.
Qed.

(** X14. On a non-empty block the absolute-silence test adds nothing to the
    RMS test it is or-ed with: in [AudioRecorder] on PCM16 blocks and in the
    worker-offloaded recorder on float blocks, a block that is all zeros is
    also below the RMS threshold. *)
Theorem absolute_silence_test_redundant (pcm16 : list Z) (float32 : list JS.number)
    (Hpcm : pcm16 <> []) (Hfloat : float32 <> [])
    (Hpcm_len : Z.of_nat (length pcm16) < 2 ^ 53)
    (Hfloat_len : Z.of_nat (length float32) < 2 ^ 53) :
  Controller.isAbsolutelySilent pcm16 || Controller.isBelowThreshold pcm16
  = Controller.isBelowThreshold pcm16
  /\ Offload.isAbsolutelySilentFloat32 float32 || Offload.isBelowThresholdFloat32 float32
     = Offload.isBelowThresholdFloat32 float32.
Proof.
  split.
  - destruct (Controller.isAbsolutelySilent pcm16) eqn:Hz; [|reflexivity].
    cbn [orb]. symmetry.
    exact (all_zero_rms_silent pcm16 Hpcm Hpcm_len (Controller_all_zero pcm16 Hz)).
  - destruct (Offload.isAbsolutelySilentFloat32 float32) eqn:Hz; [|reflexivity].
    cbn [orb]. symmetry. unfold Offload.isBelowThresholdFloat32.
    rewrite (float_sum_squares_zero float32 (float_all_zero float32 Hz)).
    rewrite rms_of_zero_sum; [reflexivity | | exact Hfloat_len].
    destruct float32; [congruence | cbn; lia].
Qed.

Lemma absolute_silence_test_redundant_witness :
  Controller.isAbsolutelySilent zero_pcm16k || Controller.isBelowThreshold zero_pcm16k
  = Controller.isBelowThreshold zero_pcm16k
  /\ Offload.isAbsolutelySilentFloat32 zero_block || Offload.isBelowThresholdFloat32 zero_block
     = Offload.isBelowThresholdFloat32 zero_block.
Proof.
  apply (absolute_silence_test_redundant zero_pcm16k zero_block).
  - discriminate.
  - discriminate.
  - vm_compute. reflexivity.
  - vm_compute. reflexivity.
Defined.

(** ** The worker pipeline and the main-thread pipeline on in-range audio *)

Lemma clamp_in_unit (x : JS.number) : in_unit x -> clamp_unit x = x.
Proof.
  intros [Hlo Hhi]. unfold clamp_unit.
  assert (Hmin : JS.Math_min JS.one x = x).
  { unfold JS.Math_min. pose proof (SFcompare_antisym x JS.one) as Hanti.
    unfold JS.leb, SFleb in Hhi.
    destruct (SFcompare x JS.one) as [[| |]|]; try discriminate;
      cbn [option_map CompOpp] in Hanti; rewrite Hanti; reflexivity. }
  rewrite Hmin. unfold JS.Math_max. unfold JS.leb, SFleb in Hlo.
  destruct (SFcompare (JS.of_Z (-1)) x) as [[| |]|]; try discriminate; reflexivity.
Qed.

Lemma same_sample_cases (v g : JS.number) :
  same_sample v g -> v = g \/ (exists s, v = S754_zero s) /\ g = S754_zero true.
Proof.
  intros [Heq Hsame].
  destruct g as [[|]|sg| |sg mg eg]; try (left; apply Hsame; discriminate).
  right. split; [|reflexivity].
  unfold JS.eqb, SFeqb in Heq.
  destruct v as [s|s| |s m e]; cbn in Heq; try discriminate.
  - eexists; reflexivity.
  - destruct s; discriminate.
  - destruct s; discriminate.
Qed.

Lemma in_unit_zero (s : bool) : in_unit (S754_zero s).
Proof. destruct s; split; reflexivity. Qed.

Lemma clamp_fround_same (v g : JS.number) :
  float32_sample g -> in_unit g -> same_sample v g ->
  clamp_unit (JS.fround v) = v.
Proof.
  intros (_ & _ & Hrnd) Hunit Hsame.
  destruct (same_sample_cases v g Hsame) as [->|[[s ->] _]].
  - rewrite Hrnd. apply clamp_in_unit, Hunit.
  - cbn [JS.fround]. apply clamp_in_unit, in_unit_zero.
Qed.

Lemma scale_interpolate_unity (x : list JS.number) (i : nat) (xi : JS.number) :
  Forall float32_sample x -> Z.of_nat (length x) < 2 ^ 53 -> x !! i = Some xi ->
  same_sample (interpolate x JS.one i) xi.
Proof.
  intros Hx Hlen Hxi.
  assert (Hi : (i < length x)%nat) by (apply lookup_lt_is_Some_1; eauto).
  unfold interpolate.
  destruct (of_nat_index i) as (Hmul & Hfloor & Hsub); [lia|].
  rewrite Hmul, Hfloor, Hsub. rewrite (get_lookup _ _ _ Hxi).
  destruct (weights_one_zero xi
              (JS.get x (Z.min (Z.of_nat i + 1) (Z.of_nat (length x) - 1))))
    as (v & -> & _ & Hs).
  - right. split; [apply (Forall_lookup_1 _ _ _ _ Hx Hxi)|].
    apply get_neighbour; assumption.
  - apply Hs, (Forall_lookup_1 _ _ _ _ Hx Hxi).
Qed.

Lemma Worker_convert_agrees (st0 : Worker.state) (b : list JS.number) :
  Forall float32_sample b -> Forall in_unit b -> Z.of_nat (length b) < 2 ^ 52 ->
  Worker_convert (fst (Worker.onmessage st0 (Worker.Init rate48k))) b
  = Worklet.downsampleTo16k b rate48k
  /\ Worker_convert (fst (Worker.onmessage st0 (Worker.Init rate16k))) b
     = Worklet.downsampleTo16k b rate16k.
Proof.
  intros Hsamples Hrange Hlen.
  assert (Hlen' : Z.of_nat (length b) < 2 ^ 53).
  { change (2 ^ 52) with 4503599627370496 in Hlen.
    change (2 ^ 53) with 9007199254740992. lia. }
  split.
  - unfold Worker_convert.
    change (Worker.needsDownsampling (fst (Worker.onmessage st0 (Worker.Init rate48k))))
      with true.
    change (Worker.sourceSampleRate (fst (Worker.onmessage st0 (Worker.Init rate48k))))
      with rate48k.
    cbn match.
    rewrite Worker_downsample_elements, downsampleTo16k_elements.
    change (JS.div rate48k (JS.of_Z Worker.TARGET_SAMPLE_RATE)) with (JS.of_Z 3).
    change (JS.div rate48k (JS.of_Z 16000)) with (JS.of_Z 3).
    rewrite (length_48k (length b) Hlen).
    pose proof (length_48k (length b) Hlen) as Hl. unfold output_length in Hl.
    rewrite Hl. cbn [mbind option_bind]. f_equal.
    rewrite float32ToInt16_map, map_map.
    apply map_ext_in. intros i Hi. apply in_seq in Hi.
    assert (H3 : (3 * i < length b)%nat).
    { pose proof (Nat.div_mod_eq (length b) 3). lia. }
    destruct (lookup_lt_is_Some_2 b (3 * i) H3) as [g Hg].
    pose proof (Forall_lookup_1 _ _ _ _ Hsamples Hg) as Hgs.
    pose proof (Forall_lookup_1 _ _ _ _ Hrange Hg) as Hgu.
    destruct (interpolate_ratio_3 b i Hsamples) as (v & Hv & _ & Hsame).
    { intros ->. cbn in H3. lia. }
    { change (2 ^ 53) with 9007199254740992 in *. lia. }
    rewrite (get_lookup _ _ _ Hg) in Hsame.
    rewrite Hv, (clamp_fround_same v g Hgs Hgu (Hsame Hgs)). reflexivity.
  - unfold Worker_convert.
    change (Worker.needsDownsampling (fst (Worker.onmessage st0 (Worker.Init rate16k))))
      with false.
    cbn match. cbn [mbind option_bind].
    rewrite downsampleTo16k_elements.
    change (JS.div rate16k (JS.of_Z 16000)) with JS.one.
    rewrite (unity_length (length b) Hlen'). cbn [mbind option_bind]. f_equal.
    rewrite float32ToInt16_map.
    apply list_eq. intros i. rewrite !list_lookup_fmap.
    destruct (b !! i) as [xi|] eqn:Hxi.
    + rewrite lookup_seq_lt by (apply lookup_lt_is_Some_1; eauto).
      cbn [fmap option_fmap option_map Nat.add]. f_equal.
      rewrite (clamp_in_unit xi (Forall_lookup_1 _ _ _ _ Hrange Hxi)).
      symmetry. apply same_sample_scale.
      apply scale_interpolate_unity; assumption.
    + rewrite lookup_seq_ge by (apply lookup_ge_None_1; exact Hxi). reflexivity.
Qed.

(** X15. On blocks of float32 samples within [-1, 1] the worker pipeline
    ([downsample] to a [Float32Array], then the clamping [float32ToInt16])
    and the main-thread resampler [downsampleTo16k] give the same PCM16
    block, at 48 kHz and at 16 kHz: the clamp and the intermediate float32
    store change nothing there. *)
Theorem worker_agrees_with_main_thread (st0 : Worker.state) (b : list JS.number)
    (Hsamples : Forall float32_sample b) (Hrange : Forall in_unit b)
    (Hlen : Z.of_nat (length b) < 2 ^ 52) :
  Worker_convert (fst (Worker.onmessage st0 (Worker.Init rate48k))) b
  = Worklet.downsampleTo16k b rate48k
  /\ Worker_convert (fst (Worker.onmessage st0 (Worker.Init rate16k))) b
     = Worklet.downsampleTo16k b rate16k.
Proof. exact (Worker_convert_agrees st0 b Hsamples Hrange Hlen). Qed.

Lemma worker_agrees_with_main_thread_witness :
  Worker_convert (fst (Worker.onmessage Worker.initial (Worker.Init rate48k))) loud_block
  = Worklet.downsampleTo16k loud_block rate48k
  /\ Worker_convert (fst (Worker.onmessage Worker.initial (Worker.Init rate16k))) loud_block
     = Worklet.downsampleTo16k loud_block rate16k.
Proof.
  apply (worker_agrees_with_main_thread Worker.initial loud_block).
  - apply Forall_replicate. repeat split.
  - apply Forall_replicate. split; reflexivity.
  - vm_compute. reflexivity.
Defined.

(** ** Binary64 arithmetic: ordering of normal numbers *)

Lemma ltb_lex (m mt : positive) (e et : Z) :
  JS.ltb (S754_finite false m e) (S754_finite false mt et)
  = (e <? et) || ((e =? et) && (Zpos m <? Zpos mt)).
Proof.
  unfold JS.ltb, SFltb. cbn [SFcompare].
  destruct (Z.compare_spec e et) as [->|Hlt|Hgt].
  - rewrite Z.ltb_irrefl, Z.eqb_refl. cbn [orb andb].
    unfold Z.ltb. cbn [Z.compare]. unfold Pos.compare.
    destruct (Pos.compare_cont Eq m mt); reflexivity.
  - destruct (Z.ltb_spec e et); [reflexivity | lia].
  - destruct (Z.ltb_spec e et); [lia|].
    destruct (Z.eqb_spec e et); [lia | reflexivity].
Qed.

(** Two 53-bit mantissas compare as the numbers they denote. *)
Lemma ltb_value (m mt : positive) (e et e0 : Z) :
  2 ^ 52 <= Zpos m < 2 ^ 53 -> 2 ^ 52 <= Zpos mt < 2 ^ 53 ->
  e0 <= e -> e0 <= et ->
  JS.ltb (S754_finite false m e) (S754_finite false mt et)
  = (Zpos m * 2 ^ (e - e0) <? Zpos mt * 2 ^ (et - e0)).
Proof.
  intros Hm Hmt He Het. rewrite ltb_lex.
  change (2 ^ 53) with (2 * 2 ^ 52) in *.
  assert (P52 : 0 < 2 ^ 52) by (apply pow2_pos; lia).
  destruct (Z.lt_trichotomy e et) as [Hlt|[->|Hgt]].
  - destruct (Z.ltb_spec e et); [|lia]. cbn [orb]. symmetry. apply Z.ltb_lt.
    replace (et - e0) with ((e - e0) + 1 + (et - e - 1)) by lia.
    rewrite !Z.pow_add_r by lia. change (2 ^ 1) with 2.
    pose proof (pow2_pos (e - e0) ltac:(lia)) as HA.
    pose proof (pow2_pos (et - e - 1) ltac:(lia)) as HB.
    set (A := 2 ^ (e - e0)) in *. set (B := 2 ^ (et - e - 1)) in *.
    set (c := 2 ^ 52) in *.
    assert (Zpos m * A < 2 * c * A) by (apply Z.mul_lt_mono_pos_r; lia).
    assert (2 * c * A <= Zpos mt * 2 * A) by nia.
    assert (Zpos mt * 2 * A * 1 <= Zpos mt * 2 * A * B)
      by (apply Z.mul_le_mono_nonneg_l; nia).
    lia.
  - rewrite Z.ltb_irrefl, Z.eqb_refl. cbn [orb andb].
    pose proof (pow2_pos (et - e0) ltac:(lia)).
    destruct (Z.ltb_spec (Zpos m) (Zpos mt)); symmetry;
      [apply Z.ltb_lt | apply Z.ltb_ge]; nia.
  - destruct (Z.ltb_spec e et); [lia|]. destruct (Z.eqb_spec e et); [lia|].
    cbn [orb andb]. symmetry. apply Z.ltb_ge.
    replace (e - e0) with ((et - e0) + 1 + (e - et - 1)) by lia.
    rewrite !Z.pow_add_r by lia. change (2 ^ 1) with 2.
    pose proof (pow2_pos (et - e0) ltac:(lia)) as HA.
    pose proof (pow2_pos (e - et - 1) ltac:(lia)) as HB.
    set (A := 2 ^ (et - e0)) in *. set (B := 2 ^ (e - et - 1)) in *.
    set (c := 2 ^ 52) in *.
    assert (Zpos mt * A < 2 * c * A) by (apply Z.mul_lt_mono_pos_r; lia).
    assert (2 * c * A <= Zpos m * 2 * A) by nia.
    assert (Zpos m * 2 * A * 1 <= Zpos m * 2 * A * B)
      by (apply Z.mul_le_mono_nonneg_l; nia).
    lia.
Qed.

(** ** Binary64 arithmetic: rounding a 53- or 54-bit mantissa *)

Lemma renormalize_float (r1 e : Z) :
  2 ^ 52 <= r1 <= 2 ^ 53 -> -300 <= e <= 950 ->
  exists m' e',
    (let '(mrs, e') := shr_fexp JS.prec JS.emax r1 e loc_Exact in
     match shr_m mrs with
     | Z0 => S754_zero false
     | Zpos m => if e' <=? JS.emax - JS.prec then S754_finite false m e'
                 else S754_infinity false
     | Zneg _ => S754_nan
     end) = S754_finite false m' e'
    /\ 2 ^ 52 <= Zpos m' < 2 ^ 53
    /\ e <= e' <= e + 1
    /\ Zpos m' * 2 ^ (e' - e) = r1.
Proof.
  intros Hr He.
  destruct r1 as [|r|r]; try lia.
  destruct (Z.eq_dec (Zpos r) (2 ^ 53)) as [Heq|Hne].
  - change (2 ^ 53) with (Zpos 9007199254740992) in Heq.
    injection Heq as ->. unfold shr_fexp.
    change (Zdigits2 (Zpos 9007199254740992)) with 54.
    replace (fexp JS.prec JS.emax (54 + e) - e) with 1
      by (unfold fexp, emin, JS.prec, JS.emax; lia).
    cbn [shr_record_of_loc shr SpecFloat.iter_pos shr_1 shr_m].
    unfold JS.emax, JS.prec.
    destruct (Z.leb_spec (e + 1) (1024 - 53)); [|lia].
    exists 4503599627370496%positive, (e + 1).
    split; [reflexivity|]. split; [split; [reflexivity | reflexivity]|].
    split; [lia|]. replace (e + 1 - e) with 1 by lia. reflexivity.
  - assert (Hd : Zpos (digits2_pos r) = 53)
      by (apply digits_of_range; change (53 - 1) with 52; lia).
    unfold shr_fexp. cbn [Zdigits2]. rewrite Hd.
    replace (fexp JS.prec JS.emax (53 + e) - e) with 0
      by (unfold fexp, emin, JS.prec, JS.emax; lia).
    cbn [shr_record_of_loc shr shr_m].
    unfold JS.emax, JS.prec.
    destruct (Z.leb_spec e (1024 - 53)); [|lia].
    exists r, e. split; [reflexivity|]. split; [lia|]. split; [lia|].
    rewrite Z.sub_diag. lia.
Qed.

(** Rounding a mantissa [q0] in [2^52, 2^54) at exponent [e]: the result is
    a normal number, one of the two neighbours of [q0 * 2^e] on the grid
    of 53-bit mantissas. *)
Lemma round_aux_float (q0 e : Z) (l : location) :
  2 ^ 52 <= q0 < 2 ^ 54 -> -300 <= e <= 900 ->
  exists m' e' k,
    binary_round_aux JS.prec JS.emax false q0 e l = S754_finite false m' e'
    /\ 2 ^ 52 <= Zpos m' < 2 ^ 53
    /\ 0 <= k <= 1
    /\ 2 ^ 52 <= q0 / 2 ^ k < 2 ^ 53
    /\ e + k <= e' <= e + k + 1
    /\ q0 / 2 ^ k <= Zpos m' * 2 ^ (e' - (e + k)) <= q0 / 2 ^ k + 1.
Proof.
  intros Hq He.
  destruct q0 as [|q|q]; try lia.
  unfold binary_round_aux.
  destruct (Z_lt_le_dec (Zpos q) (2 ^ 53)) as [Hlt|Hge].
  - assert (Hd : Zpos (digits2_pos q) = 53)
      by (apply digits_of_range; change (53 - 1) with 52; lia).
    unfold shr_fexp at 1. cbn [Zdigits2]. rewrite Hd.
    replace (fexp JS.prec JS.emax (53 + e) - e) with 0
      by (unfold fexp, emin, JS.prec, JS.emax; lia).
    cbn [shr].
    destruct (shr_record_of_loc_fields (Zpos q) l) as [-> ->].
    destruct (renormalize_float (round_nearest_even (Zpos q) l) e)
      as (m' & e' & Hres & Hm' & He' & Hval); [|lia|].
    { destruct (round_nearest_even_step (Zpos q) l) as [-> | ->]; lia. }
    exists m', e', 0. split; [exact Hres|]. split; [exact Hm'|].
    rewrite Z.pow_0_r, Z.div_1_r. replace (e + 0) with e by lia.
    split; [lia|]. split; [lia|]. split; [lia|]. rewrite Hval.
    destruct (round_nearest_even_step (Zpos q) l) as [-> | ->]; lia.
  - assert (Hd : Zpos (digits2_pos q) = 54)
      by (apply digits_of_range; change (54 - 1) with 53; lia).
    unfold shr_fexp at 1. cbn [Zdigits2]. rewrite Hd.
    replace (fexp JS.prec JS.emax (54 + e) - e) with 1
      by (unfold fexp, emin, JS.prec, JS.emax; lia).
    cbn [shr SpecFloat.iter_pos].
    destruct (shr_record_of_loc_fields (Zpos q) l) as [Hm _].
    destruct (shr_1_fields (shr_record_of_loc (Zpos q) l)) as (Hm1 & _ & _);
      [rewrite Hm; lia|].
    rewrite Hm in Hm1.
    assert (Hhalf : 2 ^ 52 <= Zpos q / 2 < 2 ^ 53).
    { change (2 ^ 54) with (2 * 2 ^ 53) in Hq. change (2 ^ 53) with (2 * 2 ^ 52) in Hge.
      split; [apply Z.div_le_lower_bound; lia | apply Z.div_lt_upper_bound; lia]. }
    set (mrs := shr_1 (shr_record_of_loc (Zpos q) l)) in *.
    destruct (renormalize_float (round_nearest_even (shr_m mrs) (loc_of_shr_record mrs))
                (e + 1))
      as (m' & e' & Hres & Hm' & He' & Hval); [|lia|].
    { destruct (round_nearest_even_step (shr_m mrs) (loc_of_shr_record mrs))
        as [-> | ->]; rewrite Hm1; lia. }
    exists m', e', 1. split; [exact Hres|]. split; [exact Hm'|].
    change (2 ^ 1) with 2.
    split; [lia|]. split; [exact Hhalf|]. split; [lia|]. rewrite Hval.
    destruct (round_nearest_even_step (shr_m mrs) (loc_of_shr_record mrs))
      as [-> | ->]; rewrite Hm1; lia.
Qed.

(** ** Binary64 arithmetic: exact sums and squares of integers *)

Lemma round_aux_opp (M E : Z) (l : location) :
  binary_round_aux JS.prec JS.emax true M E l
  = SFopp (binary_round_aux JS.prec JS.emax false M E l).
Proof.
  unfold binary_round_aux.
  destruct (shr_fexp JS.prec JS.emax M E l) as [mrs' e'].
  destruct (shr_fexp JS.prec JS.emax _ e' loc_Exact) as [mrs'' e''].
  destruct (shr_m mrs'') as [|m|m]; try reflexivity.
  destruct (e'' <=? JS.emax - JS.prec); reflexivity.
Qed.

Lemma of_Z_neg (p : positive) : JS.of_Z (Zneg p) = SFopp (JS.of_Z (Zpos p)).
Proof.
  unfold JS.of_Z, binary_normalize, binary_round.
  destruct (shl_align p 0 _) as [mz ez].
  apply round_aux_opp.
Qed.

Lemma mul_square (v : Z) :
  v * v < 2 ^ 53 -> JS.mul (JS.of_Z v) (JS.of_Z v) = JS.of_Z (v * v).
Proof.
  intros Hv. destruct v as [|p|p]; [reflexivity | apply mul_of_Z; exact Hv |].
  rewrite of_Z_neg.
  change (Zneg p * Zneg p) with (Zpos p * Zpos p) in *.
  rewrite <- mul_of_Z by exact Hv.
  destruct (JS.of_Z (Zpos p)) as [s|s| |s m e]; try destruct s; reflexivity.
Qed.

(** Normalizing a mantissa that denotes an integer below 2^53 gives the
    number of that integer. *)
Lemma normalize_exact (M p : positive) (E : Z) :
  -60 <= E <= 0 -> Zpos M = Zpos p * 2 ^ (- E) -> Zpos p < 2 ^ 53 ->
  binary_normalize JS.prec JS.emax (Zpos M) E false = JS.of_Z (Zpos p).
Proof.
  intros HE HM Hp.
  destruct (of_Z_pos p Hp) as (m & e & -> & Hb & Hd & He & Hm).
  pose proof (mantissa_53 m Hd) as Rm.
  unfold binary_normalize, binary_round, shl_align.
  destruct (Z_le_gt_dec E e) as [Hle|Hgt].
  - assert (HMm : Zpos M = Zpos m * 2 ^ (e - E)).
    { rewrite HM, Hm, <- Z.mul_assoc, <- Z.pow_add_r by lia. do 2 f_equal. lia. }
    assert (HdM : Zpos (digits2_pos M) = 53 + (e - E)).
    { apply digits_of_range. rewrite HMm.
      replace (53 + (e - E) - 1) with (52 + (e - E)) by lia.
      rewrite !Z.pow_add_r by lia.
      pose proof (pow2_pos (e - E) ltac:(lia)). nia. }
    rewrite HdM.
    replace (53 + (e - E) + E) with (Zpos (digits2_pos m) + e) by lia.
    rewrite (proj1 (fexp_canonical m e Hb)).
    destruct (e - E) as [|k|k] eqn:Hk; try lia.
    + rewrite HMm, Z.pow_0_r, Z.mul_1_r. replace E with e by lia.
      apply round_aux_canonical, Hb.
    + rewrite HMm. replace E with (e - Zpos k) by lia.
      apply round_aux_exact; [lia | exact Hb].
  - assert (HmM : Zpos m = Zpos M * 2 ^ (E - e)).
    { rewrite HM, Hm, <- Z.mul_assoc, <- Z.pow_add_r by lia. do 2 f_equal. lia. }
    assert (HdM : Zpos (digits2_pos M) = 53 - (E - e)).
    { apply digits_of_range.
      pose proof (pow2_pos (E - e) ltac:(lia)) as HP.
      assert (H52 : 2 ^ 52 = 2 ^ (53 - (E - e) - 1) * 2 ^ (E - e)).
      { rewrite <- Z.pow_add_r by lia. f_equal. lia. }
      assert (H53 : 2 ^ 53 = 2 ^ (53 - (E - e)) * 2 ^ (E - e)).
      { rewrite <- Z.pow_add_r by lia. f_equal. lia. }
      rewrite H52, H53, HmM in Rm. nia. }
    rewrite HdM.
    replace (53 - (E - e) + E) with (Zpos (digits2_pos m) + e) by lia.
    rewrite (proj1 (fexp_canonical m e Hb)).
    destruct (e - E) as [|k|k] eqn:Hk; try lia.
    replace (Pos.iter xO M k) with m.
    + apply round_aux_canonical, Hb.
    + apply Pos2Z.inj_pos. rewrite iter_xO_value, HmM. do 2 f_equal. lia.
Qed.

Lemma add_of_Z (a b : Z) :
  0 <= a -> 0 <= b -> a + b < 2 ^ 53 ->
  JS.add (JS.of_Z a) (JS.of_Z b) = JS.of_Z (a + b).
Proof.
  intros Ha Hb Hab.
  destruct a as [|a|a]; [| |lia].
  { destruct b as [|b|b]; [reflexivity | | lia].
    change (0 + Zpos b) with (Zpos b) in *.
    destruct (of_Z_pos b Hab) as (m & e & Hm & _).
    rewrite Hm. reflexivity. }
  destruct b as [|b|b]; [| |lia].
  { rewrite Z.add_0_r in *.
    destruct (of_Z_pos a Hab) as (m & e & Hm & _). rewrite Hm. reflexivity. }
  destruct (of_Z_pos a ltac:(lia)) as (m1 & e1 & -> & Hb1 & Hd1 & He1 & Hm1).
  destruct (of_Z_pos b ltac:(lia)) as (m2 & e2 & -> & Hb2 & Hd2 & He2 & Hm2).
  unfold JS.add. cbn [SFadd cond_Zopp].
  set (ez := Z.min e1 e2).
  assert (Hal : forall m e, ez <= e ->
            Zpos (fst (shl_align m e ez)) = Zpos m * 2 ^ (e - ez)).
  { intros m e Hle. unfold shl_align.
    destruct (ez - e) as [|k|k] eqn:Hk; try lia; cbn [fst].
    - replace (e - ez) with 0 by lia. lia.
    - rewrite iter_xO_value. do 2 f_equal. lia. }
  rewrite (Hal m1 e1), (Hal m2 e2) by (unfold ez; lia).
  change (Zpos a + Zpos b) with (Zpos (a + b)) in *.
  assert (Hsum : Zpos m1 * 2 ^ (e1 - ez) + Zpos m2 * 2 ^ (e2 - ez)
                 = Zpos (a + b) * 2 ^ (- ez)).
  { rewrite Pos2Z.inj_add, Hm1, Hm2, <- !Z.mul_assoc, <- !Z.pow_add_r by (unfold ez; lia).
    replace (- e1 + (e1 - ez)) with (- ez) by lia.
    replace (- e2 + (e2 - ez)) with (- ez) by lia. ring. }
  pose proof (pow2_pos (e1 - ez) ltac:(unfold ez; lia)).
  pose proof (pow2_pos (e2 - ez) ltac:(unfold ez; lia)).
  destruct (Zpos m1 * 2 ^ (e1 - ez) + Zpos m2 * 2 ^ (e2 - ez)) as [|M|M] eqn:HM; try lia.
  apply normalize_exact; [unfold ez; lia | exact Hsum | exact Hab].
Qed.

Lemma sum_squares_exact (frame : list Z) (acc : Z) :
  Forall is_int16 frame -> 0 <= acc ->
  acc + Z.of_nat (length frame) * 2 ^ 30 < 2 ^ 53 ->
  foldl (fun sum v => JS.add sum (JS.mul (JS.of_Z v) (JS.of_Z v))) (JS.of_Z acc) frame
  = JS.of_Z (foldl (fun sum v => sum + v * v) acc frame)
  /\ acc <= foldl (fun sum v => sum + v * v) acc frame
     <= acc + Z.of_nat (length frame) * 2 ^ 30.
Proof.
  intros Hf. revert acc. induction Hf as [|v frame Hv _ IH]; intros acc Hacc Hbound.
  - cbn. split; [reflexivity | lia].
  - cbn [foldl]. cbn [length] in Hbound. rewrite Nat2Z.inj_succ in Hbound.
    assert (Hsq : 0 <= v * v <= 2 ^ 30).
    { unfold is_int16 in Hv. change (2 ^ 30) with (32768 * 32768). nia. }
    change (2 ^ 53) with 9007199254740992 in *. change (2 ^ 30) with 1073741824 in *.
    rewrite mul_square by (change (2 ^ 53) with 9007199254740992; lia).
    rewrite add_of_Z by (try change (2 ^ 53) with 9007199254740992; lia).
    destruct (IH (acc + v * v)) as [-> Hr]; [lia | lia |].
    split; [reflexivity|]. cbn [length]. rewrite Nat2Z.inj_succ. lia.
Qed.

(** ** Binary64 arithmetic: quotients and square roots of normal numbers *)

(** The quotient of two positive integers below 2^53 is a normal number,
    one of the two 53-bit neighbours of the exact quotient. *)
Lemma div_value (S n : positive) :
  Zpos S < 2 ^ 53 -> Zpos n < 2 ^ 53 ->
  exists m e E,
    JS.div (JS.of_Z (Zpos S)) (JS.of_Z (Zpos n)) = S754_finite false m e
    /\ 2 ^ 52 <= Zpos m < 2 ^ 53
    /\ -106 <= E <= 0
    /\ E <= e <= E + 1
    /\ 2 ^ 52 <= Zpos S * 2 ^ (- E) / Zpos n < 2 ^ 53
    /\ Zpos S * 2 ^ (- E) / Zpos n <= Zpos m * 2 ^ (e - E)
       <= Zpos S * 2 ^ (- E) / Zpos n + 1.
Proof.
  intros HS Hn.
  destruct (of_Z_pos S HS) as (m1 & e1 & -> & Hb1 & Hd1 & He1 & Hm1).
  destruct (of_Z_pos n Hn) as (m2 & e2 & -> & Hb2 & Hd2 & He2 & Hm2).
  pose proof (mantissa_53 m1 Hd1) as R1. pose proof (mantissa_53 m2 Hd2) as R2.
  unfold JS.div. cbn [SFdiv xorb]. unfold SFdiv_core_binary. cbn [Zdigits2].
  rewrite Hd1, Hd2.
  replace (Z.min (fexp JS.prec JS.emax (53 + e1 - (53 + e2))) (e1 - e2))
    with (e1 - e2 - 53) by (unfold fexp, emin, JS.prec, JS.emax; lia).
  replace (e1 - e2 - (e1 - e2 - 53)) with 53 by lia.
  cbn match. rewrite Z.shiftl_mul_pow2 by lia.
  pose proof (div_eucl_div (Zpos m1 * 2 ^ 53) (Zpos m2)) as Hq.
  destruct (Z.div_eucl (Zpos m1 * 2 ^ 53) (Zpos m2)) as [q0 r0].
  cbn [fst] in Hq.
  assert (Hrange : 2 ^ 52 <= q0 < 2 ^ 54).
  { rewrite Hq. change (2 ^ 54) with (2 * 2 ^ 53) in *.
    change (2 ^ 53) with (2 * 2 ^ 52) in *.
    set (c := 2 ^ 52) in *. assert (0 < c) by (unfold c; apply pow2_pos; lia).
    split; [apply Z.div_le_lower_bound | apply Z.div_lt_upper_bound]; nia. }
  destruct (round_aux_float q0 (e1 - e2 - 53) (new_location (Zpos m2) r0)
              Hrange ltac:(lia))
    as (m & e & k & Hres & Hm & Hk & Hg & He & Hval).
  exists m, e, (e1 - e2 - 53 + k).
  assert (Hquot : q0 / 2 ^ k = Zpos S * 2 ^ (- (e1 - e2 - 53 + k)) / Zpos n).
  { rewrite Hq, Z.div_div by (try apply pow2_pos; lia).
    pose proof (pow2_pos k ltac:(lia)) as Pk.
    pose proof (pow2_pos (- e2) ltac:(lia)) as P2.
    assert (Hnum : Zpos m1 * 2 ^ 53
                   = Zpos S * 2 ^ (- (e1 - e2 - 53 + k)) * (2 ^ (- e2) * 2 ^ k)).
    { rewrite Hm1, <- !Z.mul_assoc, <- !Z.pow_add_r by lia. do 2 f_equal. lia. }
    assert (Hden : Zpos m2 * 2 ^ k = Zpos n * (2 ^ (- e2) * 2 ^ k)) by (rewrite Hm2; ring).
    rewrite Hnum, Hden. apply Z.div_mul_cancel_r; lia. }
  rewrite <- Hquot.
  split; [exact Hres|]. split; [exact Hm|]. split; [lia|]. split; [lia|].
  split; [exact Hg | exact Hval].
Qed.

(** The square root of a positive normal number is a normal number, one
    of the two 53-bit neighbours of the exact root. *)
Lemma sqrt_value (m : positive) (e : Z) :
  2 ^ 52 <= Zpos m < 2 ^ 53 -> -200 <= e <= 200 ->
  exists mr er et,
    JS.sqrt (S754_finite false m e) = S754_finite false mr er
    /\ 2 ^ 52 <= Zpos mr < 2 ^ 53
    /\ et = (54 + e) / 2 - 53
    /\ 52 <= e - 2 * et <= 53
    /\ et <= er <= et + 1
    /\ Z.sqrt (Zpos m * 2 ^ (e - 2 * et)) <= Zpos mr * 2 ^ (er - et)
       <= Z.sqrt (Zpos m * 2 ^ (e - 2 * et)) + 1.
Proof.
  intros Hm He.
  assert (Hd : Zpos (digits2_pos m) = 53)
    by (apply digits_of_range; change (53 - 1) with 52; lia).
  unfold JS.sqrt. cbn [SFsqrt]. unfold SFsqrt_core_binary. cbn [Zdigits2].
  rewrite Hd, !Z.div2_div.
  set (et := (54 + e) / 2 - 53).
  pose proof (Z.div_mod (54 + e) 2 ltac:(lia)) as Hdm.
  pose proof (Z.mod_pos_bound (54 + e) 2 ltac:(lia)) as Hmb.
  pose proof (Z.div_mod e 2 ltac:(lia)) as Hdm'.
  pose proof (Z.mod_pos_bound e 2 ltac:(lia)) as Hmb'.
  replace (Z.min (fexp JS.prec JS.emax ((53 + e + 1) / 2)) (e / 2)) with et.
  2:{ unfold et, fexp, emin, JS.prec, JS.emax.
      replace (53 + e + 1) with (54 + e) by lia. lia. }
  assert (Hs : 52 <= e - 2 * et <= 53) by (unfold et; lia).
  destruct (e - 2 * et) as [|s|s] eqn:Es; try lia.
  rewrite Z.shiftl_mul_pow2 by lia.
  pose proof (Z.sqrtrem_sqrt (Zpos m * 2 ^ Zpos s)) as Hsq.
  destruct (Z.sqrtrem (Zpos m * 2 ^ Zpos s)) as [q r]. cbn [fst] in Hsq.
  assert (Hq : 2 ^ 52 <= q < 2 ^ 53).
  { rewrite Hsq.
    assert (Hlo : 2 ^ 52 * 2 ^ 52 <= Zpos m * 2 ^ Zpos s).
    { assert (2 ^ 52 <= 2 ^ Zpos s) by (apply Z.pow_le_mono_r; lia).
      pose proof (pow2_pos 52 ltac:(lia)). nia. }
    assert (Hhi : Zpos m * 2 ^ Zpos s < 2 ^ 53 * 2 ^ 53).
    { assert (2 ^ Zpos s <= 2 ^ 53) by (apply Z.pow_le_mono_r; lia).
      pose proof (pow2_pos (Zpos s) ltac:(lia)).
      pose proof (pow2_pos 53 ltac:(lia)). nia. }
    split.
    - apply Z.sqrt_le_square; [lia | apply Z.lt_le_incl, pow2_pos; lia | exact Hlo].
    - apply Z.sqrt_lt_square; [lia | apply Z.lt_le_incl, pow2_pos; lia | exact Hhi]. }
  match goal with
  | |- context [binary_round_aux JS.prec JS.emax false q et ?l] =>
      destruct (round_aux_float q et l) as (mr & er & k & Hres & Hmr & Hk & Hg & Her & Hval)
  end.
  { change (2 ^ 54) with (2 * 2 ^ 53). lia. }
  { unfold et. lia. }
  assert (k = 0).
  { destruct (Z.eq_dec k 0) as [|Hne]; [assumption|exfalso].
    replace k with 1 in Hg by lia. change (2 ^ 1) with 2 in Hg.
    assert (q / 2 < 2 ^ 52); [|lia].
    apply Z.div_lt_upper_bound; [lia|]. change (2 ^ 53) with (2 * 2 ^ 52) in Hq. lia. }
  subst k. rewrite Z.pow_0_r, Z.div_1_r in Hval. replace (et + 0) with et in * by lia.
  exists mr, er, et. rewrite Es, <- Hsq.
  split; [exact Hres|]. split; [exact Hmr|]. split; [reflexivity|].
  split; [lia|]. split; [lia | exact Hval].
Qed.

Lemma ltb_25 (mr : positive) (er et : Z) :
  2 ^ 52 <= Zpos mr < 2 ^ 53 -> et <= er -> et <= 0 ->
  JS.ltb (S754_finite false mr er) (JS.of_Z 25)
  = (Zpos mr * 2 ^ (er - et) <? 25 * 2 ^ (- et)).
Proof.
  intros Hm Her Het.
  change (JS.of_Z 25) with (S754_finite false 7036874417766400 (-48)).
  set (e0 := Z.min et (-48)).
  rewrite (ltb_value mr 7036874417766400 er (-48) e0) by (unfold e0; try split; lia).
  pose proof (pow2_pos (et - e0) ltac:(unfold e0; lia)) as Ps.
  assert (H1 : Zpos mr * 2 ^ (er - e0) = Zpos mr * 2 ^ (er - et) * 2 ^ (et - e0)).
  { rewrite <- Z.mul_assoc, <- Z.pow_add_r by (unfold e0; lia). do 2 f_equal. lia. }
  assert (H2 : Zpos 7036874417766400 * 2 ^ (-48 - e0) = 25 * 2 ^ (- et) * 2 ^ (et - e0)).
  { change (Zpos 7036874417766400) with (25 * 2 ^ 48).
    rewrite <- !Z.mul_assoc, <- !Z.pow_add_r by (unfold e0; lia). do 2 f_equal. lia. }
  rewrite H1, H2.
  destruct (Z.ltb_spec (Zpos mr * 2 ^ (er - et)) (25 * 2 ^ (- et)));
    [apply Z.ltb_lt | apply Z.ltb_ge]; nia.
Qed.

(** ** The RMS test, exactly *)

Lemma rms_below_25 (S n : positive) :
  Zpos S < 2 ^ 53 -> Zpos n <= 2 ^ 22 ->
  JS.ltb (JS.sqrt (JS.div (JS.of_Z (Zpos S)) (JS.of_Z (Zpos n)))) (JS.of_Z 25)
  = (Zpos S <? 625 * Zpos n).
Proof.
  intros HS Hn.
  assert (Hn53 : Zpos n < 2 ^ 53).
  { change (2 ^ 22) with 4194304 in Hn. change (2 ^ 53) with 9007199254740992. lia. }
  destruct (div_value S n HS Hn53) as (m & e & E & -> & Hm & HE & He & Hg & Hval).
  destruct (sqrt_value m e Hm ltac:(lia)) as (mr & er & et & -> & Hmr & Het & Hs & Her & Hroot).
  assert (Het0 : et <= -26).
  { subst et. assert ((54 + e) / 2 < 28); [|lia]. apply Z.div_lt_upper_bound; lia. }
  rewrite (ltb_25 mr er et Hmr) by lia.
  pose proof (pow2_pos (- E) ltac:(lia)) as PA.
  pose proof (pow2_pos (- et) ltac:(lia)) as PB.
  pose proof (pow2_pos (e - E) ltac:(lia)) as PD.
  assert (HPA : Zpos m * 2 ^ (e - 2 * et) * 2 ^ (- E)
                = Zpos m * 2 ^ (e - E) * (2 ^ (- et) * 2 ^ (- et))).
  { rewrite <- !Z.mul_assoc, <- !Z.pow_add_r by lia. do 2 f_equal. lia. }
  pose proof (Z.mul_div_le (Zpos S * 2 ^ (- E)) (Zpos n) ltac:(lia)) as Hg_lo.
  pose proof (Z.mul_succ_div_gt (Zpos S * 2 ^ (- E)) (Zpos n) ltac:(lia)) as Hg_hi.
  assert (HP0 : 0 <= Zpos m * 2 ^ (e - 2 * et)).
  { pose proof (pow2_pos (e - 2 * et) ltac:(lia)). nia. }
  pose proof (Z.sqrt_spec _ HP0) as Hsqrt.
  pose proof (Z.sqrt_nonneg (Zpos m * 2 ^ (e - 2 * et))) as Hqs0.
  set (P := Zpos m * 2 ^ (e - 2 * et)) in *.
  set (qs := Z.sqrt P) in *.
  set (g := Zpos S * 2 ^ (- E) / Zpos n) in *.
  set (V := Zpos mr * 2 ^ (er - et)) in *.
  set (MD := Zpos m * 2 ^ (e - E)) in *.
  destruct (Z.ltb_spec (Zpos S) (625 * Zpos n)) as [Hlt|Hge];
    [apply Z.ltb_lt | apply Z.ltb_ge].
  - (* below the threshold *)
    assert (HA : 2 ^ 43 <= 2 ^ (- E)).
    { destruct (Z_le_gt_dec 43 (- E)) as [|Hsmall]; [apply Z.pow_le_mono_r; lia|exfalso].
      assert (HA42 : 2 ^ (- E) <= 2 ^ 42) by (apply Z.pow_le_mono_r; lia).
      assert (Zpos n * g < Zpos n * (625 * 2 ^ 42)); [|
        change (2 ^ 52) with (4096 * 2 ^ 40) in Hg;
        change (2 ^ 42) with (4 * 2 ^ 40) in *; nia].
      eapply Z.le_lt_trans; [exact Hg_lo|].
      apply Z.lt_le_trans with (625 * Zpos n * 2 ^ (- E)).
      - apply Z.mul_lt_mono_pos_r; lia.
      - replace (Zpos n * (625 * 2 ^ 42)) with (625 * Zpos n * 2 ^ 42) by ring.
        apply Z.mul_le_mono_nonneg_l; lia. }
    assert (HB : 2 ^ 47 <= 2 ^ (- et)).
    { apply Z.pow_le_mono_r; [lia|]. subst et.
      assert ((54 + e) / 2 <= 6); [|lia].
      assert (HE43 : - E >= 43).
      { destruct (Z_le_gt_dec 43 (- E)) as [|Hsmall]; [lia|exfalso].
        assert (2 ^ (- E) <= 2 ^ 42) by (apply Z.pow_le_mono_r; lia).
        change (2 ^ 43) with (2 * 2 ^ 42) in HA. pose proof (pow2_pos 42 ltac:(lia)). lia. }
      assert ((54 + e) / 2 < 7); [|lia]. apply Z.div_lt_upper_bound; lia. }
    set (A := 2 ^ (- E)) in *. set (B := 2 ^ (- et)) in *.
    change (2 ^ 22) with 4194304 in Hn. change (2 ^ 43) with 8796093022208 in HA.
    change (2 ^ 47) with 140737488355328 in HB.
    assert (Hkey : Zpos n * B + 50 * Zpos n * A <= A * B).
    { assert (2 * (Zpos n * B) <= A * B) by nia.
      assert (2 * (50 * Zpos n * A) <= A * B) by nia. lia. }
    assert (HnAP : Zpos n * (P * A) <= ((625 * Zpos n - 1) * A + Zpos n) * (B * B)).
    { rewrite HPA.
      assert (Zpos n * MD <= (625 * Zpos n - 1) * A + Zpos n).
      { assert (Zpos n * MD <= Zpos n * (g + 1)) by (apply Z.mul_le_mono_nonneg_l; lia).
        assert (Zpos S * A <= (625 * Zpos n - 1) * A)
          by (apply Z.mul_le_mono_nonneg_r; lia).
        lia. }
      rewrite Z.mul_assoc. apply Z.mul_le_mono_nonneg_r; [nia | assumption]. }
    assert (HPlt : P < (25 * B - 1) * (25 * B - 1)).
    { assert (Zpos n * A * P < Zpos n * A * ((25 * B - 1) * (25 * B - 1))).
      { replace (Zpos n * A * P) with (Zpos n * (P * A)) by ring.
        eapply Z.le_lt_trans; [exact HnAP|].
        assert (B * (Zpos n * B + 50 * Zpos n * A) <= B * (A * B))
          by (apply Z.mul_le_mono_nonneg_l; lia).
        nia. }
      apply Z.mul_lt_mono_pos_l with (p := Zpos n * A); [nia | assumption]. }
    assert (qs < 25 * B - 1).
    { apply Z.sqrt_lt_square; [exact HP0 | lia | exact HPlt]. }
    lia.
  - (* at or above the threshold *)
    set (A := 2 ^ (- E)) in *. set (B := 2 ^ (- et)) in *.
    assert (Hg625 : 625 * A <= g).
    { apply Z.div_le_lower_bound; [lia|].
      replace (Zpos n * (625 * A)) with (625 * Zpos n * A) by ring.
      apply Z.mul_le_mono_nonneg_r; lia. }
    assert (HPge : (25 * B) * (25 * B) <= P).
    { assert (A * ((25 * B) * (25 * B)) <= A * P).
      { replace (A * P) with (P * A) by ring. rewrite HPA.
        replace (A * (25 * B * (25 * B))) with (625 * A * (B * B)) by ring.
        apply Z.mul_le_mono_nonneg_r; [nia | lia]. }
      apply Z.mul_le_mono_pos_l with (p := A); assumption. }
    assert (25 * B <= qs).
    { apply Z.sqrt_le_square; [exact HP0 | lia | exact HPge]. }
    lia.
Qed.

Lemma isSilentFrame_energy (frame : list Z) :
  frame <> [] -> Z.of_nat (length frame) <= 2 ^ 22 -> Forall is_int16 frame ->
  Worklet.isSilentFrame frame
  = (sum_of_squares frame <? 625 * Z.of_nat (length frame)).
Proof.
  intros Hnonempty Hlength Hsamples.
  unfold Worklet.isSilentFrame, sum_of_squares.
  change (2 ^ 22) with 4194304 in Hlength.
  destruct (sum_squares_exact frame 0 Hsamples ltac:(lia)) as [Hsum Hrange].
  { change (2 ^ 30) with 1073741824. change (2 ^ 53) with 9007199254740992. lia. }
  change (JS.of_Z 0) with JS.zero in Hsum. rewrite Hsum.
  change (2 ^ 30) with 1073741824 in Hrange.
  set (total := foldl (fun sum v => sum + v * v) 0 frame) in *.
  assert (Hn : 0 < Z.of_nat (length frame)).
  { destruct frame; [congruence | cbn [length]; lia]. }
  unfold JS.of_nat.
  destruct (Z.of_nat (length frame)) as [|n|n] eqn:En; try lia.
  destruct total as [|t|t] eqn:ES; [| |lia].
  - destruct (of_Z_pos n) as (m & e & -> & _).
    { change (2 ^ 53) with 9007199254740992. lia. }
    reflexivity.
  - apply rms_below_25.
    + change (2 ^ 53) with 9007199254740992. lia.
    + change (2 ^ 22) with 4194304. lia.
Qed.

(** X16. The RMS test is an exact integer comparison: on a non-empty frame
    of at most 2^22 16-bit samples, [isSilentFrame] (and
    [SilenceDetector.isBelowThreshold]) answers true exactly when the sum of
    the squares is below 625 times the number of samples; the binary64
    sum, quotient and square root never tip the comparison. *)
Theorem isSilentFrame_exact (frame : list Z)
    (Hnonempty : frame <> [])
    (Hlength : Z.of_nat (length frame) <= 2 ^ 22)
    (Hsamples : Forall is_int16 frame) :
  Worklet.isSilentFrame frame
  = (sum_of_squares frame <? 625 * Z.of_nat (length frame))
  /\ Controller.isBelowThreshold frame
     = (sum_of_squares frame <? 625 * Z.of_nat (length frame))
  /\ MediaRecorder.isSilentFrame frame
     = (sum_of_squares frame <? 625 * Z.of_nat (length frame)).
Proof.
  split; [|split]; apply isSilentFrame_energy; assumption.
Qed.

Lemma isSilentFrame_exact_witness :
  Worklet.isSilentFrame [30; -20; 24; 25]
  = (sum_of_squares [30; -20; 24; 25] <? 625 * Z.of_nat (length [30; -20; 24; 25]))
  /\ Controller.isBelowThreshold [30; -20; 24; 25]
     = (sum_of_squares [30; -20; 24; 25] <? 625 * Z.of_nat (length [30; -20; 24; 25]))
  /\ MediaRecorder.isSilentFrame [30; -20; 24; 25]
     = (sum_of_squares [30; -20; 24; 25] <? 625 * Z.of_nat (length [30; -20; 24; 25])).
Proof.
  apply (isSilentFrame_exact [30; -20; 24; 25]).
  - discriminate.
  - vm_compute. discriminate.
  - repeat constructor; unfold is_int16; lia.
Defined.

(** ** The diagnostics recorder *)

Lemma of_nat_succ (k : nat) :
  Z.of_nat k + 1 < 2 ^ 53 -> JS.add (JS.of_nat k) JS.one = JS.of_nat (S k).
Proof.
  intros Hk. unfold JS.of_nat, JS.one.
  rewrite add_of_Z by lia. f_equal. lia.
Qed.

Lemma of_nat_add (a b : nat) :
  Z.of_nat (a + b) < 2 ^ 53 -> JS.add (JS.of_nat a) (JS.of_nat b) = JS.of_nat (a + b).
Proof.
  intros Hab. unfold JS.of_nat.
  rewrite add_of_Z by lia. f_equal. lia.
Qed.

Lemma ltb_zero_zero : JS.ltb JS.zero (JS.of_nat 0) = false.
Proof. reflexivity. Qed.

(** One callback, from a state in which the context is open and the
    expected interval is set. *)
Lemma Diagnostics_step (flag : bool) (rate now : JS.number) (input : list JS.number)
    (st : Diagnostics.state) (k a b : nat) :
  Controller.audioContext (Diagnostics.recorder st) = Some rate ->
  is_Some (Diagnostics.expectedIntervalMs (Diagnostics.diag st)) ->
  Diagnostics.callbackCount (Diagnostics.diag st) = JS.of_nat k ->
  Diagnostics.totalSamplesReceived (Diagnostics.diag st) = JS.of_nat a ->
  Diagnostics.totalDownsampledSamples (Diagnostics.diag st) = JS.of_nat b ->
  Z.of_nat k + 1 < 2 ^ 53 ->
  Z.of_nat (a + length input) < 2 ^ 53 ->
  Z.of_nat (b + length (default [] (Controller.downsample input rate))) < 2 ^ 53 ->
  let st' := Diagnostics.onaudioprocess flag st (now, input) in
  Diagnostics.recorder st' = Controller.onaudioprocess flag (Diagnostics.recorder st) input
  /\ is_Some (Diagnostics.expectedIntervalMs (Diagnostics.diag st'))
  /\ Diagnostics.callbackCount (Diagnostics.diag st') = JS.of_nat (S k)
  /\ Diagnostics.totalSamplesReceived (Diagnostics.diag st') = JS.of_nat (a + length input)
  /\ Diagnostics.totalDownsampledSamples (Diagnostics.diag st')
     = JS.of_nat (b + length (default [] (Controller.downsample input rate)))
  /\ (length (Diagnostics.gaps (Diagnostics.diag st'))
      <= length (Diagnostics.gaps (Diagnostics.diag st)) + (if (k =? 0)%nat then 0 else 1))%nat.
Proof.
  intros Hctx Hexp Hcount Hin Hout Hk Ha Hb.
  destruct st as [rec d]. cbn [Diagnostics.recorder Diagnostics.diag] in *.
  unfold Diagnostics.onaudioprocess, Controller.onaudioprocess.
  cbn [Diagnostics.recorder Diagnostics.diag]. rewrite Hctx.
  destruct d as [st0 last count received produced actual gaps expected].
  cbn [Diagnostics.startTime Diagnostics.lastCallbackTime Diagnostics.callbackCount
       Diagnostics.totalSamplesReceived Diagnostics.totalDownsampledSamples
       Diagnostics.actualSampleRate Diagnostics.gaps Diagnostics.expectedIntervalMs] in *.
  subst count received produced.
  assert (Hsome : bool_decide (is_Some expected) = true) by (apply bool_decide_eq_true; exact Hexp).
  assert (Hgap : forall (c : bool) (g : Diagnostics.gap),
            (length (if JS.ltb JS.zero (JS.of_nat k) && c then gaps ++ [g] else gaps)
             <= length gaps + (if (k =? 0)%nat then 0 else 1))%nat).
  { intros c g. destruct k as [|k']; cbn [Nat.eqb].
    - rewrite ltb_zero_zero. cbn [andb]. lia.
    - destruct (_ && c); [rewrite length_app; cbn [length]; lia | lia]. }
  destruct st0 as [t0|];
    cbn [Diagnostics.startTime Diagnostics.lastCallbackTime Diagnostics.callbackCount
         Diagnostics.totalSamplesReceived Diagnostics.totalDownsampledSamples
         Diagnostics.actualSampleRate Diagnostics.gaps Diagnostics.expectedIntervalMs];
    rewrite Hsome; cbn [negb]; rewrite andb_false_r;
    rewrite of_nat_succ by exact Hk; rewrite of_nat_add by exact Ha.
  all: destruct (Controller.downsample input rate) as [pcm16|] eqn:Hds;
    cbn [default id] in Hb.
  all: try rewrite of_nat_add by exact Hb.
  all: try rewrite Nat.add_0_r.
  all: try destruct (flag && (length (Controller.recordedChunks rec) =? 0)%nat
                     && (Controller.isAbsolutelySilent pcm16
                         || Controller.isBelowThreshold pcm16)).
  all: cbn [Diagnostics.recorder Diagnostics.diag Diagnostics.callbackCount
            Diagnostics.totalSamplesReceived Diagnostics.totalDownsampledSamples
            Diagnostics.gaps Diagnostics.expectedIntervalMs].
  all: repeat (split; [first [reflexivity | exact Hexp]|]).
  all: apply Hgap.
Qed.

Lemma Controller_step_context (flag : bool) (rate : JS.number) (st : Controller.state)
    (b : list JS.number) :
  Controller.audioContext st = Some rate ->
  Controller.audioContext (Controller.onaudioprocess flag st b) = Some rate.
Proof. intros H. exact (proj1 (Controller_step_chunks flag rate st b H)). Qed.

Lemma Diagnostics_fold (flag : bool) (rate : JS.number)
    (events : list (JS.number * list JS.number)) (st : Diagnostics.state) (k a b : nat) :
  Controller.audioContext (Diagnostics.recorder st) = Some rate ->
  is_Some (Diagnostics.expectedIntervalMs (Diagnostics.diag st)) ->
  Diagnostics.callbackCount (Diagnostics.diag st) = JS.of_nat k ->
  Diagnostics.totalSamplesReceived (Diagnostics.diag st) = JS.of_nat a ->
  Diagnostics.totalDownsampledSamples (Diagnostics.diag st) = JS.of_nat b ->
  Z.of_nat (k + length events) < 2 ^ 53 ->
  Z.of_nat (a + length (concat (map snd events))) < 2 ^ 53 ->
  Z.of_nat (b + length (concat (omap (fun i => Controller.downsample i rate)
                                     (map snd events)))) < 2 ^ 53 ->
  let st' := foldl (Diagnostics.onaudioprocess flag) st events in
  Diagnostics.recorder st'
  = foldl (Controller.onaudioprocess flag) (Diagnostics.recorder st) (map snd events)
  /\ Diagnostics.callbackCount (Diagnostics.diag st') = JS.of_nat (k + length events)
  /\ Diagnostics.totalSamplesReceived (Diagnostics.diag st')
     = JS.of_nat (a + length (concat (map snd events)))
  /\ Diagnostics.totalDownsampledSamples (Diagnostics.diag st')
     = JS.of_nat (b + length (concat (omap (fun i => Controller.downsample i rate)
                                           (map snd events))))
  /\ (length (Diagnostics.gaps (Diagnostics.diag st'))
      <= length (Diagnostics.gaps (Diagnostics.diag st))
         + (length events - (if (k =? 0)%nat then 1 else 0)))%nat.
Proof.
  revert st k a b.
  induction events as [|[now input] events IH]; intros st k a b Hctx Hexp Hk Ha Hb Bk Ba Bb.
  - cbn. rewrite !Nat.add_0_r. repeat split; try assumption. lia.
  - cbn [foldl map snd concat length omap list_omap] in *.
    rewrite length_app in Ba.
    assert (Hout : length (concat (omap (fun i => Controller.downsample i rate)
                                        (input :: map snd events)))
                   = (length (default [] (Controller.downsample input rate))
                      + length (concat (omap (fun i => Controller.downsample i rate)
                                             (map snd events))))%nat).
    { cbn [omap list_omap]. destruct (Controller.downsample input rate);
        cbn [default id concat length]; [rewrite length_app|]; reflexivity. }
    cbn [omap list_omap] in Hout. rewrite Hout in Bb |- *.
    destruct (Diagnostics_step flag rate now input st k a b Hctx Hexp Hk Ha Hb)
      as (Hrec & Hexp' & Hk' & Ha' & Hb' & Hgaps); try lia.
    destruct (IH (Diagnostics.onaudioprocess flag st (now, input)) (S k)
                 (a + length input)%nat
                 (b + length (default [] (Controller.downsample input rate)))%nat)
      as (Hrec2 & Hk2 & Ha2 & Hb2 & Hgaps2); try assumption; try lia.
    { rewrite Hrec. apply Controller_step_context, Hctx. }
    rewrite Hrec2, Hk2, Ha2, Hb2, Hrec, length_app.
    split; [reflexivity|]. split; [f_equal; lia|]. split; [f_equal; lia|].
    split; [f_equal; lia|].
    cbn [Nat.eqb] in Hgaps2. destruct (k =? 0)%nat; lia.
Qed.

Lemma sublist_concat_length (l1 l2 : list (list Z)) :
  l1 `sublist_of` l2 -> (length (concat l1) <= length (concat l2))%nat.
Proof.
  induction 1 as [|x l1 l2 _ IH|x l1 l2 _ IH]; cbn [concat];
    rewrite ?length_app; lia.
Qed.

(** X17. In the recorder with diagnostics, started at any rate and fed any
    number of callbacks: the recording is that of the plain
    [AudioRecorder] on the same input (the diagnostics never change what is
    recorded); [callbackCount] is the number of callbacks,
    [totalSamplesReceived] the number of input samples and
    [totalDownsampledSamples] the number of samples the resampler produced;
    there are fewer gaps than callbacks; and the recorded samples are at
    most the produced ones, all of them when the flag is off. *)
Theorem diagnostics_session (flag : bool) (rate : JS.number)
    (events : list (JS.number * list JS.number))
    (Hcallbacks : Z.of_nat (length events) < 2 ^ 53)
    (Hreceived : Z.of_nat (length (concat (map snd events))) < 2 ^ 53)
    (Hproduced :
       Z.of_nat (length (concat (omap (fun i => Controller.downsample i rate)
                                      (map snd events)))) < 2 ^ 53) :
  let st := Diagnostics.session flag rate events in
  let produced := omap (fun i => Controller.downsample i rate) (map snd events) in
  Controller.recordedChunks (Diagnostics.recorder st)
  = Controller.record flag rate (map snd events)
  /\ Diagnostics.callbackCount (Diagnostics.diag st) = JS.of_nat (length events)
  /\ Diagnostics.totalSamplesReceived (Diagnostics.diag st)
     = JS.of_nat (length (concat (map snd events)))
  /\ Diagnostics.totalDownsampledSamples (Diagnostics.diag st)
     = JS.of_nat (length (concat produced))
  /\ (length (Diagnostics.gaps (Diagnostics.diag st)) <= length events - 1)%nat
  /\ (length (concat (Controller.recordedChunks (Diagnostics.recorder st)))
      <= length (concat produced))%nat
  /\ (flag = false -> Controller.recordedChunks (Diagnostics.recorder st) = produced).
Proof.
  intros st produced. unfold st, Diagnostics.session.
  destruct (Diagnostics_fold flag rate events
              (Diagnostics.start rate
                 {| Diagnostics.recorder := Controller.mkState None [] None;
                    Diagnostics.diag := Diagnostics.resetDiagnostics |})
              0 0 0)
    as (Hrec & Hk & Ha & Hb & Hgaps);
    try reflexivity; try assumption; [eexists; reflexivity|].
  cbn [Nat.add] in Hk, Ha, Hb. cbn [Nat.eqb] in Hgaps.
  rewrite Hrec.
  change (Diagnostics.recorder (Diagnostics.start rate _))
    with (Controller.start rate (Controller.mkState None [] None)).
  fold (Controller.record flag rate (map snd events)).
  split; [reflexivity|]. split; [exact Hk|]. split; [exact Ha|]. split; [exact Hb|].
  split; [exact Hgaps|]. split.
  - apply sublist_concat_length. unfold Controller.record.
    destruct (fold_sublist Controller.recordedChunks (Controller.onaudioprocess flag)
                (fun b => Controller.downsample b rate)
                (fun st => Controller.audioContext st = Some rate)
                (fun st b H => proj1 (Controller_step_chunks flag rate st b H))
                (fun st b H => proj2 (Controller_step_chunks flag rate st b H))
                (map snd events) (Controller.start rate (Controller.mkState None [] None))
                eq_refl)
      as (kept & -> & Hsub).
    exact Hsub.
  - intros ->. apply Controller_record_ungated.
Qed.

Lemma diagnostics_session_witness :
  let events := [(JS.of_Z 0, zero_block); (JS.of_Z 85, loud_block);
                 (JS.of_Z 400, loud_block)] in
  let st := Diagnostics.session true rate48k events in
  let produced := omap (fun i => Controller.downsample i rate48k) (map snd events) in
  Controller.recordedChunks (Diagnostics.recorder st)
  = Controller.record true rate48k (map snd events)
  /\ Diagnostics.callbackCount (Diagnostics.diag st) = JS.of_nat (length events)
  /\ Diagnostics.totalSamplesReceived (Diagnostics.diag st)
     = JS.of_nat (length (concat (map snd events)))
  /\ Diagnostics.totalDownsampledSamples (Diagnostics.diag st)
     = JS.of_nat (length (concat produced))
  /\ (length (Diagnostics.gaps (Diagnostics.diag st)) <= length events - 1)%nat
  /\ (length (concat (Controller.recordedChunks (Diagnostics.recorder st)))
      <= length (concat produced))%nat
  /\ (true = false -> Controller.recordedChunks (Diagnostics.recorder st) = produced).
Proof.
  apply (diagnostics_session true rate48k
           [(JS.of_Z 0, zero_block); (JS.of_Z 85, loud_block); (JS.of_Z 400, loud_block)]).
  - vm_compute. reflexivity.
  - vm_compute. reflexivity.
  - vm_compute. reflexivity.
Defined.

(** ** End-to-end behaviour in integers *)

Lemma rms_audible_energy (frame : list Z) :
  frame <> [] -> Z.of_nat (length frame) <= 2 ^ 22 -> Forall is_int16 frame ->
  rms_audible frame = energy_audible frame.
Proof.
  intros Hne Hlen Hs. unfold rms_audible, energy_audible.
  rewrite (isSilentFrame_energy frame Hne Hlen Hs), Z.ltb_antisym.
  apply negb_involutive.
Qed.

Lemma scale_to_int16_range (x : JS.number) : is_int16 (scale_to_int16 x).
Proof.
  unfold scale_to_int16, JS.ToInt16, is_int16.
  destruct (JS.truncZ _) as [z|]; [apply wrap16_range | lia].
Qed.

Lemma downsampleTo16k_int16 (x : list JS.number) (rate : JS.number) (pcm16 : list Z) :
  Worklet.downsampleTo16k x rate = Some pcm16 -> Forall is_int16 pcm16.
Proof.
  rewrite downsampleTo16k_elements.
  destruct (JS.ToIndex _) as [n|]; [|discriminate].
  cbn [mbind option_bind]. intros [= <-].
  apply Forall_fmap, Forall_forall. intros i _. apply scale_to_int16_range.
Qed.

Lemma filter_agree {A : Type} (f g : A -> bool) (l : list A) :
  Forall (fun x => f x = g x) l -> List.filter f l = List.filter g l.
Proof.
  induction 1 as [|x l Hx _ IH]; [reflexivity|].
  cbn [List.filter]. rewrite Hx, IH. reflexivity.
Qed.

Lemma frames_of_frames (fuel : nat) (l : list Z) :
  Forall is_int16 l ->
  Forall (fun f => f <> [] /\ (length f <= 512)%nat /\ Forall is_int16 f)
         (frames_of fuel 512 l).
Proof.
  revert l. induction fuel as [|fuel IH]; intros l Hl; [constructor|].
  cbn [frames_of]. destruct l as [|v rest] eqn:El; [constructor|]. rewrite <- El in *.
  constructor.
  - split; [rewrite El; discriminate|]. split; [rewrite length_take; lia|].
    apply Forall_take, Hl.
  - apply IH, Forall_drop, Hl.
Qed.

Lemma removeSilentFrames_energy (pcm16 : list Z) :
  Forall is_int16 pcm16 ->
  MediaRecorder.removeSilentFrames pcm16
  = Some (concat (List.filter energy_audible (frames_of (length pcm16) 512 pcm16))).
Proof.
  intros Hs. unfold MediaRecorder.removeSilentFrames.
  rewrite frames_loop_frames by lia. rewrite drop_0. cbn [app].
  rewrite mergeChunks_concat. do 2 f_equal.
  apply filter_agree.
  eapply Forall_impl; [apply frames_of_frames, Hs|].
  intros f (Hne & Hlen & Hf). apply rms_audible_energy; try assumption.
  change (2 ^ 22) with 4194304. lia.
Qed.

(** X18. [convertToWav16k] after decoding, in integers: once the resampler
    has returned, the conversion cannot fail; without silence removal the
    WAV holds the resampled buffer; with it, the WAV holds, in order, the
    512-sample frames of that buffer (the last one possibly shorter) whose
    sum of squares is at least 625 times their length. *)
Theorem convertToWav16k_frames (float32 : list JS.number) (sampleRate : JS.number)
    (pcm16 : list Z)
    (Hresampled : MediaRecorder.downsampleTo16k float32 sampleRate = Some pcm16) :
  MediaRecorder.convertDecoded false float32 sampleRate
  = Some (wav_header (length pcm16) ++ wav_data pcm16)
  /\ (let kept := concat (List.filter energy_audible
                            (frames_of (length pcm16) 512 pcm16)) in
      MediaRecorder.convertDecoded true float32 sampleRate
      = Some (wav_header (length kept) ++ wav_data kept)
      /\ kept `sublist_of` pcm16).
Proof.
  unfold MediaRecorder.convertDecoded. rewrite Hresampled. cbn [mbind option_bind].
  split; [apply buildWav_bytes|]. cbn zeta.
  rewrite (removeSilentFrames_energy pcm16 (downsampleTo16k_int16 _ _ _ Hresampled)).
  cbn [mbind option_bind].
  split; [apply buildWav_bytes|].
  pose proof (concat_filter_sublist energy_audible (frames_of (length pcm16) 512 pcm16)) as H.
  rewrite concat_frames_of in H by lia. exact H.
Qed.

Lemma convertToWav16k_frames_witness :
  MediaRecorder.convertDecoded false loud_block rate48k
  = Some (wav_header (length loud_pcm) ++ wav_data loud_pcm)
  /\ (let kept := concat (List.filter energy_audible
                            (frames_of (length loud_pcm) 512 loud_pcm)) in
      MediaRecorder.convertDecoded true loud_block rate48k
      = Some (wav_header (length kept) ++ wav_data kept)
      /\ kept `sublist_of` loud_pcm).
Proof.
  apply (convertToWav16k_frames loud_block rate48k loud_pcm).
  vm_compute. reflexivity.
Defined.

Lemma decimate3_length (x : list JS.number) : length (decimate3 x) = (length x / 3)%nat.
Proof. unfold decimate3. rewrite length_map, length_seq. reflexivity. Qed.

Lemma decimate3_int16 (x : list JS.number) : Forall is_int16 (decimate3 x).
Proof.
  unfold decimate3. apply Forall_fmap, Forall_forall. intros i _.
  apply scale_to_int16_range.
Qed.

(** X19. The worklet recorder at its 48 kHz context rate, end to end and in
    integers: whatever the flag, for blocks of 3 to 2^22 float32 samples
    the timeline is the list of decimated-and-quantized blocks whose sum
    of squares is at least 625 times their length, and stopping stores the
    WAV of their concatenation. *)
Theorem worklet_recorder_48k (flag : bool) (blocks : list (list JS.number))
    (Hblocks : Forall (fun b => Forall float32_sample b
                                /\ (3 <= length b)%nat
                                /\ Z.of_nat (length b) <= 2 ^ 22) blocks) :
  let timeline := List.filter energy_audible (map decimate3 blocks) in
  Worklet.record flag rate48k blocks = timeline
  /\ exists st,
       Worklet.stop (foldl (Worklet.onmessage flag)
                           (Worklet.start rate48k (Worklet.mkState None [] None)) blocks)
       = Some st
       /\ Worklet.audioCtx st = None
       /\ Worklet.wavResult st
          = Some (wav_header (length (concat timeline)) ++ wav_data (concat timeline)).
Proof.
  intros timeline.
  assert (Hconv : omap (fun b => Worklet.downsampleTo16k b rate48k) blocks
                  = map decimate3 blocks).
  { induction Hblocks as [|b blocks (Hs & _ & Hlen) _ IH]; [reflexivity|].
    cbn [omap list_omap map]. rewrite downsampleTo16k_48k, IH; [reflexivity | exact Hs |].
    change (2 ^ 22) with 4194304 in Hlen. change (2 ^ 52) with 4503599627370496. lia. }
  assert (Hreg : Forall (regular_block rate48k) blocks).
  { eapply Forall_impl; [exact Hblocks|]. intros b (Hs & H3 & Hlen).
    unfold regular_block. rewrite downsampleTo16k_48k; [| exact Hs |].
    - split.
      + intros Hnil. apply (f_equal length) in Hnil.
        rewrite decimate3_length in Hnil. cbn [length] in Hnil.
        pose proof (Nat.div_mod_eq (length b) 3).
        pose proof (Nat.mod_upper_bound (length b) 3). lia.
      + rewrite decimate3_length.
        pose proof (Nat.Div0.div_le_upper_bound (length b) 3 (length b)).
        change (2 ^ 22) with 4194304 in Hlen. change (2 ^ 53) with 9007199254740992.
        assert (length b / 3 <= length b)%nat by (apply Nat.Div0.div_le_upper_bound; lia).
        lia.
    - change (2 ^ 22) with 4194304 in Hlen. change (2 ^ 52) with 4503599627370496. lia. }
  assert (Hrec : Worklet.chunks (foldl (Worklet.onmessage flag)
                   (Worklet.start rate48k (Worklet.mkState None [] None)) blocks)
                 = timeline).
  { rewrite (Worklet_fold_filter flag rate48k blocks) by (try reflexivity; right; exact Hreg).
    cbn [Worklet.chunks Worklet.start app]. rewrite Hconv. unfold timeline.
    apply filter_agree.
    apply Forall_fmap. eapply Forall_impl; [exact Hblocks|]. intros b (Hs & H3 & Hlen).
    unfold compose. apply rms_audible_energy.
    - intros Hnil. apply (f_equal length) in Hnil.
      rewrite decimate3_length in Hnil. cbn [length] in Hnil.
      pose proof (Nat.div_mod_eq (length b) 3).
      pose proof (Nat.mod_upper_bound (length b) 3). lia.
    - rewrite decimate3_length.
      assert (length b / 3 <= length b)%nat by (apply Nat.Div0.div_le_upper_bound; lia).
      lia.
    - apply decimate3_int16. }
  split; [exact Hrec|].
  unfold Worklet.stop. rewrite Hrec.
  rewrite mergeChunks_concat. cbn [mbind option_bind].
  rewrite buildWav_bytes. cbn [mbind option_bind].
  eexists. repeat split.
Qed.

Lemma worklet_recorder_48k_witness :
  let timeline := List.filter energy_audible (map decimate3 session) in
  Worklet.record true rate48k session = timeline
  /\ exists st,
       Worklet.stop (foldl (Worklet.onmessage true)
                           (Worklet.start rate48k (Worklet.mkState None [] None)) session)
       = Some st
       /\ Worklet.audioCtx st = None
       /\ Worklet.wavResult st
          = Some (wav_header (length (concat timeline)) ++ wav_data (concat timeline)).
Proof.
  apply (worklet_recorder_48k true session).
  unfold session.
  repeat (constructor;
          [split; [apply Forall_replicate; repeat split
                  | split; [vm_compute; lia | vm_compute; discriminate]]|]).
  constructor.
Defined.

(** X20. With the flag off, on blocks of float32 samples within [-1, 1],
    the worker-offloaded recorder and the main-thread [AudioRecorder]
    record the same timeline and produce the same WAV, at 48 kHz and at
    16 kHz: moving the conversion into the worker changed nothing there. *)
Theorem recorders_agree_without_gating (rate : JS.number) (blocks : list (list JS.number))
    (Hrate : rate = rate48k \/ rate = rate16k)
    (Hblocks : Forall (fun b => Forall float32_sample b /\ Forall in_unit b
                                /\ Z.of_nat (length b) < 2 ^ 52) blocks) :
  Offload.record false rate blocks = Controller.record false rate blocks
  /\ exists wav st,
       snd (Offload.stop (foldl (Offload.onaudioprocess false) (Offload.start rate) blocks))
       = Some wav
       /\ Controller.stop (foldl (Controller.onaudioprocess false)
                                 (Controller.start rate (Controller.mkState None [] None))
                                 blocks) = Some st
       /\ Controller.finalWavBuffer st = Some wav.
Proof.
  assert (Hrec : Offload.record false rate blocks = Controller.record false rate blocks).
  { rewrite Offload_record_ungated, Controller_record_ungated.
    induction Hblocks as [|b blocks (Hs & Hu & Hlen) _ IH]; [reflexivity|].
    cbn [omap list_omap]. rewrite IH.
    destruct (Worker_convert_agrees Worker.initial b Hs Hu Hlen) as [H48 H16].
    destruct Hrate as [-> | ->].
    - change (Offload.audioWorker (Offload.start rate48k))
        with (fst (Worker.onmessage Worker.initial (Worker.Init rate48k))).
      rewrite H48. reflexivity.
    - change (Offload.audioWorker (Offload.start rate16k))
        with (fst (Worker.onmessage Worker.initial (Worker.Init rate16k))).
      rewrite H16. reflexivity. }
  split; [exact Hrec|].
  unfold Offload.record, Controller.record in Hrec.
  unfold Offload.stop, Worker.onmessage, Worker.mergeChunks, Worker.buildWav,
    Controller.stop.
  rewrite Hrec, Controller_mergeChunks_concat. cbn [mbind option_bind].
  rewrite encode_eq_buildWav, buildWav_bytes. cbn [mbind option_bind snd].
  eexists. eexists. repeat split.
Qed.

Lemma recorders_agree_without_gating_witness :
  Offload.record false rate48k session = Controller.record false rate48k session
  /\ exists wav st,
       snd (Offload.stop (foldl (Offload.onaudioprocess false) (Offload.start rate48k)
                                session))
       = Some wav
       /\ Controller.stop (foldl (Controller.onaudioprocess false)
                                 (Controller.start rate48k (Controller.mkState None [] None))
                                 session) = Some st
       /\ Controller.finalWavBuffer st = Some wav.
Proof.
  apply (recorders_agree_without_gating rate48k session).
  - left. reflexivity.
  - unfold session.
    repeat (constructor;
            [split; [apply Forall_replicate; repeat split
                    | split; [apply Forall_replicate; split; reflexivity
                             | vm_compute; reflexivity]]|]).
    constructor.
Defined.

(** ** C7: output length at integer ratios *)




(** ** C7: output length at arbitrary integer rates *)







